(** * Mokosh moderation bots (Discord and Telegram): a shallow embedding

    The development follows [discord/main.py] and [telegram/app/main.py].
    Python values decoded from JSON are modelled by the type [json];
    dictionaries are finite maps with string keys; the SQLite tables are
    finite maps keyed like their primary keys.  Code that touches the
    database, raises, or talks to the chat platform lives in a small
    state / trace / exception monad.  Rendering of texts and embeds is not
    modelled beyond the points where it can raise. *)

From stdpp Require Import gmap strings list fin_maps numbers pretty.
From Stdlib Require Import QArith Qcanon.

#[local] Set Warnings "-register-all".
#[local] Open Scope string_scope.
#[local] Open Scope Z_scope.

(** ** Python values *)

(** Values produced by [json.loads] / [r.json()].  [JNull] is Python's
    [None]; numbers are kept as exact rationals (a Python [int] is an
    integer, a Python [float] is a dyadic rational, and Python compares
    the two exactly). *)
Inductive json :=
| JNull
| JBool (b : bool)
| JNum (q : Qc)
| JStr (s : string)
| JArr (l : list json)
| JObj (m : gmap string json).

Abbreviation dict := (gmap string json).

(** Exceptions that the modelled code can raise; all of them are
    subclasses of [Exception]. *)
Inductive pyexn :=
| TypeError | ValueError | AttributeError | IndexError | KeyError
| TransportError     (* httpx: timeout, connection failure *)
| PlatformError.     (* discord.py / python-telegram-bot call failed *)

(** Python truthiness ([bool(x)], [if x], [x or y], [not x]). *)
Definition truthy (v : json) : bool :=
  match v with
  | JNull => false
  | JBool b => b
  | JNum q => negb (bool_decide (q = 0%Qc))
  | JStr s => negb (bool_decide (s = ""))
  | JArr l => negb (bool_decide (l = []))
  | JObj m => negb (bool_decide (m = ∅))
  end.

(** [a or b] *)
Definition py_or (a b : json) : json := if truthy a then a else b.

(** [d.get(k)] and [d.get(k, default)] *)
Definition get (k : string) (d : dict) : json := default JNull (d !! k).
Definition get_default (k : string) (dflt : json) (d : dict) : json :=
  default dflt (d !! k).

(** [v == "s"] for a string literal: only a string compares equal. *)
Definition eq_str (v : json) (s : string) : bool :=
  match v with
  | JStr s' => bool_decide (s' = s)
  | _ => false
  end.

(** The numeric value of a Python number; [True] and [False] are the
    integers 1 and 0.  Everything else makes [>=] against a float and the
    [.0%] format raise. *)
Definition num_of (v : json) : option Qc :=
  match v with
  | JNum q => Some q
  | JBool b => Some (if b then 1%Qc else 0%Qc)
  | _ => None
  end.

(** [v[0]] *)
Definition index0 (v : json) : pyexn + json :=
  match v with
  | JArr (x :: _) => inr x
  | JArr [] => inl IndexError
  | JStr (String c _) => inr (JStr (String c ""))
  | JStr EmptyString => inl IndexError
  | JObj _ => inl KeyError
  | _ => inl TypeError
  end.

(** [", ".join(l)] raises [TypeError] unless every element is a string. *)
Fixpoint join_strs (l : list json) : pyexn + string :=
  match l with
  | [] => inr ""
  | JStr s :: l' =>
      match l' with
      | [] => inr s
      | _ => match join_strs l' with
             | inr r => inr (s +:+ ", " +:+ r)
             | inl e => inl e
             end
      end
  | _ => inl TypeError
  end.

(** ** Fixed moderation thresholds

    [BAN_CONFIDENCE_THRESHOLD = 0.80] is a Python float: the double
    nearest to 8/10, whose exact value is the dyadic rational below. *)
Definition BAN_VIOLATION_THRESHOLD : Z := 2.
Definition BAN_CONFIDENCE_THRESHOLD : Qc :=
  Q2Qc (3602879701896397 # 4503599627370496).

(** The floats written [0.80] and [0.79] in Python source or JSON. *)
Definition float_0_80 : Qc := Q2Qc (3602879701896397 # 4503599627370496).
Definition float_0_79 : Qc := Q2Qc (889460926405673 # 1125899906842624).

(** [a >= b] on numbers *)
Definition Qc_geb (a b : Qc) : bool := bool_decide (b ≤ a)%Qc.

(** ** Observable effects *)

Inductive action := warn | ban.

Definition chosen_action (should_ban : bool) : action :=
  if should_ban then ban else warn.

(** What a handler does to the outside world, in order.  The boolean
    [ok] records whether the platform call succeeded ([false]: it raised
    and the surrounding [try] printed a warning). *)
Inductive effect :=
| ApiPost (path : string) (body : json)
| ApiUpload (path : string) (fields : gmap string string)
            (filename content_type : string)
| Moderation (new_count : Z) (confidence : Qc) (act : action)
| DeleteMessage (ok : bool)
| ChannelWarning (act : action) (ok : bool)
| CreateLogChannel (ok : bool)
| LogPost (act : action) (ok : bool)
| BanMember (ok : bool)
| UpdateMenu (ok : bool).

(** ** The monad: state, trace of effects, exceptions *)

Definition M (S A : Type) : Type := S → (pyexn + A) * S * list effect.

Definition ret {S A} (a : A) : M S A := λ s, (inr a, s, []).

Definition bind {S A B} (m : M S A) (f : A → M S B) : M S B :=
  λ s, match m s with
       | (inl e, s1, t1) => (inl e, s1, t1)
       | (inr a, s1, t1) =>
           match f a s1 with
           | (r, s2, t2) => (r, s2, (t1 ++ t2)%list)
           end
       end.

Definition raise {S A} (e : pyexn) : M S A := λ s, (inl e, s, []).
Definition emit {S} (e : effect) : M S unit := λ s, (inr tt, s, [e]).
Definition gets {S A} (f : S → A) : M S A := λ s, (inr (f s), s, []).
Definition modify {S} (f : S → S) : M S unit := λ s, (inr tt, f s, []).
Definition lift {S A} (r : pyexn + A) : M S A :=
  match r with inl e => raise e | inr a => ret a end.

(** [try: m  except Exception: print(...)]: the result says whether the
    body ran to its end. *)
Definition attempt {S} (m : M S unit) : M S bool :=
  λ s, match m s with
       | (inl _, s1, t1) => (inr false, s1, t1)
       | (inr _, s1, t1) => (inr true, s1, t1)
       end.

(** [try: return m  except Exception: return None] *)
Definition or_none {S} (m : M S json) : M S json :=
  λ s, match m s with
       | (inl _, s1, t1) => (inr JNull, s1, t1)
       | (inr v, s1, t1) => (inr v, s1, t1)
       end.

(** A call into the chat platform: it is logged with its outcome, and a
    failed call raises. *)
Definition platform_call {S} (e : bool → effect) (ok : bool) : M S unit :=
  λ s, (if ok then inr tt else inl PlatformError, s, [e ok]).

Declare Scope py_scope.
Delimit Scope py_scope with py.
Notation "x <- m ;; k" := (bind m (λ x, k))
  (at level 100, m at next level, right associativity) : py_scope.
Notation "m ;; k" := (bind m (λ _, k))
  (at level 100, right associativity) : py_scope.
#[local] Open Scope py_scope.

(** Projections of a run. *)
Definition result_of {S A} (r : (pyexn + A) * S * list effect) : pyexn + A := r.1.1.
Definition state_of {S A} (r : (pyexn + A) * S * list effect) : S := r.1.2.
Definition trace_of {S A} (r : (pyexn + A) * S * list effect) : list effect := r.2.

(** ** The classification API *)

(** What the HTTP exchange with the classification service comes to:
    the request timed out, the connection failed, the body was not JSON
    ([r.json()] raises), or a body was decoded.  The status code is not
    inspected by the callers. *)
Inductive http_outcome :=
| Timeout
| ConnectFailed
| Unparseable (status : Z)
| Decoded (status : Z) (data : json).

(** [await client.post(...)] followed by [r.json()] *)
Definition post_json {S} (request : effect) (resp : http_outcome) : M S json :=
  emit request ;;
  match resp with
  | Decoded _ data => ret data
  | Unparseable _ => raise ValueError
  | Timeout | ConnectFailed => raise TransportError
  end.

Definition text_body (text sender_id sender_display : json) (prior : Z)
    (settings : dict) : json :=
  JObj {[ "messages" :=
            JArr [JObj {[ "sender_id" := sender_id;
                          "sender_display" := sender_display;
                          "text" := text;
                          "prior_violations" := JNum (Qc_of_Z prior) ]}];
          "settings" := JObj settings ]}.

(** [api_text]: both platforms have the same body. *)
Definition api_text {S} (text sender_id sender_display : string) (prior : Z)
    (settings : dict) (resp : http_outcome) : M S json :=
  or_none (
    data <- post_json
      (ApiPost "/analyze/messages"
         (text_body (JStr text) (JStr sender_id) (JStr sender_display)
            prior settings)) resp ;;
    match data with
    | JObj m =>
        match m !! "results" with
        | Some results => lift (index0 results)
        | None => ret data
        end
    | _ => ret data
    end).

(** Multipart uploads ([api_image], [api_audio], [api_video]): the
    decoded body is returned as it is. *)
Definition upload_fields (prior : Z) (sender_label : string)
    (caption : option string) : gmap string string :=
  let data : gmap string string :=
    {[ "prior_violations" := pretty prior; "sender_label" := sender_label ]} in
  match caption with
  | Some c => if bool_decide (c = "") then data else <["caption" := c]> data
  | None => data
  end.

Definition api_image {S} (file_bytes filename : string) (caption : option string)
    (prior : Z) (sender_label : string) (resp : http_outcome) : M S json :=
  or_none (post_json
    (ApiUpload "/analyze/image" (upload_fields prior sender_label caption)
       filename "image/jpeg") resp).

Definition api_audio {S} (file_bytes filename : string)
    (prior : Z) (sender_label : string) (resp : http_outcome) : M S json :=
  or_none (post_json
    (ApiUpload "/analyze/audio" (upload_fields prior sender_label None)
       filename "audio/ogg") resp).

Definition api_video {S} (file_bytes filename : string) (caption : option string)
    (prior : Z) (sender_label : string) (resp : http_outcome) : M S json :=
  or_none (post_json
    (ApiUpload "/analyze/video" (upload_fields prior sender_label caption)
       filename "video/mp4") resp).

(** [is_bad_result(result)] *)
Definition is_bad_result (result : dict) : bool :=
  truthy (py_or (get "is_bad" result)
                (JBool (eq_str (get "status" result) "bad"))).

(** The guard [if result and is_bad_result(result):] of every handler.
    It yields the verdict when the guarded call is to be made.  A truthy
    [result] that is not a dictionary has no [.get]: the guard raises. *)
Definition harmful_verdict {S} (result : json) : M S (option dict) :=
  if truthy result then
    match result with
    | JObj d => ret (if is_bad_result d then Some d else None)
    | _ => raise AttributeError
    end
  else ret None.

(** ** Shared pieces of the two [apply_verdict] functions *)

(** [categories = result.get("category", []); if isinstance(categories,
    list): categories = ", ".join(categories)] *)
Definition joined_categories {S} (result : dict) : M S json :=
  match get_default "category" (JArr []) result with
  | JArr l => s <- lift (join_strs l) ;; ret (JStr s)
  | v => ret v
  end.

(** [result.get("sender_response") or result.get("response", "")] *)
Definition api_verdict_of (result : dict) : json :=
  py_or (get "sender_response" result) (get_default "response" (JStr "") result).

(** [new_count >= BAN_VIOLATION_THRESHOLD and confidence >=
    BAN_CONFIDENCE_THRESHOLD]: [and] evaluates its right operand only when
    the left one holds, and comparing a non-number with a float raises. *)
Definition should_ban_of {S} (new_count : Z) (confidence : json) : M S bool :=
  if bool_decide (BAN_VIOLATION_THRESHOLD ≤ new_count) then
    match num_of confidence with
    | Some c => ret (Qc_geb c BAN_CONFIDENCE_THRESHOLD)
    | None => raise TypeError
    end
  else ret false.

(** [f"{confidence:.0%}"]: the number that is printed, or the exception
    of the format call. *)
Definition format_percent {S} (confidence : json) : M S Qc :=
  match confidence with
  | JStr _ => raise ValueError
  | _ => match num_of confidence with
         | Some c => ret c
         | None => raise TypeError
         end
  end.

(** ** The database *)

(** Table [violations], primary key (scope id, user id), and the
    settings table, primary key scope id, holding the decoded JSON blob. *)
Record store := Store {
  violations : gmap (Z * Z) Z;
  settings_rows : gmap Z dict
}.

Definition empty_store : store := Store ∅ ∅.

Module Db.
(** [SELECT count FROM violations WHERE ...], [row["count"] if row else 0] *)
Definition get_violations (scope_id user_id : Z) (db : store) : Z :=
  default 0 (violations db !! (scope_id, user_id)).

(** [INSERT ... ON CONFLICT DO UPDATE SET count = excluded.count] *)
Definition set_violations (scope_id user_id count : Z) (db : store) : store :=
  Store (<[(scope_id, user_id) := count]> (violations db)) (settings_rows db).

(** [INSERT ... ON CONFLICT DO UPDATE SET settings = excluded.settings] *)
Definition save_settings (scope_id : Z) (settings : dict) (db : store) : store :=
  Store (violations db) (<[scope_id := settings]> (settings_rows db)).
End Db.

(** ** Strings *)

(** [s.lower()]; strings are taken to be ASCII. *)
Definition lower_ascii (c : Ascii.ascii) : Ascii.ascii :=
  let n := Ascii.N_of_ascii c in
  if bool_decide (65 ≤ n ≤ 90)%N then Ascii.ascii_of_N (n + 32) else c.

Fixpoint lower (s : string) : string :=
  match s with
  | EmptyString => EmptyString
  | String c s' => String (lower_ascii c) (lower s')
  end.

Definition startswith (s p : string) : bool := String.prefix p s.
Definition endswith (s p : string) : bool :=
  String.prefix (String.rev p) (String.rev s).
Definition endswith_any (s : string) (ps : list string) : bool :=
  existsb (endswith s) ps.

(** [c.isspace()] for an ASCII character: tab to carriage return, the
    four separators 28 to 31, and the space. *)
Definition isspace (c : Ascii.ascii) : bool :=
  let n := Ascii.N_of_ascii c in
  bool_decide (9 ≤ n ≤ 13)%N || bool_decide (28 ≤ n ≤ 32)%N.

(** [bool(s.strip())]: some character is not whitespace. *)
Fixpoint nonblank (s : string) : bool :=
  match s with
  | EmptyString => false
  | String c s' => negb (isspace c) || nonblank s'
  end.

(** [s.lstrip()] and [s.strip()] *)
Fixpoint lstrip (s : string) : string :=
  match s with
  | EmptyString => EmptyString
  | String c s' => if isspace c then lstrip s' else s
  end.

Definition strip (s : string) : string :=
  String.rev (lstrip (String.rev (lstrip s))).

(** [sep.join(l)] for a list of strings *)
Fixpoint join_with (sep : string) (l : list string) : string :=
  match l with
  | [] => ""
  | [x] => x
  | x :: l' => x +:+ sep +:+ join_with sep l'
  end.

(** [s.partition(sep)] for a one-character separator: the text before
    and after its first occurrence, or [None] when there is none. *)
Fixpoint split_once (sep : Ascii.ascii) (s : string) : option (string * string) :=
  match s with
  | EmptyString => None
  | String c s' =>
      if bool_decide (c = sep) then Some (EmptyString, s')
      else match split_once sep s' with
           | Some (a, b) => Some (String c a, b)
           | None => None
           end
  end.

(** [s.split(sep, maxsplit)] for a one-character separator *)
Fixpoint split_max (maxsplit : nat) (sep : Ascii.ascii) (s : string) : list string :=
  match maxsplit with
  | O => [s]
  | S n =>
      match split_once sep s with
      | Some (a, b) => a :: split_max n sep b
      | None => [s]
      end
  end.

(** [s.replace(ch, "\" + ch)] for a character [ch]: every occurrence
    gets a backslash in front. *)
Fixpoint backslash_char (ch : Ascii.ascii) (s : string) : string :=
  match s with
  | EmptyString => EmptyString
  | String c s' =>
      if bool_decide (c = ch)
      then String (Ascii.ascii_of_N 92) (String c (backslash_char ch s'))
      else String c (backslash_char ch s')
  end.

(** [x in v] for a string [x]: an element of a list, a substring of a
    string, a key of a dictionary; other values are not iterable. *)
Definition py_in (x : string) (v : json) : pyexn + bool :=
  match v with
  | JArr l => inr (existsb (λ e, eq_str e x) l)
  | JStr s => inr (bool_decide (is_Some (String.index 0 x s)))
  | JObj m => inr (bool_decide (is_Some (m !! x)))
  | _ => inl TypeError
  end.

(** [", ".join(v)] as far as it can raise: the elements of a list must
    be strings; a string and a dictionary (of string keys) can always be
    joined; other values are not iterable. *)
Definition join_check (v : json) : pyexn + unit :=
  match v with
  | JArr l => match join_strs l with inr _ => inr tt | inl e => inl e end
  | JStr _ | JObj _ => inr tt
  | _ => inl TypeError
  end.

(** What the manual check commands answer. *)
Inductive check_reply :=
| UsageNotice                (* "Usage: /check <message text>" *)
| ApiErrorNotice             (* "API error - could not analyze." *)
| CheckResult (harmful : bool) (confidence : Qc).

(** [d[k]] *)
Definition subscript {S} (k : string) (d : dict) : M S json :=
  match d !! k with
  | Some v => ret v
  | None => raise KeyError
  end.

(** The float written [0.55]. *)
Definition float_0_55 : Qc := Q2Qc (2476979795053773 # 4503599627370496).

Definition ALL_CATEGORIES : list string :=
  ["sexual"; "verbal_abuse"; "harassment"; "gasslighting"; "threat";
   "stalking"; "other"].

(** ** The Discord bot ([discord/main.py]) *)

Module Discord.

Definition DEFAULT_SETTINGS : dict :=
  {[ "min_confidence_for_action" := JNum float_0_55;
     "mute_threshold_violations" := JNum (Qc_of_Z 2);
     "block_threshold_violations" := JNum (Qc_of_Z 4);
     "auto_warn" := JBool true;
     "auto_block" := JBool true;
     "instant_mute_categories" :=
       JArr [JStr "sexual"; JStr "verbal_abuse"; JStr "harassment";
             JStr "gasslighting"];
     "instant_block_categories" := JArr [JStr "threat"; JStr "stalking"];
     "apply_only_if_not_safe" := JBool true;
     "tag_sender_in_reply" := JBool true ]}.

(** [{**DEFAULT_SETTINGS, **json.loads(row["settings"])} if row else
    dict(DEFAULT_SETTINGS)]: the right operand of the merge wins. *)
Definition get_settings (guild_id : Z) : M store dict :=
  row <- gets (λ db, settings_rows db !! guild_id) ;;
  ret match row with
      | Some stored => stored ∪ DEFAULT_SETTINGS
      | None => DEFAULT_SETTINGS
      end.

Definition save_settings (guild_id : Z) (settings : dict) : M store unit :=
  modify (Db.save_settings guild_id settings).

Definition get_violations (guild_id user_id : Z) : M store Z :=
  gets (Db.get_violations guild_id user_id).

Definition set_violations (guild_id user_id count : Z) : M store unit :=
  modify (Db.set_violations guild_id user_id count).

(** How Discord answers the calls made while one message is handled. *)
Record world := World {
  delete_ok : bool;
  send_ok : bool;
  log_channel_exists : bool;
  create_channel_ok : bool;
  log_send_ok : bool;
  ban_ok : bool
}.

Record attachment := Attachment {
  filename : string;
  content_type : option string;
  size : Z;
  read : option string;       (* [None]: [attachment.read()] raises *)
  response : http_outcome     (* the API's answer for this file *)
}.

Record message := Message {
  guild : option Z;           (* [message.guild.id], when in a guild *)
  author_id : Z;
  author_bot : bool;
  author_is_member : bool;    (* [isinstance(author, discord.Member)] *)
  author_display_name : string;
  content : string;
  attachments : list attachment;
  text_response : http_outcome (* the API's answer for the text *)
}.

(** [get_log_channel]: the existing channel, or a freshly created one,
    or [None] when the creation fails. *)
Definition get_log_channel (w : world) : M store bool :=
  if log_channel_exists w then ret true
  else attempt (platform_call CreateLogChannel (create_channel_ok w)).

(** [embed.add_field(name="AI note", value=api_verdict[:500])] under
    [if api_verdict:], the one place where building an embed can raise:
    only strings and lists can be sliced. *)
Definition ai_note (api_verdict : json) : M store unit :=
  if truthy api_verdict then
    match api_verdict with
    | JStr _ | JArr _ => ret tt
    | _ => raise TypeError
    end
  else ret tt.

Definition warn_embed (api_verdict : json) : M store unit := ai_note api_verdict.

Definition apply_verdict (w : world) (message : message) (result : dict)
    (media_label : string) : M store unit :=
  match guild message with
  | None => ret tt
  | Some guild_id =>
    if negb (author_is_member message) then ret tt else
    let user_id := author_id message in
    categories <- joined_categories result ;;
    let confidence := get_default "confidence" (JNum 0%Qc) result in
    let api_verdict := api_verdict_of result in
    (* Increment violation count *)
    prior <- get_violations guild_id user_id ;;
    let new_count := prior + 1 in
    set_violations guild_id user_id new_count ;;
    should_ban <- should_ban_of new_count confidence ;;
    pct <- format_percent confidence ;;
    emit (Moderation new_count pct (chosen_action should_ban)) ;;
    (* 1. Always delete the message *)
    attempt (platform_call DeleteMessage (delete_ok w)) ;;
    (* 2. Post warning as reply (in original channel) *)
    warn_embed api_verdict ;;
    attempt (platform_call (ChannelWarning (chosen_action should_ban))
               (send_ok w)) ;;
    (* 3. Post to log channel *)
    log_ch <- get_log_channel w ;;
    (if log_ch then
       ai_note api_verdict ;;
       attempt (platform_call (LogPost (chosen_action should_ban))
                  (log_send_ok w)) ;;
       ret tt
     else ret tt) ;;
    (* 4. Ban if threshold reached *)
    if should_ban then
      attempt (platform_call BanMember (ban_ok w)) ;; ret tt
    else ret tt
  end.

Definition is_image (ct name : string) : bool :=
  startswith ct "image/"
  || endswith_any name [".jpg"; ".jpeg"; ".png"; ".webp"; ".gif"].
Definition is_audio (ct name : string) : bool :=
  startswith ct "audio/"
  || endswith_any name [".ogg"; ".mp3"; ".wav"; ".m4a"; ".opus"].
Definition is_video (ct name : string) : bool :=
  startswith ct "video/"
  || endswith_any name [".mp4"; ".mov"; ".webm"; ".mkv"].

(** [message.content or None] *)
Definition caption_of (content : string) : option string :=
  if bool_decide (content = "") then None else Some content.

(** The [for attachment in message.attachments:] loop; [continue]
    goes on with the rest of the list, [break] ends the loop. *)
Fixpoint attachments_loop (w : world) (message : message) (prior : Z)
    (sender_display : string) (atts : list attachment) : M store unit :=
  match atts with
  | [] => ret tt
  | attachment :: rest =>
    let continue := attachments_loop w message prior sender_display rest in
    let name := lower (filename attachment) in
    let ct := lower (default "" (content_type attachment)) in
    match read attachment with
    | None => continue
    | Some file_bytes =>
      let check (result : json) (label : string) : M store unit :=
        verdict <- harmful_verdict result ;;
        match verdict with
        | Some d => apply_verdict w message d label   (* then [break] *)
        | None => continue
        end in
      if is_image ct name then
        result <- api_image file_bytes (filename attachment)
                    (caption_of (content message)) prior sender_display
                    (response attachment) ;;
        check result "Image"
      else if is_audio ct name then
        result <- api_audio file_bytes (filename attachment) prior
                    sender_display (response attachment) ;;
        check result "Audio"
      else if is_video ct name then
        if bool_decide (20 * 1024 * 1024 < size attachment) then continue
        else
          result <- api_video file_bytes (filename attachment)
                      (caption_of (content message)) prior sender_display
                      (response attachment) ;;
          check result "Video"
      else continue
    end
  end.

Definition on_message (w : world) (message : message) : M store unit :=
  match guild message with
  | None => ret tt
  | Some guild_id =>
    if author_bot message then ret tt else
    let sender_id := pretty (author_id message) in
    let sender_display := author_display_name message in
    prior <- get_violations guild_id (author_id message) ;;
    settings <- get_settings guild_id ;;
    verdict <-
      (if nonblank (content message) then
         result <- api_text (content message) sender_id sender_display
                     prior settings (text_response message) ;;
         harmful_verdict result
       else ret None) ;;
    match verdict with
    | Some d => apply_verdict w message d ""   (* then [return] *)
    | None =>
        attachments_loop w message prior sender_display (attachments message)
    end
  end.

(** [/reset] *)
Definition slash_reset (guild_id user_id : Z) : M store unit :=
  set_violations guild_id user_id 0.

(** [SettingsView.toggle_warn] and [toggle_ban] *)
Definition toggle_flag (guild_id : Z) (key : string) : M store unit :=
  s <- get_settings guild_id ;;
  v <- subscript key s ;;
  save_settings guild_id (<[key := JBool (negb (truthy v))]> s).
Definition toggle_warn (guild_id : Z) := toggle_flag guild_id "auto_warn".
Definition toggle_ban (guild_id : Z) := toggle_flag guild_id "auto_block".

(** [ConfidenceSelect], [MuteThreshSelect] and [BanThreshSelect]
    callbacks store the number chosen in the select. *)
Definition select_callback (guild_id : Z) (key : string) (value : Qc)
    : M store unit :=
  s <- get_settings guild_id ;;
  save_settings guild_id (<[key := JNum value]> s).

(** [CategorySelect.callback]: [s[self.key] = self.values] *)
Definition CategorySelect_callback (guild_id : Z) (key : string)
    (values : list string) : M store unit :=
  s <- get_settings guild_id ;;
  save_settings guild_id (<[key := JArr (JStr <$> values)]> s).

(** [/check].  [defer_ok] says whether [interaction.response.defer]
    succeeds.  The reply is the value returned; it is sent as the last
    step and nothing follows it. *)
Definition slash_check (defer_ok : bool) (guild_id : option Z) (text : string)
    (resp : http_outcome) : M store check_reply :=
  (if defer_ok then ret tt else raise PlatformError) ;;
  settings <- match guild_id with
              | Some g => if bool_decide (g = 0) then ret DEFAULT_SETTINGS
                          else get_settings g
              | None => ret DEFAULT_SETTINGS
              end ;;
  result <- api_text text "check_user" "checked text" 0 settings resp ;;
  match result with
  | JNull => ret ApiErrorNotice
  | JObj d =>
      let is_bad := get_default "is_bad" (JBool false) d in
      lift (join_check (get_default "category" (JArr []) d)) ;;
      let confidence := get_default "confidence" (JNum 0%Qc) d in
      let explanation := get_default "explanation" (JStr "") d in
      pct <- format_percent confidence ;;
      ai_note explanation ;;                 (* [explanation[:1000]] *)
      ret (CheckResult (truthy is_bad) pct)
  | _ => raise AttributeError
  end.

(** The status line of [/violations] (without its emoji). *)
Definition violation_status (count : Z) : string :=
  if bool_decide (count = BAN_VIOLATION_THRESHOLD - 1)
  then "One more triggers ban"
  else if bool_decide (BAN_VIOLATION_THRESHOLD ≤ count)
       then "Will be banned on next violation"
       else "Clean".

(** [/violations]: the count and the status shown. *)
Definition slash_violations (guild_id user_id : Z) : M store (Z * string) :=
  count <- get_violations guild_id user_id ;;
  ret (count, violation_status count).

End Discord.

(** ** The Telegram bot ([telegram/app/main.py]) *)

Module Telegram.

Definition DEFAULT_SETTINGS : dict :=
  {[ "min_confidence_for_action" := JNum float_0_55;
     "mute_minutes" := JNum (Qc_of_Z 60);
     "mute_threshold_violations" := JNum (Qc_of_Z 2);
     "block_threshold_violations" := JNum (Qc_of_Z 4);
     "auto_warn" := JBool true;
     "auto_mute" := JBool true;
     "auto_block" := JBool true;
     "instant_mute_categories" :=
       JArr [JStr "sexual"; JStr "verbal_abuse"; JStr "harassment";
             JStr "gasslighting"];
     "instant_block_categories" := JArr [JStr "threat"; JStr "stalking"];
     "apply_only_if_not_safe" := JBool true;
     "tag_sender_in_reply" := JBool true ]}.

(** The process state.  Besides the database it holds the module-level
    dictionary [DEFAULT_SETTINGS]: [get_settings] hands out its list
    values uncopied ([dict(...)] and [{**a, **b}] copy one level only),
    and the category toggle changes such a list in place. *)
Record state := State {
  db : store;
  default_settings : dict
}.

Definition init : state := State empty_store DEFAULT_SETTINGS.

Definition on_db (f : store → store) (st : state) : state :=
  State (f (db st)) (default_settings st).

Definition get_settings (chat_id : Z) : M state dict :=
  row <- gets (λ st, settings_rows (db st) !! chat_id) ;;
  defaults <- gets default_settings ;;
  ret match row with
      | Some stored => stored ∪ defaults
      | None => defaults
      end.

(** Whether [get_settings(chat_id)[key]] is the very object held by
    [DEFAULT_SETTINGS]: exactly when the stored row does not override
    the key. *)
Definition shares_default (chat_id : Z) (key : string) : M state bool :=
  row <- gets (λ st, settings_rows (db st) !! chat_id) ;;
  ret match row with
      | Some stored => bool_decide (stored !! key = None)
      | None => true
      end.

Definition save_settings (chat_id : Z) (settings : dict) : M state unit :=
  modify (on_db (Db.save_settings chat_id settings)).

Definition get_violations (chat_id user_id : Z) : M state Z :=
  gets (λ st, Db.get_violations chat_id user_id (db st)).

Definition set_violations (chat_id user_id count : Z) : M state unit :=
  modify (on_db (Db.set_violations chat_id user_id count)).

(** [esc(text)] calls [text.replace]: only strings have it. *)
Definition esc (text : json) : M state unit :=
  match text with
  | JStr _ => ret tt
  | _ => raise AttributeError
  end.

(** How Telegram answers the calls made while one update is handled. *)
Record world := World {
  reply_ok : bool;
  delete_ok : bool;
  ban_ok : bool;
  member_status : option string;  (* [None]: [get_chat_member] raises *)
  edit_ok : bool
}.

Record file := File {
  file_size : option Z;
  download : option string      (* [None]: [download_file] raises *)
}.

Record update := Update {
  has_message : bool;
  chat_type : string;
  chat_id : Z;
  from_user_id : Z;
  username : option string;
  first_name : string;
  text : option string;
  caption : option string;
  voice : option file;
  audio : option file;
  photo : list file;
  video : option file;
  animation : option file;
  response : http_outcome       (* the API's answer for this update *)
}.

(** [message.from_user.username or message.from_user.first_name] *)
Definition sender_display_of (u : update) : string :=
  match username u with
  | Some n => if bool_decide (n = "") then first_name u else n
  | None => first_name u
  end.

Definition in_group (u : update) : bool :=
  bool_decide (chat_type u = "group") || bool_decide (chat_type u = "supergroup").

Definition apply_verdict (w : world) (u : update) (result : dict)
    (chat_id sender_id : Z) (media_label : string) : M state unit :=
  categories <- joined_categories result ;;
  let confidence := get_default "confidence" (JNum 0%Qc) result in
  let api_verdict := api_verdict_of result in
  (* Read current violations BEFORE incrementing *)
  prior <- get_violations chat_id sender_id ;;
  let new_count := prior + 1 in
  set_violations chat_id sender_id new_count ;;
  (* Decide action purely on our own rules *)
  should_ban <- should_ban_of new_count confidence ;;
  (if should_ban then
     format_percent confidence ;; ret tt            (* [action_note] *)
   else
     if truthy api_verdict then esc api_verdict else ret tt) ;;
  pct <- format_percent confidence ;;
  emit (Moderation new_count pct (chosen_action should_ban)) ;;
  replied <- attempt (
    esc categories ;;
    platform_call (ChannelWarning (chosen_action should_ban)) (reply_ok w)) ;;
  if negb replied then ret tt                        (* [return] *)
  else if should_ban then
    attempt (platform_call DeleteMessage (delete_ok w)) ;;
    attempt (platform_call BanMember (ban_ok w)) ;;
    ret tt
  else ret tt.

Definition handle_text (w : world) (u : update) : M state unit :=
  if negb (has_message u) then ret tt else
  match text u with
  | None => ret tt
  | Some txt =>
    if bool_decide (txt = "") then ret tt else
    if negb (in_group u) then ret tt else
    let sender_id := from_user_id u in
    let sender_display := sender_display_of u in
    let chat_id := chat_id u in
    prior <- get_violations chat_id sender_id ;;
    settings <- get_settings chat_id ;;
    result <- api_text txt (pretty sender_id) sender_display prior settings
                (response u) ;;
    verdict <- harmful_verdict result ;;
    match verdict with
    | Some d => apply_verdict w u d chat_id sender_id ""
    | None => ret tt
    end
  end.

(** [message.voice or message.audio] and the like *)
Definition first_of {A} (a b : option A) : option A :=
  match a with Some x => Some x | None => b end.

Definition handle_voice (w : world) (u : update) : M state unit :=
  if negb (has_message u) then ret tt else
  if negb (in_group u) then ret tt else
  match first_of (voice u) (audio u) with
  | None => ret tt
  | Some v =>
    let sender_id := from_user_id u in
    let sender_display := sender_display_of u in
    let chat_id := chat_id u in
    prior <- get_violations chat_id sender_id ;;
    match download v with
    | None => ret tt
    | Some file_bytes =>
      result <- api_audio file_bytes "voice.ogg" prior sender_display
                  (response u) ;;
      verdict <- harmful_verdict result ;;
      match verdict with
      | Some d => apply_verdict w u d chat_id sender_id "Voice"
      | None => ret tt
      end
    end
  end.

Definition handle_photo (w : world) (u : update) : M state unit :=
  if negb (has_message u) then ret tt else
  if negb (in_group u) then ret tt else
  match last (photo u) with
  | None => ret tt
  | Some ph =>
    let sender_id := from_user_id u in
    let sender_display := sender_display_of u in
    let chat_id := chat_id u in
    prior <- get_violations chat_id sender_id ;;
    match download ph with
    | None => ret tt
    | Some file_bytes =>
      result <- api_image file_bytes "photo.jpg" (caption u) prior
                  sender_display (response u) ;;
      verdict <- harmful_verdict result ;;
      match verdict with
      | Some d => apply_verdict w u d chat_id sender_id "Photo"
      | None => ret tt
      end
    end
  end.

Definition handle_video (w : world) (u : update) : M state unit :=
  if negb (has_message u) then ret tt else
  if negb (in_group u) then ret tt else
  match first_of (video u) (animation u) with
  | None => ret tt
  | Some v =>
    let sender_id := from_user_id u in
    let sender_display := sender_display_of u in
    let chat_id := chat_id u in
    prior <- get_violations chat_id sender_id ;;
    (* Telegram bot download limit is 20MB *)
    if bool_decide (20 * 1024 * 1024 < default 0 (file_size v)) then ret tt else
    match download v with
    | None => ret tt
    | Some file_bytes =>
      let label := match animation u with Some _ => "GIF" | None => "Video" end in
      result <- api_video file_bytes "video.mp4" (caption u) prior
                  sender_display (response u) ;;
      verdict <- harmful_verdict result ;;
      match verdict with
      | Some d => apply_verdict w u d chat_id sender_id label
      | None => ret tt
      end
    end
  end.

(** *** The settings panel *)

(** [x in cats], [cats.remove(x)] and [cats.append(x)] for a string
    [x]: an element equals [x] only if it is that string; [remove]
    drops the first such element. *)
Definition contains (x : string) (cats : list json) : bool :=
  existsb (λ v, eq_str v x) cats.

Fixpoint remove_first (x : string) (cats : list json) : list json :=
  match cats with
  | [] => []
  | v :: rest => if eq_str v x then rest else v :: remove_first x rest
  end.

Definition append (x : string) (cats : list json) : list json :=
  (cats ++ [JStr x])%list.

(** [a, b = param.split(":", 1)]; [None] when there is no colon and the
    unpacking raises. *)
Fixpoint split_colon (s : string) : option (string * string) :=
  match s with
  | EmptyString => None
  | String c s' =>
      if bool_decide (String c "" = ":") then Some (EmptyString, s')
      else match split_colon s' with
           | Some (a, b) => Some (String c a, b)
           | None => None
           end
  end.

(** [max(lo, min(hi, val))] *)
Definition clamp (lo hi val : Qc) : Qc :=
  let m := if bool_decide (val < hi)%Qc then val else hi in
  if bool_decide (lo < m)%Qc then m else lo.

Definition is_admin_status (status : string) : bool :=
  bool_decide (status = "administrator") || bool_decide (status = "creator").

Definition set_default (key : string) (v : json) (st : state) : state :=
  State (db st) (<[key := v]> (default_settings st)).

Section SettingsCallback.

(** [round(x + d, 2)] on Python floats; the rounding of binary
    floating point is left abstract. *)
Variable round2_add : Qc → Qc → Qc.

(** [s[key] = max(lo, min(hi, s[key] + delta))] *)
Definition step_number (key : string) (delta lo hi : Qc) (s : dict)
    : M state dict :=
  v <- subscript key s ;;
  match num_of v with
  | Some q => ret (<[key := JNum (clamp lo hi (q + delta)%Qc)]> s)
  | None => raise TypeError
  end.

Definition signed (param : string) (d : Z) : Qc :=
  Qc_of_Z (if bool_decide (param = "+") then d else - d).

(** The category toggle.  [cats = s[key]] is a list object that is
    changed in place; when it is the one held by [DEFAULT_SETTINGS] the
    change is seen there too. *)
Definition cattoggle (w : world) (chat_id : Z) (param : string) (s : dict)
    : M state unit :=
  match split_colon param with
  | None => raise ValueError
  | Some (cat_type, cat_name) =>
    let key := if bool_decide (cat_type = "mute")
               then "instant_mute_categories"
               else "instant_block_categories" in
    cats <- subscript key s ;;
    shared <- shares_default chat_id key ;;
    match cats with
    | JArr l =>
        let l' := if contains cat_name l then remove_first cat_name l
                  else append cat_name l in
        (if shared then modify (set_default key (JArr l')) else ret tt) ;;
        save_settings chat_id (<[key := JArr l']> s) ;;
        platform_call UpdateMenu (edit_ok w)
    | JStr _ | JObj _ => raise AttributeError
    | _ => raise TypeError
    end
  end.

(** [settings_callback] from the point where the callback data
    [stg|<chat_id>|<action>|<param>] has been split. *)
Definition settings_callback (w : world) (chat_id : Z) (action param : string)
    : M state unit :=
  match member_status w with
  | None => ret tt
  | Some status =>
    if negb (is_admin_status status) then ret tt else
    s <- get_settings chat_id ;;
    if bool_decide (action = "close") then
      platform_call UpdateMenu (edit_ok w)
    else if bool_decide (action = "back") then
      platform_call UpdateMenu (edit_ok w)
    else if bool_decide (action = "cats") then
      save_settings chat_id s ;;
      platform_call UpdateMenu (edit_ok w)
    else if bool_decide (action = "cattoggle") then
      cattoggle w chat_id param s
    else
      s' <- (if bool_decide (action = "toggle") then
               v <- subscript param s ;;
               ret (<[param := JBool (negb (truthy v))]> s)
             else if bool_decide (action = "conf") then
               v <- subscript "min_confidence_for_action" s ;;
               match num_of v with
               | Some q =>
                   let val := round2_add q
                     (if bool_decide (param = "+") then Q2Qc (5 # 100)
                      else Q2Qc (-5 # 100)) in
                   ret (<["min_confidence_for_action" :=
                            JNum (clamp 0%Qc 1%Qc val)]> s)
               | None => raise TypeError
               end
             else if bool_decide (action = "mute") then
               step_number "mute_minutes" (signed param 15)
                 (Qc_of_Z 1) (Qc_of_Z 10080) s
             else if bool_decide (action = "muteth") then
               step_number "mute_threshold_violations" (signed param 1)
                 (Qc_of_Z 1) (Qc_of_Z 100) s
             else if bool_decide (action = "banth") then
               step_number "block_threshold_violations" (signed param 1)
                 (Qc_of_Z 1) (Qc_of_Z 100) s
             else ret s) ;;
      save_settings chat_id s' ;;
      platform_call UpdateMenu (edit_ok w)
  end.

End SettingsCallback.

(** The characters [esc] puts a backslash in front of, in the order of
    its loop. *)
Definition ESC_CHARS : string := "\_*[]()~`>#+-=|{}.!".

(** [esc(text)] on a string: one [replace] per character of the loop. *)
Definition esc_str (text : string) : string :=
  fold_left (λ t ch, backslash_char ch t) (Stdlib.Strings.String.list_ascii_of_string ESC_CHARS) text.

(** [/check <text>] ([args] are the words after the command).
    [analyzing_ok] says whether the reply "Analyzing..." can be sent.  The
    final reply is the value returned; it is sent as the last step and
    nothing follows it. *)
Definition cmd_check (analyzing_ok : bool) (u : update) (args : list string)
    (resp : http_outcome) : M state check_reply :=
  if negb (has_message u) then raise AttributeError else
  let text_to_check :=
    match args with [] => "" | _ => strip (join_with " " args) end in
  if bool_decide (text_to_check = "") then ret UsageNotice else
  settings <- (if in_group u then get_settings (chat_id u)
               else gets default_settings) ;;
  (if analyzing_ok then ret tt else raise PlatformError) ;;
  result <- api_text text_to_check "check_user" "checked text" 0 settings
              resp ;;
  match result with
  | JNull => ret ApiErrorNotice
  | JObj d =>
      is_bad <- subscript "is_bad" d ;;
      lift (join_check (get_default "category" (JArr []) d)) ;;
      let confidence := get_default "confidence" (JNum 0%Qc) d in
      let action := get_default "action" (JStr "none") d in
      let explanation := get_default "explanation" (JStr "") d in
      pct <- format_percent confidence ;;
      esc action ;;
      esc explanation ;;
      ret (CheckResult (truthy is_bad) pct)
  | _ => raise TypeError
  end.

(** *** Menus and callback data *)

(** An inline button: the check mark it shows, if it shows one, and its
    callback data. *)
Record button := Button {
  checked : option bool;
  callback_data : string
}.

(** [f"stg|{chat_id}|{action}|{param}"] *)
Definition stg (chat_id : Z) (action param : string) : string :=
  "stg|" +:+ pretty chat_id +:+ "|" +:+ action +:+ "|" +:+ param.

(** [settings_menu]: the keyboard, row by row.  Building the text reads
    the listed keys and joins the two category lists, which can raise. *)
Definition settings_menu (chat_id : Z) : M state (list (list button)) :=
  s <- get_settings chat_id ;;
  aw <- subscript "auto_warn" s ;;
  am <- subscript "auto_mute" s ;;
  ab <- subscript "auto_block" s ;;
  imute <- subscript "instant_mute_categories" s ;;
  lift (join_check imute) ;;
  iblock <- subscript "instant_block_categories" s ;;
  lift (join_check iblock) ;;
  subscript "min_confidence_for_action" s ;;
  subscript "mute_minutes" s ;;
  subscript "mute_threshold_violations" s ;;
  subscript "block_threshold_violations" s ;;
  ret [ [ Button (Some (truthy aw)) (stg chat_id "toggle" "auto_warn");
          Button (Some (truthy am)) (stg chat_id "toggle" "auto_mute");
          Button (Some (truthy ab)) (stg chat_id "toggle" "auto_block") ];
        [ Button None (stg chat_id "conf" "-");
          Button None "noop";
          Button None (stg chat_id "conf" "+") ];
        [ Button None (stg chat_id "mute" "-");
          Button None "noop";
          Button None (stg chat_id "mute" "+") ];
        [ Button None (stg chat_id "muteth" "-");
          Button None "noop";
          Button None (stg chat_id "muteth" "+") ];
        [ Button None (stg chat_id "banth" "-");
          Button None "noop";
          Button None (stg chat_id "banth" "+") ];
        [ Button None (stg chat_id "cats" "mute");
          Button None (stg chat_id "cats" "block") ];
        [ Button None (stg chat_id "close" "") ] ].

(** The rows of [category_menu] for the categories of a list: one
    button per category, checked when the category is [in current]. *)
Fixpoint category_rows (chat_id : Z) (cat_type : string) (current : json)
    (cats : list string) : M state (list (list button)) :=
  match cats with
  | [] => ret []
  | c :: rest =>
      mark <- lift (py_in c current) ;;
      rows <- category_rows chat_id cat_type current rest ;;
      ret ([Button (Some mark) (stg chat_id "cattoggle" (cat_type +:+ ":" +:+ c))]
           :: rows)
  end.

Definition category_menu (chat_id : Z) (cat_type : string)
    : M state (list (list button)) :=
  s <- get_settings chat_id ;;
  let key := if bool_decide (cat_type = "mute")
             then "instant_mute_categories"
             else "instant_block_categories" in
  current <- subscript key s ;;
  rows <- category_rows chat_id cat_type current ALL_CATEGORIES ;;
  ret (rows ++ [[Button None (stg chat_id "back" "")]])%list.

(** Where [settings_callback] goes with the data of a callback query, up
    to the unpacking of [data.split("|", 3)]. *)
Inductive route :=
| RouteNoop
| RouteHowItWorks
| RouteIgnored
| RouteSettings (chat_id_str action param : string).

Definition route_callback (data : string) : pyexn + route :=
  if bool_decide (data = "noop") then inr RouteNoop
  else if bool_decide (data = "how_it_works") then inr RouteHowItWorks
  else if negb (startswith data "stg|") then inr RouteIgnored
  else match split_max 3 (Ascii.ascii_of_N 124) data with
       | [_; chat_id_str; action; param] =>
           inr (RouteSettings chat_id_str action param)
       | _ => inl ValueError
       end.

End Telegram.

(** ** Specification-side definitions *)

Definition is_str (v : json) : bool :=
  match v with JStr _ => true | _ => false end.

(** [", ".join] is not called on the [category] field, or all elements
    of the list are strings. *)
Definition categories_joinable (result : dict) : bool :=
  match get_default "category" (JArr []) result with
  | JArr l => forallb is_str l
  | _ => true
  end.

(** The [category] field is absent, a string, or a list of strings. *)
Definition categories_ok (result : dict) : bool :=
  match get_default "category" (JArr []) result with
  | JArr l => forallb is_str l
  | v => is_str v
  end.

(** A verdict with the field types of the API: categories as above, a
    numeric [confidence] (or none), a textual note (or none). *)
Definition well_typed_verdict (result : dict) : bool :=
  categories_ok result
  && bool_decide (is_Some (num_of (get_default "confidence" (JNum 0%Qc) result)))
  && (negb (truthy (api_verdict_of result)) || is_str (api_verdict_of result)).

(** The confidence of a verdict as a number (0 when it is not one). *)
Definition confidence_of (result : dict) : Qc :=
  default 0%Qc (num_of (get_default "confidence" (JNum 0%Qc) result)).

(** The fixed ban rule. *)
Definition ban_rule (new_count : Z) (confidence : Qc) : bool :=
  bool_decide (BAN_VIOLATION_THRESHOLD ≤ new_count)
  && Qc_geb confidence BAN_CONFIDENCE_THRESHOLD.

(** The read-increment-write of both [apply_verdict] functions, as one
    database transformation. *)
Definition record_violation (scope_id user_id : Z) (db : store) : store :=
  Db.set_violations scope_id user_id
    (Db.get_violations scope_id user_id db + 1) db.

(** The value [api_text] returns for an HTTP outcome. *)
Definition normalize (resp : http_outcome) : json :=
  match resp with
  | Decoded _ (JObj m) =>
      match m !! "results" with
      | Some results => match index0 results with inr v => v | inl _ => JNull end
      | None => JObj m
      end
  | Decoded _ data => data
  | _ => JNull
  end.

(** The value the media callers return. *)
Definition decoded (resp : http_outcome) : json :=
  match resp with
  | Decoded _ data => data
  | _ => JNull
  end.

(** The verdict that passes the handlers' guard, if any. *)
Definition verdict_in (result : json) : option dict :=
  match result with
  | JObj d => if truthy result && is_bad_result d then Some d else None
  | _ => None
  end.

(** Number of [[MODERATION]] lines in a trace: the harmful detections
    that were acted upon. *)
Definition detections (t : list effect) : nat :=
  length (List.filter (λ e, match e with Moderation _ _ _ => true | _ => false end) t).

Definition deletions (t : list effect) : nat :=
  length (List.filter (λ e, match e with DeleteMessage _ => true | _ => false end) t).

Definition bans (t : list effect) : nat :=
  length (List.filter (λ e, match e with BanMember _ => true | _ => false end) t).

Definition warnings (t : list effect) : nat :=
  length (List.filter (λ e, match e with ChannelWarning _ _ => true | _ => false end) t).

(** Handling a list of events one after the other.  An exception that
    leaves a handler is reported by the library and the bot goes on with
    the next event. *)
Fixpoint handle_all {S E} (handler : E → M S unit) (events : list E) (s : S)
    : S * list effect :=
  match events with
  | [] => (s, [])
  | e :: rest =>
      let r := handler e s in
      let r' := handle_all handler rest (state_of r) in
      (r'.1, (trace_of r ++ r'.2)%list)
  end.

(** ** Handlers in flight at the same time

    Both bots run on one event loop: a handler runs without interruption
    from one [await] to the next.  In [apply_verdict] the statements from
    [get_violations] to [set_violations] contain no [await]. *)

Module EventLoop.

(** A handler of a harmful message of one (scope, user) pair, as the loop
    sees it: suspended in the classification call, or suspended in one of
    the enforcement calls with [pending] more to follow, or finished. *)
Inductive task :=
| Classifying
| Enforcing (pending : nat)
| Finished.

(** Resuming a task runs it to its next [await].  The first resumption
    after the classification call runs [apply_verdict] up to its first
    platform call, which includes the whole read-increment-write; the
    later ones (their number does not matter here) only talk to the
    platform. *)
Definition resume (scope_id user_id : Z) (t : task) (db : store) : task * store :=
  match t with
  | Classifying => (Enforcing 3, record_violation scope_id user_id db)
  | Enforcing (S n) => (Enforcing n, db)
  | Enforcing O => (Finished, db)
  | Finished => (Finished, db)
  end.

(** The loop resumes the tasks in the order of the schedule (task
    numbers; a number out of range resumes nothing). *)
Fixpoint run (scope_id user_id : Z) (schedule : list nat)
    (tasks : list task) (db : store) : list task * store :=
  match schedule with
  | [] => (tasks, db)
  | i :: schedule' =>
      match tasks !! i with
      | Some t =>
          let '(t', db') := resume scope_id user_id t db in
          run scope_id user_id schedule' (<[i := t']> tasks) db'
      | None => run scope_id user_id schedule' tasks db
      end
  end.

Definition recorded (t : task) : bool :=
  match t with Classifying => false | _ => true end.

End EventLoop.

(** The same read-increment-write sequences interleaved statement by
    statement, as they would be if the read and the write could be
    separated. *)
Module Statements.

Inductive task :=
| Start
| HasRead (prior : Z)
| Written.

Definition step (scope_id user_id : Z) (t : task) (db : store) : task * store :=
  match t with
  | Start => (HasRead (Db.get_violations scope_id user_id db), db)
  | HasRead prior => (Written, Db.set_violations scope_id user_id (prior + 1) db)
  | Written => (Written, db)
  end.

Fixpoint run (scope_id user_id : Z) (schedule : list nat)
    (tasks : list task) (db : store) : list task * store :=
  match schedule with
  | [] => (tasks, db)
  | i :: schedule' =>
      match tasks !! i with
      | Some t =>
          let '(t', db') := step scope_id user_id t db in
          run scope_id user_id schedule' (<[i := t']> tasks) db'
      | None => run scope_id user_id schedule' tasks db
      end
  end.

End Statements.

(** The enforcement trace of [Discord.apply_verdict] for a verdict with
    well-typed fields. *)
Definition Discord_trace (w : Discord.world) (n : Z) (c : Qc) : list effect :=
  let act := chosen_action (ban_rule n c) in
  Moderation n c act
  :: DeleteMessage (Discord.delete_ok w)
  :: ChannelWarning act (Discord.send_ok w)
  :: ((if Discord.log_channel_exists w
       then [LogPost act (Discord.log_send_ok w)]
       else if Discord.create_channel_ok w
            then [CreateLogChannel true; LogPost act (Discord.log_send_ok w)]
            else [CreateLogChannel false])
      ++ (if ban_rule n c then [BanMember (Discord.ban_ok w)] else []))%list.

(** The same for [Telegram.apply_verdict]. *)
Definition Telegram_trace (w : Telegram.world) (n : Z) (c : Qc) : list effect :=
  let act := chosen_action (ban_rule n c) in
  Moderation n c act
  :: ChannelWarning act (Telegram.reply_ok w)
  :: (if Telegram.reply_ok w && ban_rule n c
      then [DeleteMessage (Telegram.delete_ok w); BanMember (Telegram.ban_ok w)]
      else []).

(** Requests to the classification API. *)
Definition is_api (e : effect) : bool :=
  match e with ApiPost _ _ | ApiUpload _ _ _ _ => true | _ => false end.

(** A computation that neither changes the state nor has effects. *)
Definition silent {S A} (m : M S A) : Prop := ∀ s, ∃ r, m s = (r, s, []).

(** What [Telegram.handle_text] finds in an update: the harmful verdict
    it will act upon, if any. *)
Definition Telegram_detection (u : Telegram.update) : option dict :=
  if Telegram.has_message u && Telegram.in_group u then
    match Telegram.text u with
    | Some txt =>
        if bool_decide (txt = "") then None
        else verdict_in (normalize (Telegram.response u))
    | None => None
    end
  else None.

(** What [Discord.on_message] finds in a message: the first harmful
    verdict with its media label, nothing, or a result that is neither
    empty nor a dictionary (on which the handler's guard raises). *)
Inductive scan :=
| Found (d : dict) (label : string)
| NotFound
| Aborted.

Definition scan_result (result : json) (label : string) (continue : scan) : scan :=
  if truthy result then
    match result with
    | JObj d => if is_bad_result d then Found d label else continue
    | _ => Aborted
    end
  else continue.

Fixpoint scan_attachments (atts : list Discord.attachment) : scan :=
  match atts with
  | [] => NotFound
  | a :: rest =>
    let name := lower (Discord.filename a) in
    let ct := lower (default "" (Discord.content_type a)) in
    match Discord.read a with
    | None => scan_attachments rest
    | Some _ =>
      if Discord.is_image ct name then
        scan_result (decoded (Discord.response a)) "Image" (scan_attachments rest)
      else if Discord.is_audio ct name then
        scan_result (decoded (Discord.response a)) "Audio" (scan_attachments rest)
      else if Discord.is_video ct name then
        if bool_decide (20 * 1024 * 1024 < Discord.size a)
        then scan_attachments rest
        else scan_result (decoded (Discord.response a)) "Video"
               (scan_attachments rest)
      else scan_attachments rest
    end
  end.

Definition Discord_detection (m : Discord.message) : scan :=
  match Discord.guild m with
  | None => NotFound
  | Some _ =>
    if Discord.author_bot m then NotFound
    else if nonblank (Discord.content m) then
      scan_result (normalize (Discord.text_response m)) ""
        (scan_attachments (Discord.attachments m))
    else scan_attachments (Discord.attachments m)
  end.

Definition found (s : scan) : bool :=
  match s with Found _ _ => true | _ => false end.

(** A run of a Discord handler [c] agrees with a scan: it makes API
    requests only and then, if a verdict was found, continues exactly as
    [apply_verdict] on that verdict. *)
Definition follows_scan (w : Discord.world) (m : Discord.message) (db : store)
    (sc : scan) (c : M store unit) : Prop :=
  match sc with
  | Found d label =>
      ∃ t0, forallb is_api t0 = true
            ∧ c db = (result_of (Discord.apply_verdict w m d label db),
                      state_of (Discord.apply_verdict w m d label db),
                      (t0 ++ trace_of (Discord.apply_verdict w m d label db))%list)
  | NotFound => ∃ t0, c db = (inr tt, db, t0) ∧ forallb is_api t0 = true
  | Aborted =>
      ∃ t0, c db = (inl AttributeError, db, t0) ∧ forallb is_api t0 = true
  end.

(** Events as the bots receive them, with the answers of the platform. *)
Definition Telegram_text_event (e : Telegram.world * Telegram.update)
    : M Telegram.state unit :=
  Telegram.handle_text e.1 e.2.

Definition Discord_message_event (e : Discord.world * Discord.message)
    : M store unit :=
  Discord.on_message e.1 e.2.

(** The harmful detections for one (scope, user) pair among a list of
    events. *)
Definition Telegram_hits (chat_id user_id : Z)
    (events : list (Telegram.world * Telegram.update)) : nat :=
  length (List.filter
    (λ e, bool_decide (Telegram.chat_id e.2 = chat_id)
          && bool_decide (Telegram.from_user_id e.2 = user_id)
          && bool_decide (is_Some (Telegram_detection e.2))) events).

Definition Discord_hits (guild_id user_id : Z)
    (events : list (Discord.world * Discord.message)) : nat :=
  length (List.filter
    (λ e, bool_decide (Discord.guild e.2 = Some guild_id)
          && bool_decide (Discord.author_id e.2 = user_id)
          && found (Discord_detection e.2)) events).

(** The verdict found in an event, if any, can be counted: its
    categories can be joined (and on Discord the author is a member). *)
Definition Telegram_countable (e : Telegram.world * Telegram.update) : bool :=
  match Telegram_detection e.2 with
  | Some d => categories_joinable d
  | None => true
  end.

Definition Discord_countable (e : Discord.world * Discord.message) : bool :=
  match Discord_detection e.2 with
  | Found d _ => Discord.author_is_member e.2 && categories_joinable d
  | _ => true
  end.

(** Handlers on the event loop that are past their read-increment-write. *)
Definition recorded_count (tasks : list EventLoop.task) : nat :=
  length (List.filter EventLoop.recorded tasks).

(** An HTTP exchange that gives no decoded body. *)
Definition failed (resp : http_outcome) : bool :=
  match resp with Decoded _ _ => false | _ => true end.

(** The stored overrides of a scope (none when it has no row). *)
Definition overrides (scope_id : Z) (db : store) : dict :=
  default ∅ (settings_rows db !! scope_id).

(** The list the Telegram category toggle leaves for tag [x]. *)
Definition toggled (x : string) (cats : list json) : list json :=
  if Telegram.contains x cats then Telegram.remove_first x cats
  else Telegram.append x cats.

(** The key a toggle parameter addresses. *)
Definition category_key (cat_type : string) : string :=
  if bool_decide (cat_type = "mute") then "instant_mute_categories"
  else "instant_block_categories".

(** The value of a settings key as [get_settings] returns it. *)
Definition Telegram_setting (chat_id : Z) (key : string) (st : Telegram.state)
    : option json :=
  match result_of (Telegram.get_settings chat_id st) with
  | inr s => s !! key
  | inl _ => None
  end.

Definition Discord_setting (guild_id : Z) (key : string) (db : store)
    : option json :=
  match result_of (Discord.get_settings guild_id db) with
  | inr s => s !! key
  | inl _ => None
  end.

(** ** Definitions for the further properties *)

(** A character [esc] escapes. *)
Definition is_esc_char (c : Ascii.ascii) : bool :=
  existsb (λ ch, bool_decide (c = ch))
    (Stdlib.Strings.String.list_ascii_of_string Telegram.ESC_CHARS).

(** Escaping in one pass over the text: a backslash in front of every
    character that [esc] escapes. *)
Fixpoint escape_each (s : string) : string :=
  match s with
  | EmptyString => EmptyString
  | String c s' =>
      if is_esc_char c
      then String (Ascii.ascii_of_N 92) (String c (escape_each s'))
      else String c (escape_each s')
  end.

Fixpoint count_esc_chars (s : string) : nat :=
  match s with
  | EmptyString => 0
  | String c s' => ((if is_esc_char c then 1 else 0) + count_esc_chars s')%nat
  end.

(** The four message handlers of the Telegram bot. *)
Inductive telegram_handler := OnText | OnVoice | OnPhoto | OnVideo.

Definition run_handler (h : telegram_handler)
    : Telegram.world → Telegram.update → M Telegram.state unit :=
  match h with
  | OnText => Telegram.handle_text
  | OnVoice => Telegram.handle_voice
  | OnPhoto => Telegram.handle_photo
  | OnVideo => Telegram.handle_video
  end.

Definition Telegram_event
    (e : telegram_handler * Telegram.world * Telegram.update)
    : M Telegram.state unit :=
  run_handler e.1.1 e.1.2 e.2.

(** More counters of effects. *)
Definition api_requests (t : list effect) : nat :=
  length (List.filter is_api t).

Definition log_posts (t : list effect) : nat :=
  length (List.filter (λ e, match e with LogPost _ _ => true | _ => false end) t).

Definition channel_creations (t : list effect) : nat :=
  length (List.filter
    (λ e, match e with CreateLogChannel _ => true | _ => false end) t).

Definition menu_updates (t : list effect) : nat :=
  length (List.filter (λ e, match e with UpdateMenu _ => true | _ => false end) t).

(** The kind of a Discord attachment as [on_message] decides it, with
    the endpoint and the content type of its upload; [None] for a file
    that is not uploaded (unknown kind, or a video above 20 MiB). *)
Definition upload_target (a : Discord.attachment) : option (string * string) :=
  let name := lower (Discord.filename a) in
  let ct := lower (default "" (Discord.content_type a)) in
  if Discord.is_image ct name then Some ("/analyze/image", "image/jpeg")
  else if Discord.is_audio ct name then Some ("/analyze/audio", "audio/ogg")
  else if Discord.is_video ct name then
    if bool_decide (20 * 1024 * 1024 < Discord.size a) then None
    else Some ("/analyze/video", "video/mp4")
  else None.

(** An attachment [on_message] uploads when it comes to it: it can be
    read and has an upload target. *)
Definition uploadable (a : Discord.attachment) : bool :=
  bool_decide (is_Some (Discord.read a))
  && bool_decide (is_Some (upload_target a)).

(** The upload request [e] is the one of attachment [a]. *)
Definition upload_of (a : Discord.attachment) (e : effect) : Prop :=
  is_Some (Discord.read a)
  ∧ ∃ endpoint ctype fields,
      upload_target a = Some (endpoint, ctype)
      ∧ e = ApiUpload endpoint fields (Discord.filename a) ctype.

(** A caller with the rights [settings_callback] asks for. *)
Definition is_admin (w : Telegram.world) : bool :=
  match Telegram.member_status w with
  | Some status => Telegram.is_admin_status status
  | None => false
  end.

(** The numeric setting an action of the settings panel steps, with the
    bounds the code clamps it to. *)
Definition numeric_setting (action : string) : option (string * Qc * Qc) :=
  if bool_decide (action = "conf")
  then Some ("min_confidence_for_action", 0%Qc, 1%Qc)
  else if bool_decide (action = "mute")
  then Some ("mute_minutes", Qc_of_Z 1, Qc_of_Z 10080)
  else if bool_decide (action = "muteth")
  then Some ("mute_threshold_violations", Qc_of_Z 1, Qc_of_Z 100)
  else if bool_decide (action = "banth")
  then Some ("block_threshold_violations", Qc_of_Z 1, Qc_of_Z 100)
  else None.

(** The width of a step of the three integer settings. *)
Definition step_of (action : string) : Z :=
  if bool_decide (action = "mute") then 15 else 1.

(** The value a step computes before it is clamped. *)
Definition stepped (round2_add : Qc → Qc → Qc) (action param : string) (q : Qc)
    : Qc :=
  if bool_decide (action = "conf")
  then round2_add q (if bool_decide (param = "+") then Q2Qc (5 # 100)
                     else Q2Qc (-5 # 100))
  else (q + Telegram.signed param (step_of action))%Qc.

(** The stored row of a chat overrides every key of the defaults. *)
Definition row_complete (chat_id : Z) (st : Telegram.state) : bool :=
  bool_decide (dom (Telegram.default_settings st)
               ⊆ dom (overrides chat_id (Telegram.db st))).

(** The check mark of a category button: [c in current]. *)
Definition mark_of (c : string) (current : json) : bool :=
  match py_in c current with inr b => b | inl _ => false end.

(** The actions behind the buttons of the main settings menu. *)
Definition menu_actions : list string :=
  ["toggle"; "conf"; "mute"; "muteth"; "banth"; "cats"; "close"].

(** The traces a run of [Telegram.apply_verdict] can leave: nothing, the
    moderation line alone, the line and the reply, or the line, a
    delivered ban notice, the deletion and the ban. *)
Definition Telegram_enforcement_shape (t : list effect) : bool :=
  match t with
  | [] => true
  | [Moderation _ _ _] => true
  | [Moderation _ _ _; ChannelWarning _ _] => true
  | [Moderation _ _ ban; ChannelWarning ban true; DeleteMessage _; BanMember _] =>
      true
  | _ => false
  end.

(** No character of the string is [c]. *)
Fixpoint free_of (c : Ascii.ascii) (s : string) : bool :=
  match s with
  | EmptyString => true
  | String c' s' => negb (bool_decide (c' = c)) && free_of c s'
  end.

(** ** Sample inputs *)

Module Sample.

(** A harmful verdict with the given confidence. *)
Definition verdict (confidence : Qc) : dict :=
  {[ "is_bad" := JBool true;
     "category" := JArr [JStr "threat"];
     "confidence" := JNum confidence;
     "explanation" := JStr "threatening language" ]}.

Definition float_0_90 : Qc := Q2Qc (8106479329266893 # 9007199254740992).

(** Guild / chat 10, user 7. *)
Definition message : Discord.message :=
  Discord.Message (Some 10) 7 false true "mallory" "you will regret this" []
    (Decoded 200 (JObj {[ "results" := JArr [JObj (verdict float_0_90)] ]})).

Definition update : Telegram.update :=
  Telegram.Update true "group" 10 7 (Some "mallory") "Mallory"
    (Some "you will regret this") None None None [] None None
    (Decoded 200 (JObj {[ "results" := JArr [JObj (verdict float_0_90)] ]})).

(** The same sender with a message the API finds safe, and one for
    which the API call times out. *)
Definition safe_update : Telegram.update :=
  Telegram.Update true "group" 10 7 (Some "mallory") "Mallory"
    (Some "good morning") None None None [] None None
    (Decoded 200 (JObj {[ "results" :=
       JArr [JObj {[ "is_bad" := JBool false; "status" := JStr "safe" ]}] ]})).

Definition unclassified_update : Telegram.update :=
  Telegram.Update true "group" 10 7 (Some "mallory") "Mallory"
    (Some "hello") None None None [] None None Timeout.

(** A Discord message whose text and both attachments are harmful. *)
Definition harmful_file (name : string) (ctype : option string)
    : Discord.attachment :=
  Discord.Attachment name ctype 1024 (Some "bytes")
    (Decoded 200 (JObj (verdict float_0_90))).

Definition multipart_message : Discord.message :=
  Discord.Message (Some 10) 7 false true "mallory" "you will regret this"
    [harmful_file "a.PNG" None; harmful_file "clip" (Some "video/mp4")]
    (Decoded 200 (JObj {[ "results" := JArr [JObj (verdict float_0_90)] ]})).

(** The same with a text the API finds safe. *)
Definition attachments_message : Discord.message :=
  Discord.Message (Some 10) 7 false true "mallory" "look at this"
    [harmful_file "a.PNG" None; harmful_file "clip" (Some "video/mp4")]
    (Decoded 200 (JObj {[ "results" :=
       JArr [JObj {[ "is_bad" := JBool false ]}] ]})).

(** A private chat with the bot. *)
Definition private_update : Telegram.update :=
  Telegram.Update true "private" 7 7 (Some "mallory") "Mallory"
    (Some "you will regret this") None None None [] None None
    (Decoded 200 (JObj {[ "results" := JArr [JObj (verdict float_0_90)] ]})).

(** A direct message to the Discord bot. *)
Definition direct_message : Discord.message :=
  Discord.Message None 7 false false "mallory" "you will regret this" []
    (Decoded 200 (JObj {[ "results" := JArr [JObj (verdict float_0_90)] ]})).

(** A video of 30 MB posted in a group. *)
Definition oversized_video_update : Telegram.update :=
  Telegram.Update true "supergroup" 10 7 (Some "mallory") "Mallory"
    None None None None []
    (Some (Telegram.File (Some 30000000) (Some "bytes"))) None
    (Decoded 200 (JObj (verdict float_0_90))).

(** A member of the chat who is not an administrator. *)
Definition telegram_member : Telegram.world :=
  Telegram.World true true true (Some "member") true.

(** Every platform call succeeds. *)
Definition discord_ok : Discord.world :=
  Discord.World true true true true true true.
Definition telegram_ok : Telegram.world :=
  Telegram.World true true true (Some "administrator") true.

(** Every platform call before the ban fails. *)
Definition discord_failing : Discord.world :=
  Discord.World false false true true false true.
Definition telegram_reply_fails : Telegram.world :=
  Telegram.World false true true (Some "administrator") true.

(** One earlier violation of user 7 in scope 10. *)
Definition one_violation : store := Db.set_violations 10 7 1 empty_store.
Definition telegram_one_violation : Telegram.state :=
  Telegram.State one_violation Telegram.DEFAULT_SETTINGS.

End Sample.

(** * Properties *)

Ltac solve_prefix :=
  simpl; repeat split; try done;
  repeat apply prefix_cons; first [apply prefix_nil | reflexivity].

(** ** Running the monad *)

Lemma attempt_call {S} (e : bool → effect) (ok : bool) (s : S) :
  attempt (platform_call e ok) s = (inr ok, s, [e ok]).
Proof. unfold attempt, platform_call. by destruct ok. Qed.

Lemma silent_ret {S A} (a : A) : silent (S:=S) (ret a).
Proof. intros s. by eexists. Qed.

Lemma silent_raise {S A} (e : pyexn) : silent (S:=S) (A:=A) (raise e).
Proof. intros s. by eexists. Qed.

Lemma silent_lift {S A} (r : pyexn + A) : silent (S:=S) (lift r).
Proof. intros s. destruct r; by eexists. Qed.

Lemma silent_bind {S A B} (m : M S A) (f : A → M S B) :
  silent m → (∀ a, silent (f a)) → silent (bind m f).
Proof.
  intros Hm Hf s. unfold bind. destruct (Hm s) as [[e|a] ->]; [by eexists|].
  destruct (Hf a s) as [r ->]. by eexists.
Qed.

Lemma silent_joined_categories {S} result : silent (S:=S) (joined_categories result).
Proof.
  unfold joined_categories.
  destruct (get_default _ _ result); try apply silent_ret.
  apply silent_bind; [apply silent_lift | intros; apply silent_ret].
Qed.

Lemma silent_should_ban_of {S} n v : silent (S:=S) (should_ban_of n v).
Proof.
  unfold should_ban_of. case_bool_decide; [|apply silent_ret].
  destruct (num_of v); [apply silent_ret | apply silent_raise].
Qed.

Lemma silent_format_percent {S} v : silent (S:=S) (format_percent v).
Proof.
  unfold format_percent.
  destruct v; simpl; first [apply silent_ret | apply silent_raise].
Qed.

Lemma silent_ai_note v : silent (Discord.ai_note v).
Proof.
  unfold Discord.ai_note. destruct (truthy v); [|apply silent_ret].
  destruct v; first [apply silent_ret | apply silent_raise].
Qed.

Lemma silent_esc v : silent (Telegram.esc v).
Proof. destruct v; first [apply silent_ret | apply silent_raise]. Qed.

Lemma silent_harmful_verdict {S} result : silent (S:=S) (harmful_verdict result).
Proof.
  unfold harmful_verdict. destruct (truthy result); [|apply silent_ret].
  destruct result; first [apply silent_ret | apply silent_raise].
Qed.

(** ** Field access on well-typed verdicts *)

Lemma join_strs_ok l : forallb is_str l = true → ∃ s, join_strs l = inr s.
Proof.
  induction l as [|v l IH]; simpl; [eauto|].
  destruct v; simpl; try discriminate. intros H.
  destruct l as [|v' l']; [eauto|].
  destruct (IH H) as [r ->]. eauto.
Qed.

Lemma joined_categories_ok {S} result (s : S) :
  categories_ok result = true →
  ∃ c, joined_categories result s = (inr (JStr c), s, []).
Proof.
  unfold categories_ok, joined_categories.
  destruct (get_default "category" (JArr []) result) eqn:E; simpl;
    try discriminate.
  - intros _. eauto.
  - intros H. destruct (join_strs_ok _ H) as [r Hr].
    exists r. unfold bind, lift. by rewrite Hr.
Qed.

Lemma should_ban_of_num {S} n v c (s : S) :
  num_of v = Some c → should_ban_of n v s = (inr (ban_rule n c), s, []).
Proof.
  intros H. unfold should_ban_of, ban_rule. rewrite H.
  by destruct (bool_decide _).
Qed.

Lemma format_percent_num {S} v c (s : S) :
  num_of v = Some c → format_percent v s = (inr c, s, []).
Proof.
  intros H. unfold format_percent. rewrite H.
  by destruct v.
Qed.

Lemma ai_note_ok v s :
  negb (truthy v) || is_str v = true → Discord.ai_note v s = (inr tt, s, []).
Proof.
  unfold Discord.ai_note. destruct (truthy v); simpl; [|done].
  by destruct v.
Qed.

Lemma esc_note_ok v s :
  negb (truthy v) || is_str v = true →
  (if truthy v then Telegram.esc v else ret tt) s = (inr tt, s, []).
Proof. destruct (truthy v); simpl; [|done]. by destruct v. Qed.

Lemma well_typed_fields result :
  well_typed_verdict result = true →
  categories_ok result = true
  ∧ num_of (get_default "confidence" (JNum 0%Qc) result)
    = Some (confidence_of result)
  ∧ negb (truthy (api_verdict_of result)) || is_str (api_verdict_of result)
    = true.
Proof.
  unfold well_typed_verdict, confidence_of. intros H.
  apply andb_prop in H as [H Hnote]. apply andb_prop in H as [Hcat Hconf].
  apply bool_decide_eq_true in Hconf as [c ->]. done.
Qed.

(** ** One run of [apply_verdict] on a well-typed verdict *)

Lemma Discord_apply_verdict_run w message result media_label db g :
  Discord.guild message = Some g →
  Discord.author_is_member message = true →
  well_typed_verdict result = true →
  Discord.apply_verdict w message result media_label db
  = (inr tt, record_violation g (Discord.author_id message) db,
     Discord_trace w (Db.get_violations g (Discord.author_id message) db + 1)
       (confidence_of result)).
Proof.
  intros Hg Hm Hwt. unfold Discord.apply_verdict. rewrite Hg, Hm. simpl.
  destruct (well_typed_fields _ Hwt) as (Hcat & Hconf & Hnote).
  destruct (joined_categories_ok (S:=store) result db Hcat) as [cs Hc].
  unfold bind, Discord.warn_embed. rewrite Hc. simpl.
  rewrite (should_ban_of_num _ _ _ _ Hconf), (format_percent_num _ _ _ Hconf).
  simpl. rewrite !attempt_call, !(ai_note_ok _ _ Hnote). simpl.
  rewrite !attempt_call. simpl.
  unfold Discord_trace, Discord.get_log_channel.
  set (n := Db.get_violations _ _ _ + 1). set (c := confidence_of result).
  destruct (Discord.log_channel_exists w); simpl.
  - rewrite (ai_note_ok _ _ Hnote), attempt_call. simpl.
    destruct (ban_rule n c); simpl; by rewrite ?attempt_call.
  - rewrite attempt_call. destruct (Discord.create_channel_ok w); simpl.
    + rewrite (ai_note_ok _ _ Hnote), attempt_call. simpl.
      destruct (ban_rule n c); simpl; by rewrite ?attempt_call.
    + destruct (ban_rule n c); simpl; by rewrite ?attempt_call.
Qed.

Lemma Telegram_apply_verdict_run w u result chat_id sender_id media_label st :
  well_typed_verdict result = true →
  Telegram.apply_verdict w u result chat_id sender_id media_label st
  = (inr tt, Telegram.on_db (record_violation chat_id sender_id) st,
     Telegram_trace w
       (Db.get_violations chat_id sender_id (Telegram.db st) + 1)
       (confidence_of result)).
Proof.
  intros Hwt. unfold Telegram.apply_verdict.
  destruct (well_typed_fields _ Hwt) as (Hcat & Hconf & Hnote).
  destruct (joined_categories_ok (S:=Telegram.state) result st Hcat) as [cs Hc].
  unfold bind. rewrite Hc. simpl.
  rewrite (should_ban_of_num _ _ _ _ Hconf). unfold Telegram_trace.
  set (n := Db.get_violations _ _ _ + 1). set (c := confidence_of result).
  destruct (ban_rule n c) eqn:Hban; simpl.
  - rewrite !(format_percent_num _ _ _ Hconf). simpl.
    unfold attempt, platform_call.
    destruct (Telegram.reply_ok w), (Telegram.delete_ok w), (Telegram.ban_ok w);
      reflexivity.
  - rewrite (esc_note_ok _ _ Hnote). simpl.
    rewrite (format_percent_num _ _ _ Hconf). simpl.
    unfold attempt, platform_call.
    destruct (Telegram.reply_ok w); reflexivity.
Qed.

(** ** One run of [apply_verdict] on any verdict *)

Lemma join_strs_raise l : forallb is_str l = false → ∃ e, join_strs l = inl e.
Proof.
  induction l as [|v l IH]; simpl; [done|].
  destruct v; simpl; eauto. intros H.
  destruct l as [|v' l']; [done|].
  destruct (IH H) as [e ->]. eauto.
Qed.

Lemma joined_categories_run {S} result (s : S) :
  categories_joinable result = true →
  ∃ v, joined_categories result s = (inr v, s, []).
Proof.
  unfold categories_joinable, joined_categories.
  destruct (get_default "category" (JArr []) result) eqn:E; simpl; eauto.
  intros H. destruct (join_strs_ok _ H) as [r Hr].
  eexists. unfold bind, lift. by rewrite Hr.
Qed.

Lemma joined_categories_raise {S} result (s : S) :
  categories_joinable result = false →
  ∃ e, joined_categories result s = (inl e, s, []).
Proof.
  unfold categories_joinable, joined_categories.
  destruct (get_default "category" (JArr []) result) eqn:E; simpl; try done.
  intros H. destruct (join_strs_raise _ H) as [e He].
  exists e. unfold bind, lift. by rewrite He.
Qed.

Lemma Discord_apply_verdict_any w message result media_label db g :
  Discord.guild message = Some g →
  Discord.author_is_member message = true →
  let r := Discord.apply_verdict w message result media_label db in
  let n := Db.get_violations g (Discord.author_id message) db + 1 in
  (state_of r = db ∧ trace_of r = [] ∧ categories_joinable result = false)
  ∨ (state_of r = record_violation g (Discord.author_id message) db
     ∧ trace_of r `prefix_of` Discord_trace w n (confidence_of result)
     ∧ categories_joinable result = true).
Proof.
  intros Hg Hm. unfold Discord.apply_verdict. rewrite Hg, Hm. simpl.
  destruct (categories_joinable result) eqn:Hcat.
  2:{ left. unfold bind.
      destruct (joined_categories_raise (S:=store) result db Hcat) as [e ->].
      done. }
  right.
  destruct (joined_categories_run (S:=store) result db Hcat) as [cs Hc].
  unfold bind, Discord.warn_embed. rewrite Hc. simpl.
  set (n := Db.get_violations _ _ _ + 1).
  set (db' := Db.set_violations _ _ _ _).
  set (v := get_default "confidence" (JNum 0%Qc) result).
  unfold confidence_of. fold v.
  destruct (num_of v) as [c|] eqn:Hconf.
  2:{ assert (∃ e, format_percent (S:=store) v db' = (inl e, db', [])) as [e He].
      { unfold format_percent. rewrite Hconf. destruct v; by eexists. }
      destruct (silent_should_ban_of (S:=store) n v db') as [[e'|b] ->];
        [|rewrite He]; (split; [done|split; [apply prefix_nil|done]]). }
  rewrite (should_ban_of_num _ _ _ _ Hconf), (format_percent_num _ _ _ Hconf).
  simpl. rewrite !attempt_call.
  destruct (silent_ai_note (api_verdict_of result) db') as [[e|[]] Hnote];
    rewrite Hnote.
  { split; [done|]. split; [|done]. unfold Discord_trace. fold n. simpl.
    do 2 apply prefix_cons. apply prefix_nil. }
  simpl. rewrite !attempt_call. unfold Discord_trace, Discord.get_log_channel.
  destruct (Discord.log_channel_exists w); simpl.
  - rewrite Hnote, attempt_call. simpl.
    destruct (ban_rule n c); simpl; by rewrite ?attempt_call.
  - rewrite attempt_call. destruct (Discord.create_channel_ok w); simpl.
    + rewrite Hnote, attempt_call. simpl.
      destruct (ban_rule n c); simpl; by rewrite ?attempt_call.
    + destruct (ban_rule n c); simpl; by rewrite ?attempt_call.
Qed.

Lemma Telegram_reply_run w cs act st :
  ∃ ok, attempt (Telegram.esc cs ;; platform_call (ChannelWarning act)
                                      (Telegram.reply_ok w)) st
        = (inr ok, st, if is_str cs then [ChannelWarning act (Telegram.reply_ok w)] else [])
        ∧ ok = is_str cs && Telegram.reply_ok w.
Proof.
  unfold attempt, bind, platform_call.
  destruct cs; simpl; try by eexists.
  destruct (Telegram.reply_ok w); by eexists.
Qed.

Lemma Telegram_apply_verdict_any w u result chat_id sender_id media_label st :
  let r := Telegram.apply_verdict w u result chat_id sender_id media_label st in
  let n := Db.get_violations chat_id sender_id (Telegram.db st) + 1 in
  (state_of r = st ∧ trace_of r = [] ∧ categories_joinable result = false)
  ∨ (state_of r = Telegram.on_db (record_violation chat_id sender_id) st
     ∧ trace_of r `prefix_of` Telegram_trace w n (confidence_of result)
     ∧ categories_joinable result = true).
Proof.
  cbv zeta. unfold Telegram.apply_verdict.
  destruct (categories_joinable result) eqn:Hcat.
  2:{ left. unfold bind.
      destruct (joined_categories_raise (S:=Telegram.state) result st Hcat)
        as [e ->]. done. }
  right.
  destruct (joined_categories_run (S:=Telegram.state) result st Hcat) as [cs Hc].
  unfold bind. rewrite Hc. simpl.
  set (n := Db.get_violations _ _ _ + 1).
  set (st' := Telegram.on_db _ st).
  set (v := get_default "confidence" (JNum 0%Qc) result).
  unfold confidence_of. fold v.
  assert (Hst : st' = Telegram.on_db (record_violation chat_id sender_id) st)
    by done.
  clearbody st'. subst.
  set (st' := Telegram.on_db _ st).
  destruct (num_of v) as [c|] eqn:Hconf.
  2:{ assert (∃ e, format_percent (S:=Telegram.state) v st' = (inl e, st', []))
        as [e He].
      { unfold format_percent. rewrite Hconf. destruct v; by eexists. }
      destruct (silent_should_ban_of (S:=Telegram.state) n v st')
        as [[e'|b] ->]; [by (split; [|split; [apply prefix_nil|]])|].
      destruct b.
      - rewrite He. by (split; [|split; [apply prefix_nil|]]).
      - destruct (truthy (api_verdict_of result)).
        + destruct (silent_esc (api_verdict_of result) st') as [[e'|[]] ->];
            [|rewrite He]; by (split; [|split; [apply prefix_nil|]]).
        + simpl. rewrite He. by (split; [|split; [apply prefix_nil|]]). }
  rewrite (should_ban_of_num _ _ _ _ Hconf).
  unfold Telegram_trace. fold n.
  change (default 0%Qc (Some c)) with c.
  destruct (ban_rule n c) eqn:Hban.
  - rewrite !(format_percent_num _ _ _ Hconf). simpl.
    destruct cs; simpl;
      try by (split; [|split; [apply prefix_cons, prefix_nil|]]).
    unfold attempt, platform_call.
    destruct (Telegram.reply_ok w), (Telegram.delete_ok w),
      (Telegram.ban_ok w); solve_prefix.
  - assert (∃ r, (if truthy (api_verdict_of result)
                  then Telegram.esc (api_verdict_of result) else ret ()) st'
                 = (r, st', [])) as [[e|[]] ->].
    { destruct (truthy _); [apply silent_esc | by eexists]. }
    { by (split; [|split; [apply prefix_nil|]]). }
    rewrite (format_percent_num _ _ _ Hconf). simpl.
    destruct cs; simpl;
      try by (split; [|split; [apply prefix_cons, prefix_nil|]]).
    unfold attempt, platform_call.
    destruct (Telegram.reply_ok w); solve_prefix.
Qed.

(** ** The API callers *)

Lemma api_text_run {S} text sender_id sender_display prior settings resp (s : S) :
  api_text text sender_id sender_display prior settings resp s
  = (inr (normalize resp), s,
     [ApiPost "/analyze/messages"
        (text_body (JStr text) (JStr sender_id) (JStr sender_display)
           prior settings)]).
Proof.
  unfold api_text, or_none, post_json, bind, emit, normalize.
  destruct resp as [| | |status data]; try done. simpl.
  destruct data as [| | | | |m]; try done.
  destruct (m !! "results") as [results|]; [|done].
  unfold lift. by destruct (index0 results).
Qed.

Lemma api_image_run {S} file_bytes filename caption prior label resp (s : S) :
  ∃ req, api_image file_bytes filename caption prior label resp s
         = (inr (decoded resp), s, [req]) ∧ is_api req = true.
Proof.
  eexists. unfold api_image, or_none, post_json, bind, emit, decoded.
  by destruct resp.
Qed.

Lemma api_audio_run {S} file_bytes filename prior label resp (s : S) :
  ∃ req, api_audio file_bytes filename prior label resp s
         = (inr (decoded resp), s, [req]) ∧ is_api req = true.
Proof.
  eexists. unfold api_audio, or_none, post_json, bind, emit, decoded.
  by destruct resp.
Qed.

Lemma api_video_run {S} file_bytes filename caption prior label resp (s : S) :
  ∃ req, api_video file_bytes filename caption prior label resp s
         = (inr (decoded resp), s, [req]) ∧ is_api req = true.
Proof.
  eexists. unfold api_video, or_none, post_json, bind, emit, decoded.
  by destruct resp.
Qed.

(** The guard of the handlers, against its pure reading. *)
Lemma harmful_verdict_run {S} result (s : S) :
  harmful_verdict result s
  = (match result with
     | JObj d => inr (verdict_in result)
     | _ => if truthy result then inl AttributeError else inr None
     end, s, []).
Proof.
  unfold harmful_verdict, verdict_in.
  destruct result; simpl; try done.
  - by destruct b.
  - by destruct (negb _).
  - by destruct (negb _).
  - by destruct (negb _).
  - destruct (negb _); simpl; [|done]. by destruct (is_bad_result m).
Qed.

(** ** The handlers *)

Lemma Telegram_handle_text_found w u d st :
  Telegram_detection u = Some d →
  ∃ req,
    is_api req = true
    ∧ Telegram.handle_text w u st
      = (result_of (Telegram.apply_verdict w u d (Telegram.chat_id u)
                      (Telegram.from_user_id u) "" st),
         state_of (Telegram.apply_verdict w u d (Telegram.chat_id u)
                     (Telegram.from_user_id u) "" st),
         req :: trace_of (Telegram.apply_verdict w u d (Telegram.chat_id u)
                            (Telegram.from_user_id u) "" st)).
Proof.
  unfold Telegram_detection, Telegram.handle_text.
  destruct (Telegram.has_message u); simpl; [|done].
  destruct (Telegram.in_group u); simpl; [|done].
  destruct (Telegram.text u) as [txt|]; [|done].
  case_bool_decide; [done|]. intros Hv.
  eexists. split; [|unfold bind; simpl; rewrite api_text_run,
    harmful_verdict_run].
  2:{ destruct (normalize (Telegram.response u)) eqn:E; try done.
      rewrite Hv.
      by destruct (Telegram.apply_verdict _ _ _ _ _ _ _) as [[? ?] ?]. }
  done.
Qed.

Lemma Telegram_handle_text_none w u st :
  Telegram_detection u = None →
  ∃ res t, Telegram.handle_text w u st = (res, st, t)
           ∧ forallb is_api t = true.
Proof.
  unfold Telegram_detection, Telegram.handle_text.
  destruct (Telegram.has_message u); simpl; [|by eexists _, _].
  destruct (Telegram.text u) as [txt|]; [|by eexists _, _].
  case_bool_decide; [by eexists _, _|].
  destruct (Telegram.in_group u); simpl; [|by eexists _, _].
  intros Hv. unfold bind. simpl. rewrite api_text_run, harmful_verdict_run.
  destruct (normalize (Telegram.response u)) eqn:E; rewrite ?Hv; simpl;
    try (by eexists _, _); try (destruct (negb _); by eexists _, _).
  destruct b; by eexists _, _.
Qed.

Lemma follows_scan_ext w m db sc (c c' : M store unit) :
  c' db = c db → follows_scan w m db sc c → follows_scan w m db sc c'.
Proof. intros E. unfold follows_scan. by rewrite E. Qed.

Lemma follows_scan_check w m db result label sc (continue : M store unit) :
  follows_scan w m db sc continue →
  follows_scan w m db (scan_result result label sc)
    (verdict <- harmful_verdict result ;;
     match verdict with
     | Some d => Discord.apply_verdict w m d label
     | None => continue
     end).
Proof.
  intros Hc.
  assert (Hskip : ∀ r, harmful_verdict (S:=store) r db = (inr None, db, []) →
    follows_scan w m db sc
      (verdict <- harmful_verdict r ;;
       match verdict with
       | Some d => Discord.apply_verdict w m d label
       | None => continue
       end)).
  { intros r Hr. eapply follows_scan_ext; [|exact Hc].
    unfold bind. rewrite Hr. by destruct (continue db) as [[? ?] ?]. }
  assert (Habort : ∀ r, harmful_verdict (S:=store) r db
                        = (inl AttributeError, db, []) →
    follows_scan w m db Aborted
      (verdict <- harmful_verdict r ;;
       match verdict with
       | Some d => Discord.apply_verdict w m d label
       | None => continue
       end)).
  { intros r Hr. unfold follows_scan, bind. rewrite Hr. by eexists. }
  unfold scan_result.
  destruct result as [|b|q|s'|l|d]; simpl.
  - by apply Hskip.
  - destruct b; [by apply Habort | by apply Hskip].
  - destruct (bool_decide _) eqn:E; simpl;
      [apply Hskip | apply Habort]; by rewrite harmful_verdict_run; simpl; rewrite E.
  - destruct (bool_decide _) eqn:E; simpl;
      [apply Hskip | apply Habort]; by rewrite harmful_verdict_run; simpl; rewrite E.
  - destruct (bool_decide _) eqn:E; simpl;
      [apply Hskip | apply Habort]; by rewrite harmful_verdict_run; simpl; rewrite E.
  - destruct (bool_decide _) eqn:E; simpl.
    { apply Hskip. rewrite harmful_verdict_run. unfold verdict_in. simpl.
      by rewrite E. }
    destruct (is_bad_result d) eqn:Hbad.
    + unfold follows_scan, bind. rewrite harmful_verdict_run.
      unfold verdict_in. simpl. rewrite E, Hbad. simpl.
      exists []. split; [done|].
      by destruct (Discord.apply_verdict w m d label db) as [[? ?] ?].
    + apply Hskip. rewrite harmful_verdict_run. unfold verdict_in. simpl.
      by rewrite E, Hbad.
Qed.

Lemma follows_scan_request {A} w m db sc (call : M store A) (a : A) req
    (k : A → M store unit) :
  call db = (inr a, db, [req]) → is_api req = true →
  follows_scan w m db sc (k a) →
  follows_scan w m db sc (bind call k).
Proof.
  intros Hcall Hreq Hk.
  destruct sc as [d label| |]; simpl in *; unfold bind; rewrite Hcall.
  - destruct Hk as (t0 & Ht0 & ->). exists (req :: t0). simpl.
    by rewrite Hreq, Ht0.
  - destruct Hk as (t0 & -> & Ht0). exists (req :: t0). simpl.
    by rewrite Hreq, Ht0.
  - destruct Hk as (t0 & -> & Ht0). exists (req :: t0). simpl.
    by rewrite Hreq, Ht0.
Qed.

Lemma Discord_attachments_loop_run w m db prior sender_display atts :
  follows_scan w m db (scan_attachments atts)
    (Discord.attachments_loop w m prior sender_display atts).
Proof.
  induction atts as [|a rest IH]; simpl.
  { by eexists. }
  destruct (Discord.read a) as [file_bytes|]; [|exact IH].
  destruct (Discord.is_image _ _).
  { destruct (api_image_run (S:=store) file_bytes (Discord.filename a)
      (Discord.caption_of (Discord.content m)) prior sender_display
      (Discord.response a) db) as (req & Hrun & Hreq).
    eapply follows_scan_request; [exact Hrun | exact Hreq |].
    by apply follows_scan_check. }
  destruct (Discord.is_audio _ _).
  { destruct (api_audio_run (S:=store) file_bytes (Discord.filename a)
      prior sender_display (Discord.response a) db) as (req & Hrun & Hreq).
    eapply follows_scan_request; [exact Hrun | exact Hreq |].
    by apply follows_scan_check. }
  destruct (Discord.is_video _ _); [|exact IH].
  case_bool_decide; [exact IH|].
  destruct (api_video_run (S:=store) file_bytes (Discord.filename a)
    (Discord.caption_of (Discord.content m)) prior sender_display
    (Discord.response a) db) as (req & Hrun & Hreq).
  eapply follows_scan_request; [exact Hrun | exact Hreq |].
  by apply follows_scan_check.
Qed.

Lemma Discord_on_message_run w m db :
  follows_scan w m db (Discord_detection m) (Discord.on_message w m).
Proof.
  unfold Discord_detection, Discord.on_message.
  destruct (Discord.guild m) as [g|]; [|by eexists].
  destruct (Discord.author_bot m); [by eexists|].
  set (prior := Db.get_violations g (Discord.author_id m) db).
  set (settings := match settings_rows db !! g with
                   | Some stored => stored ∪ Discord.DEFAULT_SETTINGS
                   | None => Discord.DEFAULT_SETTINGS
                   end).
  pose proof (Discord_attachments_loop_run w m db prior
                (Discord.author_display_name m) (Discord.attachments m))
    as Hloop.
  destruct (nonblank (Discord.content m)).
  - pose proof (follows_scan_check w m db
      (normalize (Discord.text_response m)) "" _ _ Hloop) as Hcheck.
    pose proof (follows_scan_request w m db _
      (api_text (Discord.content m) (pretty (Discord.author_id m))
         (Discord.author_display_name m) prior settings
         (Discord.text_response m))
      _ _
      (λ result,
         verdict <- harmful_verdict result ;;
         match verdict with
         | Some d => Discord.apply_verdict w m d ""
         | None =>
             Discord.attachments_loop w m prior
               (Discord.author_display_name m) (Discord.attachments m)
         end)
      (api_text_run _ _ _ _ _ _ db) eq_refl Hcheck) as Hall.
    eapply follows_scan_ext; [|exact Hall].
    unfold bind. simpl. fold prior settings. rewrite api_text_run.
    rewrite harmful_verdict_run.
    destruct (normalize (Discord.text_response m)) as [|b|q|s'|l|d];
      simpl; try done.
    + by destruct (Discord.attachments_loop _ _ _ _ _ _) as [[? ?] ?].
    + destruct b; [done|].
      by destruct (Discord.attachments_loop _ _ _ _ _ _) as [[? ?] ?].
    + destruct (negb _); [done|].
      by destruct (Discord.attachments_loop _ _ _ _ _ _) as [[? ?] ?].
    + destruct (negb _); [done|].
      by destruct (Discord.attachments_loop _ _ _ _ _ _) as [[? ?] ?].
    + destruct (negb _); [done|].
      by destruct (Discord.attachments_loop _ _ _ _ _ _) as [[? ?] ?].
    + destruct (negb (bool_decide (d = ∅)) && is_bad_result d).
      * by destruct (Discord.apply_verdict _ _ _ _ _) as [[? ?] ?].
      * by destruct (Discord.attachments_loop _ _ _ _ _ _) as [[? ?] ?].
  - eapply follows_scan_ext; [|exact Hloop].
    unfold bind. simpl. fold prior.
    by destruct (Discord.attachments_loop _ _ _ _ _ _) as [[? ?] ?].
Qed.

(** ** Counting effects *)

Lemma detections_app t1 t2 : detections (t1 ++ t2) = (detections t1 + detections t2)%nat.
Proof. unfold detections. by rewrite List.filter_app, length_app. Qed.

Lemma deletions_app t1 t2 : deletions (t1 ++ t2) = (deletions t1 + deletions t2)%nat.
Proof. unfold deletions. by rewrite List.filter_app, length_app. Qed.

Lemma warnings_app t1 t2 : warnings (t1 ++ t2) = (warnings t1 + warnings t2)%nat.
Proof. unfold warnings. by rewrite List.filter_app, length_app. Qed.

Lemma bans_app t1 t2 : bans (t1 ++ t2) = (bans t1 + bans t2)%nat.
Proof. unfold bans. by rewrite List.filter_app, length_app. Qed.

Lemma api_only_counts t :
  forallb is_api t = true →
  detections t = 0%nat ∧ deletions t = 0%nat ∧ warnings t = 0%nat ∧ bans t = 0%nat.
Proof.
  induction t as [|e t IH]; [done|]. simpl. intros H.
  apply andb_prop in H as [He Ht]. destruct (IH Ht) as (? & ? & ? & ?).
  unfold detections, deletions, warnings, bans in *. by destruct e.
Qed.

Lemma prefix_counts (t t' : list effect) :
  t `prefix_of` t' →
  (detections t ≤ detections t' ∧ deletions t ≤ deletions t'
   ∧ warnings t ≤ warnings t' ∧ bans t ≤ bans t')%nat.
Proof.
  intros [k ->].
  rewrite detections_app, deletions_app, warnings_app, bans_app. lia.
Qed.

Lemma Discord_trace_counts w n c :
  detections (Discord_trace w n c) = 1%nat
  ∧ deletions (Discord_trace w n c) = 1%nat
  ∧ warnings (Discord_trace w n c) = 1%nat
  ∧ bans (Discord_trace w n c) = (if ban_rule n c then 1 else 0)%nat.
Proof.
  unfold Discord_trace.
  by destruct (Discord.log_channel_exists w), (Discord.create_channel_ok w),
    (ban_rule n c).
Qed.

Lemma Telegram_trace_counts w n c :
  detections (Telegram_trace w n c) = 1%nat
  ∧ deletions (Telegram_trace w n c)
    = (if Telegram.reply_ok w && ban_rule n c then 1 else 0)%nat
  ∧ warnings (Telegram_trace w n c) = 1%nat
  ∧ bans (Telegram_trace w n c)
    = (if Telegram.reply_ok w && ban_rule n c then 1 else 0)%nat.
Proof.
  unfold Telegram_trace.
  by destruct (Telegram.reply_ok w), (ban_rule n c).
Qed.

Lemma float_0_79_below : ¬ (float_0_80 ≤ float_0_79)%Qc.
Proof. apply (bool_decide_eq_false_1 _). vm_compute. reflexivity. Qed.

Lemma float_0_80_reaches : (float_0_80 ≤ float_0_80)%Qc.
Proof. apply (bool_decide_eq_true_1 _). vm_compute. reflexivity. Qed.

Lemma threshold_is_float_0_80 : BAN_CONFIDENCE_THRESHOLD = float_0_80.
Proof. reflexivity. Qed.

#[global] Opaque float_0_80 float_0_79 float_0_55 Sample.float_0_90
  BAN_CONFIDENCE_THRESHOLD.

(** The fixed rule, in words. *)
Lemma ban_rule_spec n c :
  ban_rule n c = true ↔ 2 ≤ n ∧ (float_0_80 ≤ c)%Qc.
Proof.
  unfold ban_rule, Qc_geb, BAN_VIOLATION_THRESHOLD.
  rewrite threshold_is_float_0_80.
  rewrite andb_true_iff, !bool_decide_eq_true. done.
Qed.

(** ** C1: the escalation decision *)



(** ** C2: the violation count *)

Lemma get_record_violation g u db :
  Db.get_violations g u (record_violation g u db) = Db.get_violations g u db + 1.
Proof.
  unfold record_violation, Db.get_violations, Db.set_violations. simpl.
  by rewrite lookup_insert_eq.
Qed.

Lemma get_record_violation_ne g u g' u' db :
  (g', u') ≠ (g, u) →
  Db.get_violations g u (record_violation g' u' db) = Db.get_violations g u db.
Proof.
  intros Hne. unfold record_violation, Db.get_violations, Db.set_violations.
  simpl. by rewrite lookup_insert_ne.
Qed.

Lemma Discord_apply_verdict_state w message result media_label db g :
  Discord.guild message = Some g →
  Discord.author_is_member message = true →
  categories_joinable result = true →
  state_of (Discord.apply_verdict w message result media_label db)
  = record_violation g (Discord.author_id message) db.
Proof.
  intros Hg Hm Hj.
  destruct (Discord_apply_verdict_any w message result media_label db g Hg Hm)
    as [(_ & _ & H)|(H & _)]; [congruence|done].
Qed.

Lemma Telegram_apply_verdict_state w u result chat_id sender_id media_label st :
  categories_joinable result = true →
  state_of (Telegram.apply_verdict w u result chat_id sender_id media_label st)
  = Telegram.on_db (record_violation chat_id sender_id) st.
Proof.
  intros Hj.
  destruct (Telegram_apply_verdict_any w u result chat_id sender_id
              media_label st) as [(_ & _ & H)|(H & _)]; [congruence|done].
Qed.

Lemma Telegram_text_event_state e st :
  (∀ d, Telegram_detection e.2 = Some d → categories_joinable d = true) →
  state_of (Telegram_text_event e st)
  = if bool_decide (is_Some (Telegram_detection e.2))
    then Telegram.on_db
           (record_violation (Telegram.chat_id e.2) (Telegram.from_user_id e.2)) st
    else st.
Proof.
  intros Hj. unfold Telegram_text_event.
  destruct (Telegram_detection e.2) as [d|] eqn:Hd.
  - destruct (Telegram_handle_text_found e.1 e.2 d st Hd) as (req & _ & ->).
    rewrite bool_decide_eq_true_2 by eauto.
    by apply Telegram_apply_verdict_state, Hj.
  - destruct (Telegram_handle_text_none e.1 e.2 st Hd) as (res & t & -> & _).
    rewrite bool_decide_eq_false_2; [done|]. by intros [? ?].
Qed.

Lemma Discord_message_event_state e db :
  (∀ d label, Discord_detection e.2 = Found d label →
     Discord.author_is_member e.2 = true ∧ categories_joinable d = true) →
  state_of (Discord_message_event e db)
  = match Discord_detection e.2, Discord.guild e.2 with
    | Found _ _, Some g => record_violation g (Discord.author_id e.2) db
    | _, _ => db
    end.
Proof.
  intros Hj. unfold Discord_message_event.
  pose proof (Discord_on_message_run e.1 e.2 db) as Hrun.
  destruct (Discord_detection e.2) as [d label| |] eqn:Hd; simpl in Hrun.
  - destruct Hrun as (t0 & _ & ->). destruct (Hj d label eq_refl) as [Hm Hc].
    destruct (Discord.guild e.2) as [g|] eqn:Hg.
    + by apply Discord_apply_verdict_state.
    + unfold Discord_detection in Hd. by rewrite Hg in Hd.
  - by destruct Hrun as (t0 & -> & _).
  - by destruct Hrun as (t0 & -> & _).
Qed.

Lemma Telegram_sequence_count events st chat_id user_id :
  forallb Telegram_countable events = true →
  Db.get_violations chat_id user_id
    (Telegram.db (handle_all Telegram_text_event events st).1)
  = Db.get_violations chat_id user_id (Telegram.db st)
    + Z.of_nat (Telegram_hits chat_id user_id events).
Proof.
  revert st. induction events as [|e rest IH]; intros st Hall; simpl.
  { unfold Telegram_hits. simpl. lia. }
  simpl in Hall. apply andb_prop in Hall as [He Hall].
  rewrite IH by done. rewrite (Telegram_text_event_state e st).
  2:{ intros d Hd. unfold Telegram_countable in He. by rewrite Hd in He. }
  unfold Telegram_hits. simpl.
  destruct (bool_decide (is_Some (Telegram_detection e.2))) eqn:Hd;
    [|rewrite !andb_false_r; lia].
  rewrite andb_true_r. simpl.
  destruct (bool_decide (Telegram.chat_id e.2 = chat_id)) eqn:Hc;
    [apply bool_decide_eq_true in Hc|apply bool_decide_eq_false in Hc].
  - destruct (bool_decide (Telegram.from_user_id e.2 = user_id)) eqn:Hu;
      [apply bool_decide_eq_true in Hu|apply bool_decide_eq_false in Hu];
      simpl.
    + rewrite Hc, Hu, get_record_violation. lia.
    + rewrite get_record_violation_ne; [lia|congruence].
  - simpl. rewrite get_record_violation_ne; [lia|congruence].
Qed.

Lemma Discord_sequence_count events db guild_id user_id :
  forallb Discord_countable events = true →
  Db.get_violations guild_id user_id
    (handle_all Discord_message_event events db).1
  = Db.get_violations guild_id user_id db
    + Z.of_nat (Discord_hits guild_id user_id events).
Proof.
  revert db. induction events as [|e rest IH]; intros db Hall; simpl.
  { unfold Discord_hits. simpl. lia. }
  simpl in Hall. apply andb_prop in Hall as [He Hall].
  rewrite IH by done. rewrite (Discord_message_event_state e db).
  2:{ intros d label Hd. unfold Discord_countable in He. rewrite Hd in He.
      by apply andb_prop in He. }
  unfold Discord_hits. simpl.
  destruct (Discord_detection e.2) as [d label| |] eqn:Hd; simpl;
    rewrite ?andb_false_r; try lia.
  rewrite andb_true_r.
  destruct (Discord.guild e.2) as [g|] eqn:Hg.
  2:{ rewrite bool_decide_eq_false_2 by done. simpl. lia. }
  destruct (bool_decide (Some g = Some guild_id)) eqn:Hc;
    [apply bool_decide_eq_true in Hc|apply bool_decide_eq_false in Hc].
  - destruct (bool_decide (Discord.author_id e.2 = user_id)) eqn:Hu;
      [apply bool_decide_eq_true in Hu|apply bool_decide_eq_false in Hu];
      simpl.
    + injection Hc as ->. rewrite Hu, get_record_violation. lia.
    + rewrite get_record_violation_ne; [lia|congruence].
  - simpl. rewrite get_record_violation_ne; [lia|congruence].
Qed.



(** ** C3: deletion of the offending message *)

Lemma verdict_in_bad result d :
  verdict_in result = Some d → is_bad_result d = true.
Proof.
  unfold verdict_in. destruct result; try done.
  destruct (truthy _); simpl; [|done].
  destruct (is_bad_result m) eqn:E; [|done]. by intros [= <-].
Qed.

Lemma Telegram_detection_bad u d :
  Telegram_detection u = Some d → is_bad_result d = true.
Proof.
  unfold Telegram_detection.
  destruct (_ && _); [|done]. destruct (Telegram.text u); [|done].
  case_bool_decide; [done|]. apply verdict_in_bad.
Qed.

Lemma scan_result_bad result label sc d l :
  (∀ d l, sc = Found d l → is_bad_result d = true) →
  scan_result result label sc = Found d l → is_bad_result d = true.
Proof.
  intros Hsc. unfold scan_result. destruct (truthy result); [|apply Hsc].
  destruct result; try done.
  destruct (is_bad_result m) eqn:E; [|apply Hsc]. by intros [= <- _].
Qed.

Lemma scan_attachments_bad atts d l :
  scan_attachments atts = Found d l → is_bad_result d = true.
Proof.
  revert d l. induction atts as [|a rest IH]; intros d l; simpl; [done|].
  destruct (Discord.read a); [|apply IH].
  repeat (case_match; try apply IH); by apply scan_result_bad.
Qed.

Lemma Discord_detection_bad m d l :
  Discord_detection m = Found d l → is_bad_result d = true.
Proof.
  unfold Discord_detection.
  destruct (Discord.guild m); [|done]. destruct (Discord.author_bot m); [done|].
  destruct (nonblank _); [|apply scan_attachments_bad].
  apply scan_result_bad. intros ? ?. apply scan_attachments_bad.
Qed.




(** ** C4: isolation of the enforcement steps *)

(** On Discord every step runs whatever became of the earlier ones:
    the trace of a well-typed verdict has the same steps for every
    outcome of the platform calls, and the ban is attempted exactly when
    the ban rule holds. *)
Lemma Discord_steps_isolated dw message result media_label db g :
  Discord.guild message = Some g →
  Discord.author_is_member message = true →
  well_typed_verdict result = true →
  let t := trace_of (Discord.apply_verdict dw message result media_label db) in
  let n := Db.get_violations g (Discord.author_id message) db + 1 in
  deletions t = 1%nat ∧ warnings t = 1%nat
  ∧ bans t = (if ban_rule n (confidence_of result) then 1 else 0)%nat.
Proof.
  intros Hg Hm Hwt.
  rewrite (Discord_apply_verdict_run _ _ _ _ _ _ Hg Hm Hwt). simpl.
  destruct (Discord_trace_counts dw
    (Db.get_violations g (Discord.author_id message) db + 1)
    (confidence_of result)) as (_ & ? & ? & ?). done.
Qed.

(** C4 at the failing input.  Second violation, confidence 0.80, so the
    ban rule holds.  On Telegram the warning reply fails and the handler
    returns: neither the deletion nor the ban is attempted.  On Discord
    the deletion, the warning and the log post all fail and the ban is
    attempted all the same. *)
Theorem C4_telegram_failed_reply_skips_ban :
  ban_rule 2 float_0_80 = true
  ∧ trace_of (Telegram.apply_verdict Sample.telegram_reply_fails Sample.update
                (Sample.verdict float_0_80) 10 7 ""
                Sample.telegram_one_violation)
    = [Moderation 2 float_0_80 ban; ChannelWarning ban false]
  ∧ trace_of (Discord.apply_verdict Sample.discord_failing Sample.message
                (Sample.verdict float_0_80) "" Sample.one_violation)
    = [Moderation 2 float_0_80 ban; DeleteMessage false;
       ChannelWarning ban false; LogPost ban false; BanMember true].
Proof. vm_compute. done. Qed.

(** ** C5: concurrent harmful events *)

Lemma recorded_count_insert tasks i t t' :
  tasks !! i = Some t →
  (recorded_count (<[i := t']> tasks) + (if EventLoop.recorded t then 1 else 0)
   = recorded_count tasks + (if EventLoop.recorded t' then 1 else 0))%nat.
Proof.
  unfold recorded_count. revert i.
  induction tasks as [|x tasks IH]; intros [|i]; simpl; try done.
  - intros [= ->]. destruct (EventLoop.recorded t), (EventLoop.recorded t');
      simpl; lia.
  - intros H. specialize (IH i H).
    destruct (EventLoop.recorded x); simpl; lia.
Qed.

Lemma EventLoop_run_count g u schedule tasks db :
  Db.get_violations g u (EventLoop.run g u schedule tasks db).2
  + Z.of_nat (recorded_count tasks)
  = Db.get_violations g u db
    + Z.of_nat (recorded_count (EventLoop.run g u schedule tasks db).1).
Proof.
  revert tasks db. induction schedule as [|i schedule IH]; intros tasks db;
    simpl; [done|].
  destruct (tasks !! i) as [t|] eqn:Hi; [|apply IH].
  destruct (EventLoop.resume g u t db) as [t' db'] eqn:Hres.
  specialize (IH (<[i := t']> tasks) db').
  pose proof (recorded_count_insert tasks i t t' Hi) as Hins.
  destruct t as [|[|n]|]; simpl in Hres; injection Hres as <- <-;
    simpl in Hins; rewrite ?get_record_violation in IH; lia.
Qed.

Lemma EventLoop_run_length g u schedule tasks db :
  length (EventLoop.run g u schedule tasks db).1 = length tasks.
Proof.
  revert tasks db. induction schedule as [|i schedule IH]; intros tasks db;
    simpl; [done|].
  destruct (tasks !! i) as [t|]; [|apply IH].
  destruct (EventLoop.resume g u t db) as [t' db'].
  by rewrite IH, length_insert.
Qed.

Lemma recorded_count_all tasks :
  forallb EventLoop.recorded tasks = true → recorded_count tasks = length tasks.
Proof.
  unfold recorded_count. induction tasks as [|t tasks IH]; simpl; [done|].
  intros H. apply andb_prop in H as [-> H]. simpl. by rewrite IH.
Qed.

Lemma recorded_count_none K :
  recorded_count (replicate K EventLoop.Classifying) = 0%nat.
Proof. unfold recorded_count. by induction K. Qed.




(** ** C6: reading and writing settings *)

Lemma Discord_get_settings_run g db :
  Discord.get_settings g db
  = (inr (overrides g db ∪ Discord.DEFAULT_SETTINGS), db, []).
Proof.
  unfold Discord.get_settings, overrides, bind, gets, ret. simpl.
  destruct (settings_rows db !! g); simpl; [done|].
  by rewrite (left_id_L ∅ (∪)).
Qed.

Lemma Telegram_get_settings_run chat_id st :
  Telegram.get_settings chat_id st
  = (inr (overrides chat_id (Telegram.db st) ∪ Telegram.default_settings st),
     st, []).
Proof.
  unfold Telegram.get_settings, overrides, bind, gets, ret. simpl.
  destruct (settings_rows (Telegram.db st) !! chat_id); simpl; [done|].
  by rewrite (left_id_L ∅ (∪)).
Qed.

Lemma overlay_lookup (stored defaults : dict) k :
  (stored ∪ defaults) !! k
  = match stored !! k with Some v => Some v | None => defaults !! k end.
Proof.
  rewrite lookup_union. destruct (stored !! k), (defaults !! k); done.
Qed.

Lemma overrides_save g settings db :
  overrides g (Db.save_settings g settings db) = settings.
Proof. unfold overrides, Db.save_settings. simpl. by rewrite lookup_insert_eq. Qed.

(** C6 does not hold as stated.  A stored key that the schema does not
    know is returned by [get_settings]; and a write replaces the whole
    stored object, so a field left out of the write reads as its default
    afterwards, not as the value stored before. *)
Lemma C6_counterexample :
  let stored : dict := {[ "legacy_flag" := JBool true; "auto_warn" := JBool false ]} in
  let db1 := state_of (Discord.save_settings 10 stored empty_store) in
  let db2 := state_of (Discord.save_settings 10 {[ "auto_block" := JBool false ]} db1) in
  let read db k :=
    match result_of (Discord.get_settings 10 db) with
    | inr s => s !! k
    | inl _ => None
    end in
  Discord.DEFAULT_SETTINGS !! "legacy_flag" = None
  ∧ read db1 "legacy_flag" = Some (JBool true)
  ∧ read db1 "auto_warn" = Some (JBool false)
  ∧ read db2 "auto_warn" = Some (JBool true).
Proof. vm_compute. done. Qed.

(** C6, amended.  Reading the settings of a scope yields the default
    settings overlaid with the stored object: a key missing from the
    stored object has the value of the defaults, and every stored key,
    known to the schema or not, has its stored value.  After a write, a
    read yields the defaults overlaid with the written object alone: a
    key left out of the write has the value of the defaults.  (On
    Telegram the defaults are the [DEFAULT_SETTINGS] dictionary as it is
    at the time of the read.) *)
Theorem C6_settings_are_defaults_overlaid_with_stored :
  (∀ g db,
     Discord.get_settings g db
     = (inr (overrides g db ∪ Discord.DEFAULT_SETTINGS), db, [])
     ∧ ∀ k, (overrides g db ∪ Discord.DEFAULT_SETTINGS) !! k
            = match overrides g db !! k with
              | Some v => Some v
              | None => Discord.DEFAULT_SETTINGS !! k
              end)
  ∧ (∀ g written db,
       Discord.get_settings g (state_of (Discord.save_settings g written db))
       = (inr (written ∪ Discord.DEFAULT_SETTINGS),
          state_of (Discord.save_settings g written db), [])
       ∧ ∀ k, written !! k = None →
              (written ∪ Discord.DEFAULT_SETTINGS) !! k
              = Discord.DEFAULT_SETTINGS !! k)
  ∧ (∀ chat_id st,
       Telegram.get_settings chat_id st
       = (inr (overrides chat_id (Telegram.db st) ∪ Telegram.default_settings st),
          st, [])
       ∧ ∀ k, (overrides chat_id (Telegram.db st) ∪ Telegram.default_settings st) !! k
              = match overrides chat_id (Telegram.db st) !! k with
                | Some v => Some v
                | None => Telegram.default_settings st !! k
                end)
  ∧ (∀ chat_id written st,
       let st' := state_of (Telegram.save_settings chat_id written st) in
       Telegram.get_settings chat_id st'
       = (inr (written ∪ Telegram.default_settings st), st', [])
       ∧ ∀ k, written !! k = None →
              (written ∪ Telegram.default_settings st) !! k
              = Telegram.default_settings st !! k).
Proof.
  split; [|split; [|split]].
  - intros g db. split; [apply Discord_get_settings_run|].
    intros k. apply overlay_lookup.
  - intros g written db. split.
    + rewrite Discord_get_settings_run.
      change (state_of (Discord.save_settings g written db))
        with (Db.save_settings g written db).
      by rewrite overrides_save.
    + intros k Hk. by rewrite overlay_lookup, Hk.
  - intros chat_id st. split; [apply Telegram_get_settings_run|].
    intros k. apply overlay_lookup.
  - intros chat_id written st st'. split.
    + rewrite Telegram_get_settings_run. subst st'.
      change (state_of (Telegram.save_settings chat_id written st))
        with (Telegram.on_db (Db.save_settings chat_id written) st).
      simpl. by rewrite overrides_save.
    + intros k Hk. by rewrite overlay_lookup, Hk.
Qed.

(** ** C7: failures of the classification call *)

Lemma failed_normalize resp :
  failed resp = true → normalize resp = JNull ∧ decoded resp = JNull.
Proof. by destruct resp. Qed.

Lemma Telegram_handle_text_failed tw u st :
  failed (Telegram.response u) = true →
  ∃ t, Telegram.handle_text tw u st = (inr tt, st, t)
       ∧ forallb is_api t = true.
Proof.
  intros Hf. destruct (failed_normalize _ Hf) as [Hn _].
  unfold Telegram.handle_text.
  destruct (Telegram.has_message u); simpl; [|by eexists].
  destruct (Telegram.text u) as [txt|]; [|by eexists].
  case_bool_decide; [by eexists|].
  destruct (Telegram.in_group u); simpl; [|by eexists].
  unfold bind. simpl. rewrite api_text_run, Hn, harmful_verdict_run.
  by eexists.
Qed.

Lemma Telegram_handle_voice_failed tw u st :
  failed (Telegram.response u) = true →
  ∃ t, Telegram.handle_voice tw u st = (inr tt, st, t)
       ∧ forallb is_api t = true.
Proof.
  intros Hf. destruct (failed_normalize _ Hf) as [_ Hn].
  unfold Telegram.handle_voice.
  destruct (Telegram.has_message u); simpl; [|by eexists].
  destruct (Telegram.in_group u); simpl; [|by eexists].
  destruct (Telegram.first_of _ _) as [v|]; [|by eexists].
  unfold bind. simpl. destruct (Telegram.download v) as [bytes|]; [|by eexists].
  destruct (api_audio_run (S:=Telegram.state) bytes "voice.ogg"
    (Db.get_violations (Telegram.chat_id u) (Telegram.from_user_id u)
       (Telegram.db st))
    (Telegram.sender_display_of u) (Telegram.response u) st)
    as (req & -> & Hreq).
  rewrite Hn, harmful_verdict_run. simpl. eexists. split; [done|].
  simpl. by rewrite Hreq.
Qed.

Lemma Telegram_handle_photo_failed tw u st :
  failed (Telegram.response u) = true →
  ∃ t, Telegram.handle_photo tw u st = (inr tt, st, t)
       ∧ forallb is_api t = true.
Proof.
  intros Hf. destruct (failed_normalize _ Hf) as [_ Hn].
  unfold Telegram.handle_photo.
  destruct (Telegram.has_message u); simpl; [|by eexists].
  destruct (Telegram.in_group u); simpl; [|by eexists].
  destruct (last _) as [ph|]; [|by eexists].
  unfold bind. simpl. destruct (Telegram.download ph) as [bytes|]; [|by eexists].
  destruct (api_image_run (S:=Telegram.state) bytes "photo.jpg"
    (Telegram.caption u)
    (Db.get_violations (Telegram.chat_id u) (Telegram.from_user_id u)
       (Telegram.db st))
    (Telegram.sender_display_of u) (Telegram.response u) st)
    as (req & -> & Hreq).
  rewrite Hn, harmful_verdict_run. simpl. eexists. split; [done|].
  simpl. by rewrite Hreq.
Qed.

Lemma Telegram_handle_video_failed tw u st :
  failed (Telegram.response u) = true →
  ∃ t, Telegram.handle_video tw u st = (inr tt, st, t)
       ∧ forallb is_api t = true.
Proof.
  intros Hf. destruct (failed_normalize _ Hf) as [_ Hn].
  unfold Telegram.handle_video.
  destruct (Telegram.has_message u); simpl; [|by eexists].
  destruct (Telegram.in_group u); simpl; [|by eexists].
  destruct (Telegram.first_of _ _) as [v|]; [|by eexists].
  unfold bind. simpl. case_bool_decide; [by eexists|].
  destruct (Telegram.download v) as [bytes|]; [|by eexists].
  destruct (api_video_run (S:=Telegram.state) bytes "video.mp4"
    (Telegram.caption u)
    (Db.get_violations (Telegram.chat_id u) (Telegram.from_user_id u)
       (Telegram.db st))
    (Telegram.sender_display_of u) (Telegram.response u) st)
    as (req & -> & Hreq).
  rewrite Hn, harmful_verdict_run. simpl. eexists. split; [done|].
  simpl. by rewrite Hreq.
Qed.

Lemma scan_attachments_failed atts :
  forallb (λ a, failed (Discord.response a)) atts = true →
  scan_attachments atts = NotFound.
Proof.
  induction atts as [|a rest IH]; simpl; [done|]. intros H.
  apply andb_prop in H as [Ha Hrest]. specialize (IH Hrest).
  destruct (failed_normalize _ Ha) as [_ Hn]. rewrite Hn, IH.
  by repeat case_match.
Qed.

Lemma Discord_detection_failed m :
  failed (Discord.text_response m) = true →
  forallb (λ a, failed (Discord.response a)) (Discord.attachments m) = true →
  Discord_detection m = NotFound.
Proof.
  intros Ht Ha. unfold Discord_detection.
  destruct (failed_normalize _ Ht) as [Hn _].
  rewrite Hn, (scan_attachments_failed _ Ha). by repeat case_match.
Qed.

(** C7.  [api_text] and the media callers never raise: they return a
    value for every outcome of the HTTP exchange, and that value is
    [None] when the request times out, the connection fails or the body
    is not JSON.  A handler whose classification call failed in one of
    these ways returns normally, leaves the database as it is and does
    nothing but the API request: no enforcement, no change of a count. *)
Theorem C7_classification_failure_is_absorbed :
  (∀ (S : Type) text sender_id sender_display prior settings resp (s : S),
     ∃ v req,
       api_text text sender_id sender_display prior settings resp s
       = (inr v, s, [req])
       ∧ (failed resp = true → v = JNull))
  ∧ (∀ (S : Type) file_bytes filename caption prior label resp (s : S),
       ∃ v1 v2 v3 r1 r2 r3,
         api_image file_bytes filename caption prior label resp s = (inr v1, s, [r1])
         ∧ api_audio file_bytes filename prior label resp s = (inr v2, s, [r2])
         ∧ api_video file_bytes filename caption prior label resp s = (inr v3, s, [r3])
         ∧ (failed resp = true → v1 = JNull ∧ v2 = JNull ∧ v3 = JNull))
  ∧ (∀ tw u st,
       failed (Telegram.response u) = true →
       ∀ handler, handler ∈ [Telegram.handle_text; Telegram.handle_voice;
                             Telegram.handle_photo; Telegram.handle_video] →
       ∃ t, handler tw u st = (inr tt, st, t)
            ∧ forallb is_api t = true
            ∧ detections t = 0%nat ∧ deletions t = 0%nat
            ∧ warnings t = 0%nat ∧ bans t = 0%nat)
  ∧ (∀ dw m db,
       failed (Discord.text_response m) = true →
       forallb (λ a, failed (Discord.response a)) (Discord.attachments m) = true →
       ∃ t, Discord.on_message dw m db = (inr tt, db, t)
            ∧ forallb is_api t = true
            ∧ detections t = 0%nat ∧ deletions t = 0%nat
            ∧ warnings t = 0%nat ∧ bans t = 0%nat).
Proof.
  split; [|split; [|split]].
  - intros. eexists _, _. split; [apply api_text_run|].
    intros Hf. by apply failed_normalize.
  - intros S file_bytes filename caption prior label resp s.
    destruct (api_image_run file_bytes filename caption prior label resp s)
      as (r1 & H1 & _).
    destruct (api_audio_run file_bytes filename prior label resp s)
      as (r2 & H2 & _).
    destruct (api_video_run file_bytes filename caption prior label resp s)
      as (r3 & H3 & _).
    exists (decoded resp), (decoded resp), (decoded resp), r1, r2, r3.
    repeat split; try done; by apply failed_normalize.
  - intros tw u st Hf handler Hin.
    assert (∃ t, handler tw u st = (inr tt, st, t) ∧ forallb is_api t = true)
      as (t & Hrun & Ht).
    { rewrite !elem_of_cons in Hin.
      destruct Hin as [->|[->|[->|[->|Hin]]]].
      - by apply Telegram_handle_text_failed.
      - by apply Telegram_handle_voice_failed.
      - by apply Telegram_handle_photo_failed.
      - by apply Telegram_handle_video_failed.
      - by apply elem_of_nil in Hin. }
    exists t. split; [done|]. split; [done|]. by apply api_only_counts.
  - intros dw m db Ht Ha.
    pose proof (Discord_on_message_run dw m db) as Hrun.
    rewrite (Discord_detection_failed m Ht Ha) in Hrun.
    destruct Hrun as (t & Hrun & Hapi).
    exists t. split; [done|]. split; [done|]. by apply api_only_counts.
Qed.

Lemma C7_witness :
  ∃ t, Telegram.handle_text Sample.telegram_ok Sample.unclassified_update
         Sample.telegram_one_violation
       = (inr tt, Sample.telegram_one_violation, t)
       ∧ forallb is_api t = true
       ∧ detections t = 0%nat ∧ deletions t = 0%nat
       ∧ warnings t = 0%nat ∧ bans t = 0%nat.
Proof.
  apply (proj1 (proj2 (proj2 C7_classification_failure_is_absorbed))
           Sample.telegram_ok Sample.unclassified_update
           Sample.telegram_one_violation eq_refl Telegram.handle_text).
  constructor.
Defined.

(** ** C8: normalization of the classification response *)

Lemma truthy_py_or a b : truthy (py_or a b) = truthy a || truthy b.
Proof. unfold py_or. by destruct (truthy a) eqn:E. Qed.

Lemma eq_str_true v s : eq_str v s = true ↔ v = JStr s.
Proof.
  destruct v; simpl; try (split; [done|by intros [=]]).
  rewrite bool_decide_eq_true. split; [by intros ->|by intros [= ->]].
Qed.

Lemma is_bad_result_spec d :
  is_bad_result d = true
  ↔ truthy (get "is_bad" d) = true ∨ get "status" d = JStr "bad".
Proof.
  unfold is_bad_result. rewrite truthy_py_or, orb_true_iff. simpl.
  by rewrite eq_str_true.
Qed.

(** C8 does not hold as stated: a body that is a mapping whose [results]
    entry is not a sequence (or is an empty one) has no element 0; the
    indexing raises inside the [try] and the call yields [None], not the
    body. *)
Lemma C8_counterexample :
  let body1 : json := JObj {[ "results" := JNum (Qc_of_Z 5) ]} in
  let body2 : json := JObj {[ "results" := JArr [] ]} in
  result_of (api_text "hello" "7" "mallory" 0 ∅ (Decoded 200 body1) empty_store)
  = inr JNull
  ∧ result_of (api_text "hello" "7" "mallory" 0 ∅ (Decoded 200 body2) empty_store)
    = inr JNull
  ∧ JNull ≠ body1.
Proof. vm_compute. done. Qed.

(** C8, amended.  If the decoded body is a mapping with a [results] key,
    the verdict is element 0 of that entry when it is a non-empty list
    (the first character when it is a non-empty string) and [None] when
    the entry is empty or cannot be indexed; otherwise the decoded body
    itself is the verdict.  The harmfulness test holds exactly when
    [is_bad] is truthy or [status] equals ["bad"].  Hence a wrapped
    response [{"results": [{"is_bad": true, ...}]}] and the bare
    [{"is_bad": true, ...}] give the same verdict, which passes the
    handlers' guard. *)
Theorem C8_response_normalization :
  (∀ (S : Type) text sender_id sender_display prior settings status data (s : S),
     result_of (api_text text sender_id sender_display prior settings
                  (Decoded status data) s)
     = inr match data with
           | JObj m =>
               match m !! "results" with
               | Some (JArr (x :: _)) => x
               | Some (JStr (String c _)) => JStr (String c "")
               | Some _ => JNull
               | None => data
               end
           | _ => data
           end)
  ∧ (∀ d, is_bad_result d = true
          ↔ truthy (get "is_bad" d) = true ∨ get "status" d = JStr "bad")
  ∧ (∀ (S : Type) text sender_id sender_display prior settings status d (s : S),
       d !! "is_bad" = Some (JBool true) →
       d !! "results" = None →
       result_of (api_text text sender_id sender_display prior settings
                    (Decoded status (JObj {[ "results" := JArr [JObj d] ]})) s)
       = inr (JObj d)
       ∧ result_of (api_text text sender_id sender_display prior settings
                      (Decoded status (JObj d)) s)
         = inr (JObj d)
       ∧ harmful_verdict (JObj d) s = (inr (Some d), s, [])).
Proof.
  split; [|split].
  - intros. rewrite api_text_run. simpl. f_equal.
    destruct data as [| | | | |m]; try done.
    destruct (m !! "results") as [[| | |[|c s']|[|x l]|]|]; done.
  - apply is_bad_result_spec.
  - intros S text sender_id sender_display prior settings status d s Hbad Hres.
    rewrite !api_text_run. simpl. rewrite lookup_singleton_eq, Hres. simpl.
    split; [done|]. split; [done|].
    rewrite harmful_verdict_run. unfold verdict_in. simpl.
    assert (d ≠ ∅) as Hne by (intros ->; by rewrite lookup_empty in Hbad).
    rewrite bool_decide_eq_false_2 by done. simpl.
    assert (is_bad_result d = true) as ->; [|done].
    apply is_bad_result_spec. left. unfold get. by rewrite Hbad.
Qed.

Lemma C8_witness :
  result_of (api_text "you will regret this" "7" "mallory" 1
               Discord.DEFAULT_SETTINGS
               (Decoded 200 (JObj {[ "results" :=
                  JArr [JObj (Sample.verdict Sample.float_0_90)] ]}))
               Sample.one_violation)
  = inr (JObj (Sample.verdict Sample.float_0_90))
  ∧ result_of (api_text "you will regret this" "7" "mallory" 1
                 Discord.DEFAULT_SETTINGS
                 (Decoded 200 (JObj (Sample.verdict Sample.float_0_90)))
                 Sample.one_violation)
    = inr (JObj (Sample.verdict Sample.float_0_90))
  ∧ harmful_verdict (JObj (Sample.verdict Sample.float_0_90))
      Sample.one_violation
    = (inr (Some (Sample.verdict Sample.float_0_90)), Sample.one_violation, []).
Proof.
  apply (proj2 (proj2 C8_response_normalization)); vm_compute; reflexivity.
Defined.

(** ** C9: editing the category sets *)

Lemma eq_str_false v s : eq_str v s = false ↔ v ≠ JStr s.
Proof.
  rewrite <- eq_str_true. by destruct (eq_str v s).
Qed.

Lemma contains_elem_of x l : Telegram.contains x l = true ↔ JStr x ∈ l.
Proof.
  unfold Telegram.contains. induction l as [|v l IH]; simpl.
  - split; [done|]. by intros ?%elem_of_nil.
  - rewrite orb_true_iff, IH, eq_str_true, elem_of_cons. naive_solver.
Qed.

Lemma contains_not_elem_of x l : Telegram.contains x l = false ↔ JStr x ∉ l.
Proof.
  rewrite <- contains_elem_of. by destruct (Telegram.contains x l).
Qed.

Lemma elem_of_remove_first x l v :
  NoDup l → v ∈ Telegram.remove_first x l ↔ v ∈ l ∧ v ≠ JStr x.
Proof.
  induction 1 as [|w l Hw Hnd IH]; simpl.
  - split; [by intros ?%elem_of_nil | by intros [?%elem_of_nil _]].
  - destruct (eq_str w x) eqn:E.
    + apply eq_str_true in E as ->. rewrite elem_of_cons.
      split; [|naive_solver].
      intros Hv. split; [by right|]. by intros ->.
    + apply eq_str_false in E.
      rewrite !elem_of_cons, IH. naive_solver.
Qed.

Lemma remove_first_appended x l :
  JStr x ∉ l → Telegram.remove_first x (l ++ [JStr x]) = l.
Proof.
  induction l as [|v l IH]; simpl; intros Hx.
  - by rewrite bool_decide_eq_true_2.
  - apply not_elem_of_cons in Hx as [Hne Hx].
    destruct (eq_str v x) eqn:E; [by apply eq_str_true in E|].
    by rewrite IH.
Qed.

Lemma toggled_flips x l :
  NoDup l → (JStr x ∈ toggled x l ↔ JStr x ∉ l).
Proof.
  intros Hnd. unfold toggled.
  destruct (Telegram.contains x l) eqn:E.
  - apply contains_elem_of in E. rewrite elem_of_remove_first by done.
    naive_solver.
  - apply contains_not_elem_of in E. unfold Telegram.append.
    rewrite elem_of_app, list_elem_of_singleton. naive_solver.
Qed.

Lemma toggled_twice x l v :
  NoDup l → v ∈ toggled x (toggled x l) ↔ v ∈ l.
Proof.
  intros Hnd. unfold toggled at 2.
  destruct (Telegram.contains x l) eqn:E.
  - apply contains_elem_of in E.
    assert (Telegram.contains x (Telegram.remove_first x l) = false) as E'.
    { apply contains_not_elem_of. rewrite elem_of_remove_first by done.
      naive_solver. }
    unfold toggled. rewrite E'. unfold Telegram.append.
    rewrite elem_of_app, list_elem_of_singleton, elem_of_remove_first by done.
    destruct (eq_str v x) eqn:Ev;
      [apply eq_str_true in Ev as ->|apply eq_str_false in Ev]; naive_solver.
  - apply contains_not_elem_of in E.
    assert (Telegram.contains x (Telegram.append x l) = true) as E'.
    { apply contains_elem_of. unfold Telegram.append.
      rewrite elem_of_app, list_elem_of_singleton. by right. }
    unfold toggled. rewrite E'. unfold Telegram.append.
    by rewrite remove_first_appended.
Qed.

Lemma Telegram_setting_lookup chat_id key st :
  Telegram_setting chat_id key st
  = (overrides chat_id (Telegram.db st) ∪ Telegram.default_settings st) !! key.
Proof. unfold Telegram_setting. by rewrite Telegram_get_settings_run. Qed.

Lemma Discord_setting_lookup g key db :
  Discord_setting g key db
  = (overrides g db ∪ Discord.DEFAULT_SETTINGS) !! key.
Proof. unfold Discord_setting. by rewrite Discord_get_settings_run. Qed.

(** The state a category toggle by an administrator leaves: the row of
    the chat holds the toggled list, and so does [DEFAULT_SETTINGS] when
    the toggled list object was its own. *)
Lemma Telegram_cattoggle_state round2_add w chat_id param cat_type cat_name
    status l st :
  Telegram.member_status w = Some status →
  Telegram.is_admin_status status = true →
  Telegram.split_colon param = Some (cat_type, cat_name) →
  Telegram_setting chat_id (category_key cat_type) st = Some (JArr l) →
  state_of (Telegram.settings_callback round2_add w chat_id "cattoggle" param st)
  = Telegram.State
      (Db.save_settings chat_id
         (<[category_key cat_type := JArr (toggled cat_name l)]>
            (overrides chat_id (Telegram.db st) ∪ Telegram.default_settings st))
         (Telegram.db st))
      (if bool_decide (overrides chat_id (Telegram.db st)
                         !! category_key cat_type = None)
       then <[category_key cat_type := JArr (toggled cat_name l)]>
              (Telegram.default_settings st)
       else Telegram.default_settings st).
Proof.
  intros Hstatus Hadmin Hsplit Hl. rewrite Telegram_setting_lookup in Hl.
  unfold Telegram.settings_callback. rewrite Hstatus, Hadmin. simpl.
  unfold bind at 1. rewrite Telegram_get_settings_run.
  unfold Telegram.cattoggle. rewrite Hsplit.
  fold (category_key cat_type).
  unfold bind, subscript. rewrite Hl. simpl.
  unfold overrides, toggled.
  destruct (settings_rows (Telegram.db st) !! chat_id) as [stored|]; simpl.
  - destruct (bool_decide (stored !! category_key cat_type = None));
      by destruct (Telegram.edit_ok w).
  - rewrite lookup_empty, bool_decide_eq_true_2 by done.
    by destruct (Telegram.edit_ok w).
Qed.

Lemma overlay_insert_covered (k : string) (v : json) (stored defaults : dict) :
  <[k := v]> ((<[k := v]> (stored ∪ defaults)) ∪ defaults)
  = <[k := v]> (stored ∪ defaults).
Proof.
  apply map_eq. intros j. destruct (decide (k = j)) as [->|Hne].
  - by rewrite !lookup_insert_eq.
  - rewrite !lookup_insert_ne by done.
    rewrite !lookup_union, lookup_insert_ne by done.
    rewrite lookup_union.
    by destruct (stored !! j), (defaults !! j).
Qed.




(** ** C10: one enforcement per Discord message *)

Lemma Discord_apply_verdict_bounds dw m d label db :
  let r := Discord.apply_verdict dw m d label db in
  (detections (trace_of r) ≤ 1 ∧ deletions (trace_of r) ≤ 1
   ∧ warnings (trace_of r) ≤ 1 ∧ bans (trace_of r) ≤ 1)%nat
  ∧ ∀ g u, Db.get_violations g u db ≤ Db.get_violations g u (state_of r)
           ≤ Db.get_violations g u db + 1.
Proof.
  cbv zeta.
  destruct (Discord.guild m) as [g'|] eqn:Hg.
  2:{ unfold Discord.apply_verdict. rewrite Hg. simpl.
      split; [unfold detections, deletions, warnings, bans; simpl; lia|].
      intros; unfold state_of, ret; simpl; lia. }
  destruct (Discord.author_is_member m) eqn:Hm.
  2:{ unfold Discord.apply_verdict. rewrite Hg, Hm. simpl.
      split; [unfold detections, deletions, warnings, bans; simpl; lia|].
      intros; unfold state_of, ret; simpl; lia. }
  destruct (Discord_apply_verdict_any dw m d label db g' Hg Hm)
    as [(Hs & Ht & _)|(Hs & Ht & _)].
  - rewrite Hs, Ht.
    split; [unfold detections, deletions, warnings, bans; simpl; lia|].
    intros; lia.
  - rewrite Hs. split.
    + apply prefix_counts in Ht.
      destruct (Discord_trace_counts dw
        (Db.get_violations g' (Discord.author_id m) db + 1)
        (confidence_of d)) as (E1 & E2 & E3 & E4).
      rewrite E1, E2, E3, E4 in Ht. destruct (ban_rule _ _); lia.
    + intros g u.
      destruct (decide ((g', Discord.author_id m) = (g, u))) as [[= <- <-]|Hne].
      * rewrite get_record_violation. lia.
      * rewrite get_record_violation_ne by done. lia.
Qed.

(** C10.  One Discord message event leads to at most one run of
    [apply_verdict]: the handler makes API requests and then either stops
    without touching anything, or runs [apply_verdict] once, on the first
    harmful verdict (text first, then the attachments in order), and
    ends.  So a message with several harmful parts raises the sender's
    count by at most one and is deleted, warned about and banned for at
    most once; when the text is harmful no attachment is classified. *)
Theorem C10_one_enforcement_per_message (dw : Discord.world)
    (m : Discord.message) (db : store) :
  let r := Discord.on_message dw m db in
  (detections (trace_of r) ≤ 1 ∧ deletions (trace_of r) ≤ 1
   ∧ warnings (trace_of r) ≤ 1 ∧ bans (trace_of r) ≤ 1)%nat
  ∧ (∀ g u, Db.get_violations g u db ≤ Db.get_violations g u (state_of r)
            ≤ Db.get_violations g u db + 1)
  ∧ match Discord_detection m with
    | Found d label =>
        ∃ t0, forallb is_api t0 = true
              ∧ r = (result_of (Discord.apply_verdict dw m d label db),
                     state_of (Discord.apply_verdict dw m d label db),
                     (t0 ++ trace_of (Discord.apply_verdict dw m d label db))%list)
    | _ => state_of r = db ∧ forallb is_api (trace_of r) = true
    end
  ∧ (∀ g d, Discord.guild m = Some g →
            Discord.author_bot m = false →
            nonblank (Discord.content m) = true →
            verdict_in (normalize (Discord.text_response m)) = Some d →
            ∃ req, is_api req = true
                   ∧ trace_of r
                     = req :: trace_of (Discord.apply_verdict dw m d "" db)).
Proof.
  cbv zeta. pose proof (Discord_on_message_run dw m db) as Hrun.
  assert (Hshape :
    match Discord_detection m with
    | Found d label =>
        ∃ t0, forallb is_api t0 = true
              ∧ Discord.on_message dw m db
                = (result_of (Discord.apply_verdict dw m d label db),
                   state_of (Discord.apply_verdict dw m d label db),
                   (t0 ++ trace_of (Discord.apply_verdict dw m d label db))%list)
    | _ => state_of (Discord.on_message dw m db) = db
           ∧ forallb is_api (trace_of (Discord.on_message dw m db)) = true
    end).
  { destruct (Discord_detection m); simpl in Hrun; [done| |];
      destruct Hrun as (t0 & Hr & Ht0); by rewrite Hr. }
  split; [|split; [|split; [exact Hshape|]]].
  - destruct (Discord_detection m) as [d label| |].
    + destruct Hshape as (t0 & Ht0 & Hr). rewrite Hr. simpl.
      destruct (api_only_counts _ Ht0) as (E1 & E2 & E3 & E4).
      rewrite detections_app, deletions_app, warnings_app, bans_app.
      rewrite E1, E2, E3, E4.
      apply (Discord_apply_verdict_bounds dw m d label db).
    + destruct Hshape as [_ Ht].
      destruct (api_only_counts _ Ht) as (-> & -> & -> & ->). lia.
    + destruct Hshape as [_ Ht].
      destruct (api_only_counts _ Ht) as (-> & -> & -> & ->). lia.
  - destruct (Discord_detection m) as [d label| |].
    + destruct Hshape as (t0 & Ht0 & Hr). rewrite Hr. simpl.
      apply (Discord_apply_verdict_bounds dw m d label db).
    + destruct Hshape as [Hr _]. rewrite Hr. intros; lia.
    + destruct Hshape as [Hr _]. rewrite Hr. intros; lia.
  - intros g d Hg Hbot Hnb Hv. clear Hshape Hrun.
    unfold Discord.on_message. rewrite Hg, Hbot, Hnb.
    unfold bind. simpl. rewrite api_text_run, harmful_verdict_run.
    destruct (normalize (Discord.text_response m)) as [| | | | |d'];
      try done.
    rewrite Hv. eexists. split; [|
      by destruct (Discord.apply_verdict dw m d "" db) as [[? ?] ?]].
    done.
Qed.

Lemma C10_witness :
  ∃ req, is_api req = true
         ∧ trace_of (Discord.on_message Sample.discord_ok
                       Sample.multipart_message Sample.one_violation)
           = req :: trace_of (Discord.apply_verdict Sample.discord_ok
                                Sample.multipart_message
                                (Sample.verdict Sample.float_0_90) ""
                                Sample.one_violation).
Proof.
  apply (proj2 (proj2 (proj2 (C10_one_enforcement_per_message
           Sample.discord_ok Sample.multipart_message Sample.one_violation)))
           10 (Sample.verdict Sample.float_0_90));
    vm_compute; reflexivity.
Defined.

(** The sample message with harmful text and two harmful attachments, and
    the one with a safe text and the same attachments: each raises the
    sender's count from 1 to 2 and is moderated once. *)
Example multipart_message_counts_once :
  let r := Discord.on_message Sample.discord_ok Sample.multipart_message
             Sample.one_violation in
  let r' := Discord.on_message Sample.discord_ok Sample.attachments_message
              Sample.one_violation in
  Db.get_violations 10 7 (state_of r) = 2 ∧ detections (trace_of r) = 1%nat
  ∧ Db.get_violations 10 7 (state_of r') = 2 ∧ detections (trace_of r') = 1%nat
  ∧ Discord_detection Sample.attachments_message
    = Found (Sample.verdict Sample.float_0_90) "Image".
Proof. vm_compute. done. Qed.

(** ** The shared defaults on Telegram *)

(** A category toggle in a chat that has no stored row changes the list
    held by [DEFAULT_SETTINGS]: another chat without a row then reads the
    toggled list as its default. *)
Example telegram_toggle_reaches_other_chats :
  let st1 := state_of (Telegram.settings_callback (λ a b, (a + b)%Qc)
                         Sample.telegram_ok 10 "cattoggle" "block:other"
                         Telegram.init) in
  Telegram_setting 11 "instant_block_categories" Telegram.init
  = Some (JArr [JStr "threat"; JStr "stalking"])
  ∧ Telegram_setting 11 "instant_block_categories" st1
    = Some (JArr [JStr "threat"; JStr "stalking"; JStr "other"]).
Proof. vm_compute. done. Qed.

(** * Further properties of the two bots *)

(** ** Escaping for MarkdownV2 *)

Lemma backslash_char_app ch s1 s2 :
  backslash_char ch (s1 +:+ s2)
  = backslash_char ch s1 +:+ backslash_char ch s2.
Proof.
  induction s1 as [|c s1 IH]; [done|].
  change (String c s1 +:+ s2) with (String c (s1 +:+ s2)).
  simpl. rewrite IH. by case_bool_decide.
Qed.

Lemma fold_backslash_app chars s1 s2 :
  fold_left (λ t ch, backslash_char ch t) chars (s1 +:+ s2)
  = fold_left (λ t ch, backslash_char ch t) chars s1
    +:+ fold_left (λ t ch, backslash_char ch t) chars s2.
Proof.
  revert s1 s2. induction chars as [|ch chars IH]; intros s1 s2; simpl; [done|].
  by rewrite backslash_char_app, IH.
Qed.

Lemma esc_str_char c :
  Telegram.esc_str (String c "")
  = if is_esc_char c then String (Ascii.ascii_of_N 92) (String c "")
    else String c "".
Proof. destruct c as [[] [] [] [] [] [] [] []]; vm_compute; reflexivity. Qed.

Lemma esc_str_cons c s :
  Telegram.esc_str (String c s)
  = Telegram.esc_str (String c "") +:+ Telegram.esc_str s.
Proof.
  unfold Telegram.esc_str. rewrite <- fold_backslash_app. done.
Qed.

(** X1. [esc] runs one [replace] per special character, the backslash
    first.  The result is the text with exactly one backslash put in
    front of each special character: backslashes added by an earlier
    [replace] are not escaped again by a later one.  Hence the escaped
    text is longer by the number of special characters. *)
Theorem X1_esc_escapes_each_special_character_once (s : string) :
  Telegram.esc_str s = escape_each s
  ∧ String.length (Telegram.esc_str s)
    = (String.length s + count_esc_chars s)%nat.
Proof.
  assert (E : Telegram.esc_str s = escape_each s).
  { induction s as [|c s IH]; [done|].
    rewrite esc_str_cons, esc_str_char, IH. simpl.
    by destruct (is_esc_char c). }
  split; [done|]. rewrite E. clear E.
  induction s as [|c s IH]; [done|]. simpl.
  destruct (is_esc_char c); simpl; rewrite IH; lia.
Qed.

(** ** What a message handler can do *)

(** A step that returns without a state change or an effect. *)
Lemma bind_silent {S A B} (m : M S A) (k : A → M S B) a s :
  m s = (inr a, s, []) → bind m k s = k a s.
Proof. unfold bind. intros ->. by destruct (k a s) as [[? ?] ?]. Qed.

(** A call that makes one request and leaves the state as it is. *)
Lemma bind_request {S A B} (call : M S A) (k : A → M S B) v req s :
  call s = (inr v, s, [req]) →
  bind call k s = (result_of (k v s), state_of (k v s), req :: trace_of (k v s)).
Proof. unfold bind. intros ->. by destruct (k v s) as [[? ?] ?]. Qed.

(** The guarded call of [apply_verdict] at the end of every Telegram
    handler. *)
Lemma Telegram_guard_cases w u result label st :
  let c := (verdict <- harmful_verdict result ;;
            match verdict with
            | Some d => Telegram.apply_verdict w u d (Telegram.chat_id u)
                          (Telegram.from_user_id u) label
            | None => ret tt
            end) in
  (state_of (c st) = st ∧ trace_of (c st) = [])
  ∨ ∃ d, verdict_in result = Some d
         ∧ c st = Telegram.apply_verdict w u d (Telegram.chat_id u)
                    (Telegram.from_user_id u) label st.
Proof.
  intros c. unfold c, bind. rewrite harmful_verdict_run.
  destruct result as [| | | | |d]; simpl; try (by left);
    try (destruct (negb _); by left); try (destruct b; by left).
  destruct (negb (bool_decide (d = ∅)) && is_bad_result d); [|by left].
  right. exists d. split; [done|].
  by destruct (Telegram.apply_verdict _ _ _ _ _ _ _) as [[? ?] ?].
Qed.

(** A run of a Telegram handler: at most one API request, then nothing
    or a run of [apply_verdict] on a harmful verdict. *)
Lemma Telegram_event_cases h w u st :
  let r := run_handler h w u st in
  ∃ t0 tv,
    trace_of r = (t0 ++ tv)%list ∧ forallb is_api t0 = true
    ∧ (length t0 ≤ 1)%nat
    ∧ ((state_of r = st ∧ tv = [])
       ∨ ∃ d label,
           is_bad_result d = true
           ∧ state_of r = state_of (Telegram.apply_verdict w u d
               (Telegram.chat_id u) (Telegram.from_user_id u) label st)
           ∧ tv = trace_of (Telegram.apply_verdict w u d
               (Telegram.chat_id u) (Telegram.from_user_id u) label st)).
Proof.
  assert (Hnone : ∀ r : (pyexn + unit) * Telegram.state * list effect,
    r = (inr tt, st, []) →
    ∃ t0 tv, trace_of r = (t0 ++ tv)%list ∧ forallb is_api t0 = true
      ∧ (length t0 ≤ 1)%nat
      ∧ ((state_of r = st ∧ tv = [])
         ∨ ∃ d label, is_bad_result d = true
             ∧ state_of r = state_of (Telegram.apply_verdict w u d
                 (Telegram.chat_id u) (Telegram.from_user_id u) label st)
             ∧ tv = trace_of (Telegram.apply_verdict w u d
                 (Telegram.chat_id u) (Telegram.from_user_id u) label st))).
  { intros r ->. exists [], []. simpl. repeat split; try done; try lia.
    by left. }
  assert (Hcall : ∀ (call : M Telegram.state json) v req label,
    call st = (inr v, st, [req]) → is_api req = true →
    let r := bind call (λ result,
               verdict <- harmful_verdict result ;;
               match verdict with
               | Some d => Telegram.apply_verdict w u d (Telegram.chat_id u)
                             (Telegram.from_user_id u) label
               | None => ret tt
               end) st in
    ∃ t0 tv, trace_of r = (t0 ++ tv)%list ∧ forallb is_api t0 = true
      ∧ (length t0 ≤ 1)%nat
      ∧ ((state_of r = st ∧ tv = [])
         ∨ ∃ d label, is_bad_result d = true
             ∧ state_of r = state_of (Telegram.apply_verdict w u d
                 (Telegram.chat_id u) (Telegram.from_user_id u) label st)
             ∧ tv = trace_of (Telegram.apply_verdict w u d
                 (Telegram.chat_id u) (Telegram.from_user_id u) label st))).
  { intros call v req label Hc Hreq r. unfold r.
    rewrite (bind_request _ _ _ _ _ Hc).
    pose proof (Telegram_guard_cases w u v label st) as Hg. cbv zeta in Hg.
    exists [req]. eexists. unfold trace_of at 1, state_of at 1.
    cbn [fst snd]. split; [reflexivity|]. cbn [forallb length].
    rewrite Hreq. split; [done|]. split; [done|].
    destruct Hg as [[Hs Ht]|(d & Hv & Hrun)]; [by left|].
    right. exists d, label. rewrite Hrun.
    split; [by eapply verdict_in_bad|done]. }
  destruct h; simpl.
  - unfold Telegram.handle_text.
    destruct (Telegram.has_message u); simpl; [|exact (Hnone _ eq_refl)].
    destruct (Telegram.text u) as [txt|]; [|exact (Hnone _ eq_refl)].
    case_bool_decide; [exact (Hnone _ eq_refl)|].
    destruct (Telegram.in_group u); simpl; [|exact (Hnone _ eq_refl)].
    rewrite (bind_silent (Telegram.get_violations _ _) _ _ st eq_refl).
    rewrite (bind_silent _ _ _ _ (Telegram_get_settings_run _ st)).
    exact (Hcall _ _ _ "" (api_text_run _ _ _ _ _ _ st) eq_refl).
  - unfold Telegram.handle_voice.
    destruct (Telegram.has_message u); simpl; [|exact (Hnone _ eq_refl)].
    destruct (Telegram.in_group u); simpl; [|exact (Hnone _ eq_refl)].
    destruct (Telegram.first_of _ _) as [v|]; [|exact (Hnone _ eq_refl)].
    rewrite (bind_silent (Telegram.get_violations _ _) _ _ st eq_refl).
    destruct (Telegram.download v) as [bytes|]; [|exact (Hnone _ eq_refl)].
    destruct (api_audio_run (S:=Telegram.state) bytes "voice.ogg"
      (Db.get_violations (Telegram.chat_id u) (Telegram.from_user_id u)
         (Telegram.db st))
      (Telegram.sender_display_of u) (Telegram.response u) st)
      as (req & Hrun & Hreq).
    exact (Hcall _ _ _ "Voice" Hrun Hreq).
  - unfold Telegram.handle_photo.
    destruct (Telegram.has_message u); simpl; [|exact (Hnone _ eq_refl)].
    destruct (Telegram.in_group u); simpl; [|exact (Hnone _ eq_refl)].
    destruct (last _) as [ph|]; [|exact (Hnone _ eq_refl)].
    rewrite (bind_silent (Telegram.get_violations _ _) _ _ st eq_refl).
    destruct (Telegram.download ph) as [bytes|]; [|exact (Hnone _ eq_refl)].
    destruct (api_image_run (S:=Telegram.state) bytes "photo.jpg"
      (Telegram.caption u)
      (Db.get_violations (Telegram.chat_id u) (Telegram.from_user_id u)
         (Telegram.db st))
      (Telegram.sender_display_of u) (Telegram.response u) st)
      as (req & Hrun & Hreq).
    exact (Hcall _ _ _ "Photo" Hrun Hreq).
  - unfold Telegram.handle_video.
    destruct (Telegram.has_message u); simpl; [|exact (Hnone _ eq_refl)].
    destruct (Telegram.in_group u); simpl; [|exact (Hnone _ eq_refl)].
    destruct (Telegram.first_of _ _) as [v|]; [|exact (Hnone _ eq_refl)].
    rewrite (bind_silent (Telegram.get_violations _ _) _ _ st eq_refl).
    case_bool_decide; [exact (Hnone _ eq_refl)|].
    destruct (Telegram.download v) as [bytes|]; [|exact (Hnone _ eq_refl)].
    destruct (api_video_run (S:=Telegram.state) bytes "video.mp4"
      (Telegram.caption u)
      (Db.get_violations (Telegram.chat_id u) (Telegram.from_user_id u)
         (Telegram.db st))
      (Telegram.sender_display_of u) (Telegram.response u) st)
      as (req & Hrun & Hreq).
    exact (Hcall _ _ _
      (match Telegram.animation u with Some _ => "GIF" | None => "Video" end)
      Hrun Hreq).
Qed.

Lemma Telegram_event_state_cases h w u st :
  state_of (run_handler h w u st) = st
  ∨ (Telegram.in_group u = true
     ∧ state_of (run_handler h w u st)
       = Telegram.on_db
           (record_violation (Telegram.chat_id u) (Telegram.from_user_id u)) st).
Proof.
  destruct (Telegram.in_group u) eqn:Hgroup.
  - pose proof (Telegram_event_cases h w u st) as H. cbv zeta in H.
    destruct H as (t0 & tv & _ & _ & _ & [[H _]|(d & label & _ & H & _)]);
      [by left|].
    rewrite H.
    pose proof (Telegram_apply_verdict_any w u d (Telegram.chat_id u)
                  (Telegram.from_user_id u) label st) as Hany.
    cbv zeta in Hany. destruct Hany as [(E & _)|(E & _)]; [by left|by right].
  - left. destruct h; simpl;
      [unfold Telegram.handle_text|unfold Telegram.handle_voice
      |unfold Telegram.handle_photo|unfold Telegram.handle_video];
      rewrite Hgroup; repeat case_match; done.
Qed.

Lemma Discord_apply_verdict_state_cases w m d label db :
  state_of (Discord.apply_verdict w m d label db) = db
  ∨ ∃ g, Discord.guild m = Some g
         ∧ state_of (Discord.apply_verdict w m d label db)
           = record_violation g (Discord.author_id m) db.
Proof.
  destruct (Discord.guild m) as [g|] eqn:Hg.
  2:{ left. unfold Discord.apply_verdict. by rewrite Hg. }
  destruct (Discord.author_is_member m) eqn:Hm.
  2:{ left. unfold Discord.apply_verdict. by rewrite Hg, Hm. }
  pose proof (Discord_apply_verdict_any w m d label db g Hg Hm) as H.
  cbv zeta in H. destruct H as [(E & _)|(E & _)]; [by left|].
  right. by exists g.
Qed.

Lemma Discord_on_message_state_cases w m db :
  state_of (Discord.on_message w m db) = db
  ∨ ∃ g, Discord.guild m = Some g
         ∧ state_of (Discord.on_message w m db)
           = record_violation g (Discord.author_id m) db.
Proof.
  pose proof (Discord_on_message_run w m db) as Hrun.
  destruct (Discord_detection m) as [d label| |]; simpl in Hrun.
  - destruct Hrun as (t0 & _ & ->). unfold state_of at 1 3. simpl.
    apply Discord_apply_verdict_state_cases.
  - destruct Hrun as (t0 & -> & _). by left.
  - destruct Hrun as (t0 & -> & _). by left.
Qed.

Lemma record_violation_frame g u db :
  settings_rows (record_violation g u db) = settings_rows db
  ∧ ∀ g' u', (g', u') ≠ (g, u) →
      Db.get_violations g' u' (record_violation g u db)
      = Db.get_violations g' u' db.
Proof. split; [done|]. intros g' u' Hne. by apply get_record_violation_ne. Qed.

(** X2. Messages outside a group are not moderated.  Every Telegram
    message handler returns at once in a chat that is neither a group nor
    a supergroup, and [on_message] returns at once for a direct message
    and for a message written by a bot: no request is sent to the
    classification API, nothing is stored and nothing is done, whatever
    the message holds. *)
Theorem X2_only_group_messages_of_users_are_scanned :
  (∀ h tw u st,
     Telegram.in_group u = false →
     run_handler h tw u st = (inr tt, st, []))
  ∧ (∀ dw m db,
       Discord.guild m = None → Discord.on_message dw m db = (inr tt, db, []))
  ∧ (∀ dw m db,
       Discord.author_bot m = true →
       Discord.on_message dw m db = (inr tt, db, [])).
Proof.
  split; [|split].
  - intros h tw u st Hgroup.
    destruct h; simpl;
      [unfold Telegram.handle_text|unfold Telegram.handle_voice
      |unfold Telegram.handle_photo|unfold Telegram.handle_video];
      rewrite Hgroup; repeat case_match; done.
  - intros dw m db Hg. unfold Discord.on_message. by rewrite Hg.
  - intros dw m db Hb. unfold Discord.on_message. rewrite Hb.
    by destruct (Discord.guild m).
Qed.

Lemma X2_witness :
  run_handler OnText Sample.telegram_ok Sample.private_update
    Sample.telegram_one_violation
  = (inr tt, Sample.telegram_one_violation, [])
  ∧ Discord.on_message Sample.discord_ok Sample.direct_message
      Sample.one_violation
    = (inr tt, Sample.one_violation, []).
Proof.
  split.
  - apply (proj1 X2_only_group_messages_of_users_are_scanned).
    vm_compute. reflexivity.
  - apply (proj1 (proj2 X2_only_group_messages_of_users_are_scanned)).
    vm_compute. reflexivity.
Defined.

(** X3. Enforcement writes one violation count and nothing else.  For
    every verdict, well typed or not, and every outcome of the platform
    calls, [apply_verdict] and the message handlers that call it leave
    the settings of every scope as they are (on Telegram also the shared
    defaults) and leave the count of every other (scope, user) pair as it
    is. *)
Theorem X3_enforcement_writes_one_count_only :
  (∀ dw m result label db,
     let db' := state_of (Discord.apply_verdict dw m result label db) in
     settings_rows db' = settings_rows db
     ∧ ∀ g u, (Some g, u) ≠ (Discord.guild m, Discord.author_id m) →
              Db.get_violations g u db' = Db.get_violations g u db)
  ∧ (∀ dw m db,
       let db' := state_of (Discord.on_message dw m db) in
       settings_rows db' = settings_rows db
       ∧ ∀ g u, (Some g, u) ≠ (Discord.guild m, Discord.author_id m) →
                Db.get_violations g u db' = Db.get_violations g u db)
  ∧ (∀ tw u result chat_id sender_id label st,
       let st' := state_of (Telegram.apply_verdict tw u result chat_id
                              sender_id label st) in
       settings_rows (Telegram.db st') = settings_rows (Telegram.db st)
       ∧ Telegram.default_settings st' = Telegram.default_settings st
       ∧ ∀ c s, (c, s) ≠ (chat_id, sender_id) →
                Db.get_violations c s (Telegram.db st')
                = Db.get_violations c s (Telegram.db st))
  ∧ (∀ h tw u st,
       let st' := state_of (run_handler h tw u st) in
       settings_rows (Telegram.db st') = settings_rows (Telegram.db st)
       ∧ Telegram.default_settings st' = Telegram.default_settings st
       ∧ ∀ c s, (c, s) ≠ (Telegram.chat_id u, Telegram.from_user_id u) →
                Db.get_violations c s (Telegram.db st')
                = Db.get_violations c s (Telegram.db st)).
Proof.
  split; [|split; [|split]].
  - intros dw m result label db db'. unfold db'.
    destruct (Discord_apply_verdict_state_cases dw m result label db)
      as [->|(g & Hg & ->)]; [done|].
    split; [done|]. intros g' u' Hne. apply get_record_violation_ne.
    rewrite Hg in Hne. congruence.
  - intros dw m db db'. unfold db'.
    destruct (Discord_on_message_state_cases dw m db)
      as [->|(g & Hg & ->)]; [done|].
    split; [done|]. intros g' u' Hne. apply get_record_violation_ne.
    rewrite Hg in Hne. congruence.
  - intros tw u result chat_id sender_id label st st'. unfold st'.
    pose proof (Telegram_apply_verdict_any tw u result chat_id sender_id
                  label st) as H.
    cbv zeta in H. destruct H as [(-> & _)|(-> & _)]; [done|].
    split; [done|]. split; [done|]. intros c s Hne.
    by apply get_record_violation_ne.
  - intros h tw u st st'. unfold st'.
    destruct (Telegram_event_state_cases h tw u st) as [->|[_ ->]]; [done|].
    split; [done|]. split; [done|]. intros c s Hne.
    by apply get_record_violation_ne.
Qed.

Lemma X3_witness :
  Db.get_violations 11 7
    (state_of (Discord.apply_verdict Sample.discord_ok Sample.message
                 (Sample.verdict float_0_80) "" Sample.one_violation))
  = Db.get_violations 11 7 Sample.one_violation.
Proof.
  apply (proj2 (proj1 X3_enforcement_writes_one_count_only Sample.discord_ok
                  Sample.message (Sample.verdict float_0_80) ""
                  Sample.one_violation) 11 7).
  vm_compute. discriminate.
Defined.

Lemma Telegram_events_counts events st c u :
  let st' := (handle_all Telegram_event events st).1 in
  Db.get_violations c u (Telegram.db st)
  ≤ Db.get_violations c u (Telegram.db st')
  ≤ Db.get_violations c u (Telegram.db st) + Z.of_nat (length events)
  ∧ settings_rows (Telegram.db st') = settings_rows (Telegram.db st)
  ∧ Telegram.default_settings st' = Telegram.default_settings st.
Proof.
  cbv zeta. revert st.
  induction events as [|[[h w] upd] events IH]; intros st;
    [simpl; repeat split; try done; lia|].
  cbn [handle_all fst]. unfold Telegram_event at 2 4 6 8. cbn [fst snd].
  specialize (IH (state_of (run_handler h w upd st))).
  destruct IH as (IH1 & IH2 & IH3). rewrite IH2, IH3.
  assert (Hlen : Z.of_nat (length ((h, w, upd) :: events))
                 = Z.of_nat (length events) + 1) by (simpl; lia).
  rewrite Hlen. clear Hlen.
  destruct (Telegram_event_state_cases h w upd st) as [E|[_ E]];
    rewrite E in *; [split; [lia|done]|].
  split; [|done]. simpl in IH1.
  destruct (decide ((c, u) = (Telegram.chat_id upd, Telegram.from_user_id upd)))
    as [[= -> ->]|Hne].
  - rewrite get_record_violation in IH1. lia.
  - rewrite (get_record_violation_ne c u) in IH1 by done. lia.
Qed.

Lemma Discord_events_counts events db g u :
  let db' := (handle_all Discord_message_event events db).1 in
  Db.get_violations g u db ≤ Db.get_violations g u db'
  ≤ Db.get_violations g u db + Z.of_nat (length events)
  ∧ settings_rows db' = settings_rows db.
Proof.
  cbv zeta. revert db.
  induction events as [|[w m] events IH]; intros db;
    [simpl; repeat split; try done; lia|].
  cbn [handle_all fst]. unfold Discord_message_event at 2 4 6. cbn [fst snd].
  specialize (IH (state_of (Discord.on_message w m db))).
  destruct IH as (IH1 & IH2). rewrite IH2.
  assert (Hlen : Z.of_nat (length ((w, m) :: events))
                 = Z.of_nat (length events) + 1) by (simpl; lia).
  rewrite Hlen. clear Hlen.
  destruct (Discord_on_message_state_cases w m db) as [E|(g' & _ & E)];
    rewrite E in *; [split; [lia|done]|].
  split; [|done].
  destruct (decide ((g, u) = (g', Discord.author_id m))) as [[= -> ->]|Hne].
  - rewrite get_record_violation in IH1. lia.
  - rewrite (get_record_violation_ne g u) in IH1 by done. lia.
Qed.

(** X4. Moderation only ever adds to a count.  Over every sequence of
    message events (text, voice, photo and video updates on Telegram,
    messages on Discord), whatever the API answers and whatever the
    platform calls do, the stored count of every (scope, user) pair never
    decreases and grows by at most the number of events, and the settings
    are the ones held before the sequence. *)
Theorem X4_counts_never_decrease :
  (∀ events st c u,
     let st' := (handle_all Telegram_event events st).1 in
     Db.get_violations c u (Telegram.db st)
     ≤ Db.get_violations c u (Telegram.db st')
     ≤ Db.get_violations c u (Telegram.db st) + Z.of_nat (length events)
     ∧ settings_rows (Telegram.db st') = settings_rows (Telegram.db st)
     ∧ Telegram.default_settings st' = Telegram.default_settings st)
  ∧ (∀ events db g u,
       let db' := (handle_all Discord_message_event events db).1 in
       Db.get_violations g u db ≤ Db.get_violations g u db'
       ≤ Db.get_violations g u db + Z.of_nat (length events)
       ∧ settings_rows db' = settings_rows db).
Proof.
  split.
  - intros events st c u. apply Telegram_events_counts.
  - intros events db g u. apply Discord_events_counts.
Qed.

(** ** The administrators' commands on Discord *)





(** ** The manual check *)

Lemma silent_subscript {S} k d : silent (S:=S) (subscript k d).
Proof. unfold subscript. destruct (d !! k); [apply silent_ret|apply silent_raise]. Qed.

Lemma Discord_check_tail_silent result :
  silent (match result with
          | JNull => ret ApiErrorNotice
          | JObj d =>
              let is_bad := get_default "is_bad" (JBool false) d in
              lift (join_check (get_default "category" (JArr []) d)) ;;
              let confidence := get_default "confidence" (JNum 0%Qc) d in
              let explanation := get_default "explanation" (JStr "") d in
              pct <- format_percent confidence ;;
              Discord.ai_note explanation ;;
              ret (CheckResult (truthy is_bad) pct)
          | _ => raise AttributeError
          end).
Proof.
  destruct result; try apply silent_raise; [apply silent_ret|].
  cbv zeta. apply silent_bind; [apply silent_lift|]. intros _.
  apply silent_bind; [apply silent_format_percent|]. intros pct.
  apply silent_bind; [apply silent_ai_note|]. intros _. apply silent_ret.
Qed.

Lemma Telegram_check_tail_silent result :
  silent (match result with
          | JNull => ret ApiErrorNotice
          | JObj d =>
              is_bad <- subscript "is_bad" d ;;
              lift (join_check (get_default "category" (JArr []) d)) ;;
              let confidence := get_default "confidence" (JNum 0%Qc) d in
              let action := get_default "action" (JStr "none") d in
              let explanation := get_default "explanation" (JStr "") d in
              pct <- format_percent confidence ;;
              Telegram.esc action ;;
              Telegram.esc explanation ;;
              ret (CheckResult (truthy is_bad) pct)
          | _ => raise TypeError
          end).
Proof.
  destruct result; try apply silent_raise; [apply silent_ret|].
  apply silent_bind; [apply silent_subscript|]. intros is_bad.
  apply silent_bind; [apply silent_lift|]. intros _. cbv zeta.
  apply silent_bind; [apply silent_format_percent|]. intros pct.
  apply silent_bind; [apply silent_esc|]. intros _.
  apply silent_bind; [apply silent_esc|]. intros _. apply silent_ret.
Qed.

(** X7. The manual check applies no moderation.  [/check] on either
    platform stores nothing (counts, settings and shared defaults are the
    ones held before), whatever text is checked and whatever the API
    answers, and performs no deletion, warning or ban; its only effect is
    at most one request to the text endpoint, sent for the fixed sender
    "check_user" with 0 prior violations; no request is sent when the
    first reply to the user fails and, on Telegram, when no text follows
    the command, which is answered with the usage notice. *)
Theorem X7_manual_check_is_read_only :
  (∀ defer_ok guild_id text resp db,
     ∃ res t,
       Discord.slash_check defer_ok guild_id text resp db = (res, db, t)
       ∧ (if defer_ok
          then ∃ settings,
                 t = [ApiPost "/analyze/messages"
                        (text_body (JStr text) (JStr "check_user")
                           (JStr "checked text") 0 settings)]
          else t = []))
  ∧ (∀ analyzing_ok u args resp st,
       ∃ res t,
         Telegram.cmd_check analyzing_ok u args resp st = (res, st, t)
         ∧ (t = []
            ∨ ∃ text settings,
                analyzing_ok = true
                ∧ text ≠ ""
                ∧ t = [ApiPost "/analyze/messages"
                         (text_body (JStr text) (JStr "check_user")
                            (JStr "checked text") 0 settings)]))
  ∧ (∀ analyzing_ok u resp st,
       Telegram.has_message u = true →
       Telegram.cmd_check analyzing_ok u [] resp st
       = (inr UsageNotice, st, [])).
Proof.
  split; [|split].
  - intros defer_ok guild_id text resp db. unfold Discord.slash_check.
    destruct defer_ok; [|by eexists _, _].
    rewrite (bind_silent (ret tt) _ tt db eq_refl).
    assert (Hs : ∃ settings,
      match guild_id with
      | Some g => if bool_decide (g = 0) then ret Discord.DEFAULT_SETTINGS
                  else Discord.get_settings g
      | None => ret Discord.DEFAULT_SETTINGS
      end db = (inr settings, db, [])).
    { destruct guild_id as [g|]; [case_bool_decide|]; eexists; reflexivity. }
    destruct Hs as [settings Hs]. rewrite (bind_silent _ _ _ _ Hs).
    rewrite (bind_request _ _ _ _ _ (api_text_run _ _ _ _ _ _ db)).
    destruct (Discord_check_tail_silent (normalize resp) db) as [r Hr].
    cbv beta zeta in Hr |- *. rewrite Hr. eexists _, _. split; [reflexivity|]. by exists settings.
  - intros analyzing_ok u args resp st. unfold Telegram.cmd_check.
    destruct (Telegram.has_message u); simpl; [|eexists _, _; by split; [|left]].
    case_bool_decide as Htext; [eexists _, _; by split; [|left]|].
    assert (Hs : ∃ settings,
      (if Telegram.in_group u then Telegram.get_settings (Telegram.chat_id u)
       else gets Telegram.default_settings) st = (inr settings, st, [])).
    { destruct (Telegram.in_group u); eexists; reflexivity. }
    destruct Hs as [settings Hs]. rewrite (bind_silent _ _ _ _ Hs).
    destruct analyzing_ok; [|eexists _, _; by split; [|left]].
    rewrite (bind_silent (ret tt) _ tt st eq_refl).
    rewrite (bind_request _ _ _ _ _ (api_text_run _ _ _ _ _ _ st)).
    destruct (Telegram_check_tail_silent (normalize resp) st) as [r Hr].
    cbv beta zeta in Hr |- *. rewrite Hr. eexists _, _. split; [reflexivity|]. right.
    by eexists _, settings.
  - intros analyzing_ok u resp st Hm. unfold Telegram.cmd_check.
    by rewrite Hm.
Qed.

Lemma X7_witness :
  Telegram.cmd_check true Sample.update [] Timeout Telegram.init
  = (inr UsageNotice, Telegram.init, []).
Proof.
  apply (proj2 (proj2 X7_manual_check_is_read_only) true Sample.update Timeout
           Telegram.init).
  vm_compute. reflexivity.
Defined.

(** ** The settings panel on Telegram *)

Lemma is_admin_status_of w :
  is_admin w = true →
  ∃ status, Telegram.member_status w = Some status
            ∧ Telegram.is_admin_status status = true.
Proof.
  unfold is_admin. destruct (Telegram.member_status w) as [status|]; [|done].
  intros H. by exists status.
Qed.

(** A state written by a save of the snapshot [s']. *)
Lemma Telegram_saved_setting chat_id s' store defaults k :
  Telegram_setting chat_id k
    (Telegram.State (Db.save_settings chat_id s' store) defaults)
  = (s' ∪ defaults) !! k.
Proof. rewrite Telegram_setting_lookup. simpl. by rewrite overrides_save. Qed.

Lemma Telegram_saved_other chat_id chat_id' s' store defaults k :
  chat_id' ≠ chat_id →
  Telegram_setting chat_id' k
    (Telegram.State (Db.save_settings chat_id s' store) defaults)
  = (overrides chat_id' store ∪ defaults) !! k.
Proof.
  intros Hne. rewrite Telegram_setting_lookup. unfold overrides. simpl.
  by rewrite lookup_insert_ne.
Qed.

Lemma platform_call_run {S} (e : bool → effect) ok (s : S) :
  platform_call e ok s = (if ok then inr tt else inl PlatformError, s, [e ok]).
Proof. done. Qed.

(** The state a settings callback leaves: the one before, or the one
    before with the row of the chat replaced by an edited snapshot; a
    category toggle can also write the edited list into the shared
    defaults. *)
Lemma Telegram_callback_cases round2_add w chat_id action param st :
  let r := Telegram.settings_callback round2_add w chat_id action param st in
  let s := overrides chat_id (Telegram.db st) ∪ Telegram.default_settings st in
  state_of r = st
  ∨ (∃ s', state_of r
           = Telegram.State (Db.save_settings chat_id s' (Telegram.db st))
               (Telegram.default_settings st)
           ∧ dom s' = dom s)
  ∨ (action = "cattoggle"
     ∧ ∃ key l',
         is_Some (s !! key)
         ∧ state_of r
           = Telegram.State
               (Db.save_settings chat_id (<[key := JArr l']> s) (Telegram.db st))
               (if bool_decide (overrides chat_id (Telegram.db st) !! key = None)
                then <[key := JArr l']> (Telegram.default_settings st)
                else Telegram.default_settings st)).
Proof.
  intros r s. unfold r, Telegram.settings_callback.
  destruct (Telegram.member_status w) as [status|]; [|by left].
  destruct (Telegram.is_admin_status status); simpl; [|by left].
  rewrite (bind_silent _ _ _ _ (Telegram_get_settings_run _ st)). fold s.
  assert (Hdom : ∀ k v, is_Some (s !! k) → dom (<[k := v]> s) = dom s).
  { intros k v Hk. rewrite dom_insert_L. apply elem_of_dom in Hk. set_solver. }
  assert (Hsave : ∀ s', dom s' = dom s →
    ∃ s'',
      state_of ((Telegram.save_settings chat_id s' ;;
                 platform_call UpdateMenu (Telegram.edit_ok w)) st)
      = Telegram.State (Db.save_settings chat_id s'' (Telegram.db st))
          (Telegram.default_settings st)
      ∧ dom s'' = dom s).
  { intros s' Hs'. exists s'. split; [|done].
    unfold bind, Telegram.save_settings, modify, platform_call. simpl.
    by destruct (Telegram.edit_ok w). }
  case_bool_decide; [by left|]. case_bool_decide; [by left|].
  case_bool_decide; [right; left; by apply Hsave|].
  case_bool_decide as Hct.
  - unfold Telegram.cattoggle.
    destruct (Telegram.split_colon param) as [[cat_type cat_name]|]; [|by left].
    fold (category_key cat_type). unfold bind at 1, subscript.
    destruct (s !! category_key cat_type) as [cats|] eqn:Hk; [|by left].
    unfold bind at 1, Telegram.shares_default, bind, gets, ret. simpl.
    fold (overrides chat_id (Telegram.db st)).
    assert (Hshared :
      match settings_rows (Telegram.db st) !! chat_id with
      | Some stored => bool_decide (stored !! category_key cat_type = None)
      | None => true
      end
      = bool_decide (overrides chat_id (Telegram.db st)
                       !! category_key cat_type = None)).
    { unfold overrides.
      destruct (settings_rows (Telegram.db st) !! chat_id); simpl; [done|].
      by rewrite lookup_empty, bool_decide_eq_true_2. }
    rewrite Hshared.
    destruct cats as [| | | |l|]; try by left.
    right. right. split; [done|].
    exists (category_key cat_type),
      (if Telegram.contains cat_name l then Telegram.remove_first cat_name l
       else Telegram.append cat_name l).
    split; [by rewrite Hk|].
    unfold modify, Telegram.save_settings, modify, platform_call,
      Telegram.set_default, Telegram.on_db.
    destruct (bool_decide (overrides chat_id (Telegram.db st)
                             !! category_key cat_type = None));
      simpl; by destruct (Telegram.edit_ok w).
  - assert (Hedit : ∀ (edit : M Telegram.state dict),
      (∀ st0, ∃ res, edit st0 = (res, st0, [])
                     ∧ ∀ s', res = inr s' → dom s' = dom s) →
      state_of ((s' <- edit ;;
                 Telegram.save_settings chat_id s' ;;
                 platform_call UpdateMenu (Telegram.edit_ok w)) st) = st
      ∨ ∃ s', state_of ((s' <- edit ;;
                         Telegram.save_settings chat_id s' ;;
                         platform_call UpdateMenu (Telegram.edit_ok w)) st)
              = Telegram.State (Db.save_settings chat_id s' (Telegram.db st))
                  (Telegram.default_settings st)
              ∧ dom s' = dom s).
    { intros edit He. destruct (He st) as (res & Hrun & Hres).
      destruct res as [e|s'].
      - left. unfold bind at 1. by rewrite Hrun.
      - rewrite (bind_silent _ _ _ _ Hrun). right.
        by apply Hsave, Hres. }
    assert (Hstep : ∀ key delta lo hi st0,
      ∃ res, Telegram.step_number key delta lo hi s st0 = (res, st0, [])
             ∧ ∀ s', res = inr s' → dom s' = dom s).
    { intros key delta lo hi st0. unfold Telegram.step_number, bind, subscript.
      destruct (s !! key) as [v|] eqn:Hk; [|by eexists].
      simpl. destruct (num_of v); [|by eexists].
      eexists. split; [done|]. intros s' [= <-]. apply Hdom. by rewrite Hk. }
    match goal with
    | |- context [bind ?edit _] =>
        destruct (Hedit edit) as [E|E]; [|by left|by right; left]
    end.
    intros st0. case_bool_decide.
    { unfold bind, subscript. destruct (s !! param) as [v|] eqn:Hk;
        [|by eexists].
      eexists. split; [reflexivity|]. intros s' [= <-]. apply Hdom.
      by rewrite Hk. }
    case_bool_decide.
    { unfold bind, subscript.
      destruct (s !! "min_confidence_for_action") as [v|] eqn:Hk;
        [|by eexists].
      simpl. destruct (num_of v); [|by eexists].
      eexists. split; [reflexivity|]. intros s' [= <-]. apply Hdom.
      by rewrite Hk. }
    case_bool_decide; [apply Hstep|]. case_bool_decide; [apply Hstep|].
    case_bool_decide; [apply Hstep|].
    eexists. split; [reflexivity|]. by intros s' [= <-].
Qed.

Lemma Telegram_number_edit_state round2_add w chat_id action param st
    key lo hi v q :
  is_admin w = true →
  numeric_setting action = Some (key, lo, hi) →
  Telegram_setting chat_id key st = Some v →
  num_of v = Some q →
  state_of (Telegram.settings_callback round2_add w chat_id action param st)
  = Telegram.State
      (Db.save_settings chat_id
         (<[key := JNum (Telegram.clamp lo hi (stepped round2_add action param q))]>
            (overrides chat_id (Telegram.db st) ∪ Telegram.default_settings st))
         (Telegram.db st))
      (Telegram.default_settings st).
Proof.
  intros Hadmin Hn Hv Hq. rewrite Telegram_setting_lookup in Hv.
  destruct (is_admin_status_of w Hadmin) as (status & Hs & Ha).
  unfold Telegram.settings_callback. rewrite Hs, Ha. cbn [negb].
  rewrite (bind_silent _ _ _ _ (Telegram_get_settings_run _ st)).
  unfold numeric_setting in Hn. unfold stepped, step_of.
  destruct (decide (action = "conf")) as [->|Hconf].
  { injection Hn as <- <- <-. simpl.
    unfold bind, subscript. rewrite Hv. simpl. rewrite Hq. simpl.
    by destruct (Telegram.edit_ok w). }
  rewrite (bool_decide_eq_false_2 _ Hconf) in Hn |- *.
  destruct (decide (action = "mute")) as [->|Hmute].
  { injection Hn as <- <- <-. simpl.
    unfold Telegram.step_number, bind, subscript. rewrite Hv. simpl.
    rewrite Hq. simpl. by destruct (Telegram.edit_ok w). }
  rewrite (bool_decide_eq_false_2 _ Hmute) in Hn |- *.
  destruct (decide (action = "muteth")) as [->|Hmuteth].
  { injection Hn as <- <- <-. simpl.
    unfold Telegram.step_number, bind, subscript. rewrite Hv. simpl.
    rewrite Hq. simpl. by destruct (Telegram.edit_ok w). }
  rewrite (bool_decide_eq_false_2 _ Hmuteth) in Hn.
  destruct (decide (action = "banth")) as [->|Hbanth]; [|
    by rewrite (bool_decide_eq_false_2 _ Hbanth) in Hn].
  injection Hn as <- <- <-. simpl.
  unfold Telegram.step_number, bind, subscript. rewrite Hv. simpl.
  rewrite Hq. simpl. by destruct (Telegram.edit_ok w).
Qed.

Lemma Telegram_number_edit_raises round2_add w chat_id action param st
    key lo hi v :
  is_admin w = true →
  numeric_setting action = Some (key, lo, hi) →
  Telegram_setting chat_id key st = Some v →
  num_of v = None →
  Telegram.settings_callback round2_add w chat_id action param st
  = (inl TypeError, st, []).
Proof.
  intros Hadmin Hn Hv Hq. rewrite Telegram_setting_lookup in Hv.
  destruct (is_admin_status_of w Hadmin) as (status & Hs & Ha).
  unfold Telegram.settings_callback. rewrite Hs, Ha. cbn [negb].
  rewrite (bind_silent _ _ _ _ (Telegram_get_settings_run _ st)).
  unfold numeric_setting in Hn.
  destruct (decide (action = "conf")) as [->|Hconf].
  { injection Hn as <- <- <-. simpl.
    unfold bind, subscript. rewrite Hv. simpl. by rewrite Hq. }
  rewrite (bool_decide_eq_false_2 _ Hconf) in Hn |- *.
  destruct (decide (action = "mute")) as [->|Hmute].
  { injection Hn as <- <- <-. simpl.
    unfold Telegram.step_number, bind, subscript. rewrite Hv. simpl.
    by rewrite Hq. }
  rewrite (bool_decide_eq_false_2 _ Hmute) in Hn |- *.
  destruct (decide (action = "muteth")) as [->|Hmuteth].
  { injection Hn as <- <- <-. simpl.
    unfold Telegram.step_number, bind, subscript. rewrite Hv. simpl.
    by rewrite Hq. }
  rewrite (bool_decide_eq_false_2 _ Hmuteth) in Hn.
  destruct (decide (action = "banth")) as [->|Hbanth]; [|
    by rewrite (bool_decide_eq_false_2 _ Hbanth) in Hn].
  injection Hn as <- <- <-. simpl.
  unfold Telegram.step_number, bind, subscript. rewrite Hv. simpl.
  by rewrite Hq.
Qed.

Lemma clamp_range lo hi v :
  (lo ≤ hi)%Qc → (lo ≤ Telegram.clamp lo hi v ≤ hi)%Qc.
Proof.
  intros H. unfold Telegram.clamp.
  repeat case_bool_decide; split; try apply Qcle_refl;
    auto using Qclt_le_weak, Qcnot_lt_le.
Qed.

Lemma clamp_id lo hi v :
  (lo ≤ v)%Qc → (v ≤ hi)%Qc → Telegram.clamp lo hi v = v.
Proof.
  intros H1 H2. unfold Telegram.clamp.
  repeat case_bool_decide; try done; apply Qcle_antisym;
    eauto using Qcnot_lt_le, Qcle_trans.
Qed.

Lemma numeric_setting_bounds action key lo hi :
  numeric_setting action = Some (key, lo, hi) → (lo ≤ hi)%Qc.
Proof.
  unfold numeric_setting.
  repeat case_bool_decide; intros [= <- <- <-] || intros [=];
    apply (bool_decide_eq_true_1 _); vm_compute; reflexivity.
Qed.

(** Reading back the key an edit has written, and the other keys. *)
Lemma Telegram_edited_setting chat_id key v store defaults (stored : dict) k :
  Telegram_setting chat_id k
    (Telegram.State
       (Db.save_settings chat_id (<[key := v]> (stored ∪ defaults)) store)
       defaults)
  = if bool_decide (k = key) then Some v else (stored ∪ defaults) !! k.
Proof.
  rewrite Telegram_saved_setting, lookup_union.
  case_bool_decide as Hk.
  - subst k. rewrite lookup_insert_eq.
    match goal with |- Some _ ∪ ?o = _ => by destruct o end.
  - rewrite lookup_insert_ne by done. rewrite lookup_union.
    destruct (stored !! k), (defaults !! k); done.
Qed.

(** X8. Only administrators change settings.  When the caller of a
    settings button is not an administrator or creator of the chat, or
    the membership lookup fails, [settings_callback] returns with the
    state as it was and the menu as it was, for every action and
    parameter the callback data may carry. *)
Theorem X8_settings_need_an_administrator
    (round2_add : Qc → Qc → Qc) (w : Telegram.world) (chat_id : Z)
    (action param : string) (st : Telegram.state) :
  is_admin w = false →
  Telegram.settings_callback round2_add w chat_id action param st
  = (inr tt, st, []).
Proof.
  unfold is_admin, Telegram.settings_callback.
  destruct (Telegram.member_status w) as [status|]; [|done].
  by intros ->.
Qed.

Lemma X8_witness :
  Telegram.settings_callback (λ a b, (a + b)%Qc) Sample.telegram_member 10
    "toggle" "auto_warn" Telegram.init
  = (inr tt, Telegram.init, []).
Proof.
  apply (X8_settings_need_an_administrator (λ a b, (a + b)%Qc)
           Sample.telegram_member 10 "toggle" "auto_warn" Telegram.init).
  vm_compute. reflexivity.
Defined.



Lemma signed_minus d :
  Telegram.signed "-" d = (- Telegram.signed "+" d)%Qc.
Proof.
  unfold Telegram.signed. simpl. apply Z2Qc_inj_opp.
Qed.

Lemma step_positive action :
  (0 ≤ Telegram.signed "+" (step_of action))%Qc.
Proof.
  unfold step_of, Telegram.signed. simpl. rewrite <- Z2Qc_inj_0.
  case_bool_decide; apply (proj1 (Z2Qc_inj_le 0 _)); lia.
Qed.

Lemma stepped_integer round2_add action param q :
  action ≠ "conf" →
  stepped round2_add action param q
  = (q + Telegram.signed param (step_of action))%Qc.
Proof. intros H. unfold stepped. by rewrite bool_decide_eq_false_2. Qed.



Lemma Telegram_toggle_state round2_add w chat_id param st v :
  is_admin w = true →
  Telegram_setting chat_id param st = Some v →
  state_of (Telegram.settings_callback round2_add w chat_id "toggle" param st)
  = Telegram.State
      (Db.save_settings chat_id
         (<[param := JBool (negb (truthy v))]>
            (overrides chat_id (Telegram.db st) ∪ Telegram.default_settings st))
         (Telegram.db st))
      (Telegram.default_settings st).
Proof.
  intros Hadmin Hv. rewrite Telegram_setting_lookup in Hv.
  destruct (is_admin_status_of w Hadmin) as (status & Hs & Ha).
  unfold Telegram.settings_callback. rewrite Hs, Ha. simpl.
  rewrite (bind_silent _ _ _ _ (Telegram_get_settings_run _ st)).
  unfold bind, subscript. rewrite Hv. simpl.
  by destruct (Telegram.edit_ok w).
Qed.

Lemma Discord_toggle_state g key db v :
  Discord_setting g key db = Some v →
  state_of (Discord.toggle_flag g key db)
  = Db.save_settings g
      (<[key := JBool (negb (truthy v))]>
         (overrides g db ∪ Discord.DEFAULT_SETTINGS)) db.
Proof.
  intros Hv. rewrite Discord_setting_lookup in Hv.
  unfold Discord.toggle_flag.
  rewrite (bind_silent _ _ _ _ (Discord_get_settings_run _ db)).
  unfold bind, subscript. by rewrite Hv.
Qed.

Lemma Discord_edited_setting g key v db (stored : dict) k :
  Discord_setting g k
    (Db.save_settings g (<[key := v]> (stored ∪ Discord.DEFAULT_SETTINGS)) db)
  = if bool_decide (k = key) then Some v
    else (stored ∪ Discord.DEFAULT_SETTINGS) !! k.
Proof.
  rewrite Discord_setting_lookup, overrides_save, lookup_union.
  case_bool_decide as Hk.
  - subst k. rewrite lookup_insert_eq.
    match goal with |- Some _ ∪ ?o = _ => by destruct o end.
  - rewrite lookup_insert_ne by done. rewrite lookup_union.
    destruct (stored !! k), (Discord.DEFAULT_SETTINGS !! k); done.
Qed.

(** X11. The on/off buttons flip and flip back.  On Telegram (action
    [toggle], pressed by administrators) and on Discord ([toggle_warn],
    [toggle_ban]), a flag that is read as [v] is read as the boolean
    [not v] after one press and as the truth value of [v] after two, so
    a boolean flag is back at its value; all other keys read as before
    the presses. *)
Theorem X11_flag_toggle_twice_restores :
  (∀ round2_add w1 w2 chat_id key st v,
     is_admin w1 = true →
     is_admin w2 = true →
     Telegram_setting chat_id key st = Some v →
     let st1 := state_of (Telegram.settings_callback round2_add w1 chat_id
                            "toggle" key st) in
     let st2 := state_of (Telegram.settings_callback round2_add w2 chat_id
                            "toggle" key st1) in
     Telegram_setting chat_id key st1 = Some (JBool (negb (truthy v)))
     ∧ Telegram_setting chat_id key st2 = Some (JBool (truthy v))
     ∧ ∀ k, k ≠ key →
            Telegram_setting chat_id k st1 = Telegram_setting chat_id k st
            ∧ Telegram_setting chat_id k st2 = Telegram_setting chat_id k st)
  ∧ (∀ g key db v,
       Discord_setting g key db = Some v →
       let db1 := state_of (Discord.toggle_flag g key db) in
       let db2 := state_of (Discord.toggle_flag g key db1) in
       Discord_setting g key db1 = Some (JBool (negb (truthy v)))
       ∧ Discord_setting g key db2 = Some (JBool (truthy v))
       ∧ ∀ k, k ≠ key →
              Discord_setting g k db1 = Discord_setting g k db
              ∧ Discord_setting g k db2 = Discord_setting g k db).
Proof.
  split.
  - intros round2_add w1 w2 chat_id key st v Hw1 Hw2 Hv st1 st2.
    assert (E1 : Telegram_setting chat_id key st1
                 = Some (JBool (negb (truthy v)))).
    { unfold st1. rewrite (Telegram_toggle_state _ _ _ _ _ _ Hw1 Hv).
      by rewrite Telegram_edited_setting, bool_decide_eq_true_2. }
    assert (O1 : ∀ k, k ≠ key →
      Telegram_setting chat_id k st1 = Telegram_setting chat_id k st).
    { intros k Hk. unfold st1.
      rewrite (Telegram_toggle_state _ _ _ _ _ _ Hw1 Hv).
      rewrite Telegram_edited_setting, bool_decide_eq_false_2 by done.
      by rewrite Telegram_setting_lookup. }
    split; [done|]. split.
    + unfold st2. rewrite (Telegram_toggle_state _ _ _ _ _ _ Hw2 E1).
      rewrite Telegram_edited_setting, bool_decide_eq_true_2 by done.
      simpl. by rewrite negb_involutive.
    + intros k Hk. split; [by apply O1|].
      unfold st2. rewrite (Telegram_toggle_state _ _ _ _ _ _ Hw2 E1).
      rewrite Telegram_edited_setting, bool_decide_eq_false_2 by done.
      rewrite <- Telegram_setting_lookup. by apply O1.
  - intros g key db v Hv db1 db2.
    assert (E1 : Discord_setting g key db1 = Some (JBool (negb (truthy v)))).
    { unfold db1. rewrite (Discord_toggle_state _ _ _ _ Hv).
      by rewrite Discord_edited_setting, bool_decide_eq_true_2. }
    assert (O1 : ∀ k, k ≠ key →
      Discord_setting g k db1 = Discord_setting g k db).
    { intros k Hk. unfold db1. rewrite (Discord_toggle_state _ _ _ _ Hv).
      rewrite Discord_edited_setting, bool_decide_eq_false_2 by done.
      by rewrite Discord_setting_lookup. }
    split; [done|]. split.
    + unfold db2. rewrite (Discord_toggle_state _ _ _ _ E1).
      rewrite Discord_edited_setting, bool_decide_eq_true_2 by done.
      simpl. by rewrite negb_involutive.
    + intros k Hk. split; [by apply O1|].
      unfold db2. rewrite (Discord_toggle_state _ _ _ _ E1).
      rewrite Discord_edited_setting, bool_decide_eq_false_2 by done.
      rewrite <- Discord_setting_lookup. by apply O1.
Qed.

Lemma X11_witness :
  let st1 := state_of (Telegram.settings_callback (λ a b, (a + b)%Qc)
                         Sample.telegram_ok 10 "toggle" "auto_mute"
                         Telegram.init) in
  let st2 := state_of (Telegram.settings_callback (λ a b, (a + b)%Qc)
                         Sample.telegram_ok 10 "toggle" "auto_mute" st1) in
  Telegram_setting 10 "auto_mute" st1 = Some (JBool (negb (truthy (JBool true))))
  ∧ Telegram_setting 10 "auto_mute" st2 = Some (JBool (truthy (JBool true)))
  ∧ ∀ k, k ≠ "auto_mute" →
         Telegram_setting 10 k st1 = Telegram_setting 10 k Telegram.init
         ∧ Telegram_setting 10 k st2 = Telegram_setting 10 k Telegram.init.
Proof.
  apply (proj1 X11_flag_toggle_twice_restores (λ a b, (a + b)%Qc)
           Sample.telegram_ok Sample.telegram_ok 10 "auto_mute" Telegram.init
           (JBool true));
    vm_compute; reflexivity.
Defined.

Lemma overrides_save_ne g g' settings db :
  g ≠ g' → overrides g (Db.save_settings g' settings db) = overrides g db.
Proof. intros Hne. unfold overrides. simpl. by rewrite lookup_insert_ne. Qed.

Lemma row_complete_spec chat_id st :
  row_complete chat_id st = true
  ↔ dom (Telegram.default_settings st) ⊆ dom (overrides chat_id (Telegram.db st)).
Proof. unfold row_complete. apply bool_decide_eq_true. Qed.

(** X12. A saved row shields the shared defaults.  Opening a category
    menu (action [cats], by an administrator) stores the full snapshot
    of the chat's settings without changing what is read; from then on
    the row of the chat overrides every key of [DEFAULT_SETTINGS], this
    stays so under every later settings callback in any chat, and no
    settings callback in that chat, category toggles included, changes
    the [DEFAULT_SETTINGS] object any more.  (The toggle buttons are on
    the category menu, which is shown by [cats].) *)
Theorem X12_saved_row_shields_the_defaults :
  (∀ round2_add w chat_id param st,
     is_admin w = true →
     let st' := state_of (Telegram.settings_callback round2_add w chat_id
                            "cats" param st) in
     row_complete chat_id st' = true
     ∧ Telegram.default_settings st' = Telegram.default_settings st
     ∧ ∀ k, Telegram_setting chat_id k st' = Telegram_setting chat_id k st)
  ∧ (∀ round2_add w chat_id chat_id' action param st,
       row_complete chat_id st = true →
       row_complete chat_id
         (state_of (Telegram.settings_callback round2_add w chat_id' action
                      param st)) = true)
  ∧ (∀ round2_add w chat_id action param st,
       row_complete chat_id st = true →
       Telegram.default_settings
         (state_of (Telegram.settings_callback round2_add w chat_id action
                      param st))
       = Telegram.default_settings st).
Proof.
  split; [|split].
  - intros round2_add w chat_id param st Hadmin st'.
    destruct (is_admin_status_of w Hadmin) as (status & Hs & Ha).
    assert (E : st' = Telegram.State
                  (Db.save_settings chat_id
                     (overrides chat_id (Telegram.db st)
                      ∪ Telegram.default_settings st) (Telegram.db st))
                  (Telegram.default_settings st)).
    { unfold st', Telegram.settings_callback. rewrite Hs, Ha. simpl.
      rewrite (bind_silent _ _ _ _ (Telegram_get_settings_run _ st)).
      unfold bind, Telegram.save_settings, modify, platform_call. simpl.
      by destruct (Telegram.edit_ok w). }
    rewrite E. split; [|split; [done|]].
    + apply row_complete_spec. simpl. rewrite overrides_save, dom_union_L.
      set_solver.
    + intros k. rewrite Telegram_saved_setting, Telegram_setting_lookup.
      rewrite !lookup_union.
      by destruct (overrides chat_id (Telegram.db st) !! k),
        (Telegram.default_settings st !! k).
  - intros round2_add w chat_id chat_id' action param st Hc.
    apply row_complete_spec in Hc. apply row_complete_spec.
    pose proof (Telegram_callback_cases round2_add w chat_id' action param st)
      as H.
    cbv zeta in H.
    destruct H as [->|[(s' & -> & Hd)|(_ & key & l' & Hk & ->)]]; [done| |].
    + simpl. destruct (decide (chat_id = chat_id')) as [->|Hne].
      * rewrite overrides_save, Hd, dom_union_L. set_solver.
      * by rewrite overrides_save_ne.
    + simpl.
      assert (Hdef : dom (if bool_decide (overrides chat_id' (Telegram.db st)
                                           !! key = None)
                          then <[key := JArr l']> (Telegram.default_settings st)
                          else Telegram.default_settings st)
                     = dom (Telegram.default_settings st)).
      { case_bool_decide as Ho; [|done].
        rewrite lookup_union, Ho in Hk. rewrite dom_insert_L.
        assert (key ∈ dom (Telegram.default_settings st)); [|set_solver].
        apply elem_of_dom. by rewrite (left_id_L None (∪)) in Hk. }
      rewrite Hdef. destruct (decide (chat_id = chat_id')) as [->|Hne].
      * rewrite overrides_save, dom_insert_L, dom_union_L. set_solver.
      * by rewrite overrides_save_ne.
  - intros round2_add w chat_id action param st Hc.
    apply row_complete_spec in Hc.
    pose proof (Telegram_callback_cases round2_add w chat_id action param st)
      as H.
    cbv zeta in H.
    destruct H as [->|[(s' & -> & Hd)|(_ & key & l' & Hk & ->)]]; [done..|].
    simpl. rewrite bool_decide_eq_false_2; [done|].
    intros Ho. rewrite lookup_union, Ho, (left_id_L None (∪)) in Hk.
    apply elem_of_dom in Hk. apply Hc in Hk. apply elem_of_dom in Hk.
    rewrite Ho in Hk. by destruct Hk.
Qed.

Lemma X12_witness :
  let st' := state_of (Telegram.settings_callback (λ a b, (a + b)%Qc)
                         Sample.telegram_ok 10 "cats" "block" Telegram.init) in
  Telegram.default_settings
    (state_of (Telegram.settings_callback (λ a b, (a + b)%Qc)
                 Sample.telegram_ok 10 "cattoggle" "block:other" st'))
  = Telegram.default_settings st'.
Proof.
  apply (proj2 (proj2 X12_saved_row_shields_the_defaults) (λ a b, (a + b)%Qc)
           Sample.telegram_ok 10 "cattoggle" "block:other").
  apply (proj1 (proj1 X12_saved_row_shields_the_defaults (λ a b, (a + b)%Qc)
                  Sample.telegram_ok 10 "block" Telegram.init eq_refl)).
Defined.

(** X13. Settings edits stay in their scope.  A settings callback on
    Telegram, whatever its action, parameter and caller, changes no
    violation count and no stored row of another chat; unless it is a
    category toggle it leaves [DEFAULT_SETTINGS] alone, so that every
    other chat reads all its settings as before.  On Discord the three
    kinds of settings edits (flag toggles, number selects, category
    selects) change no violation count and nothing that another guild
    reads. *)
Theorem X13_settings_edits_stay_in_their_scope :
  (∀ round2_add w chat_id action param st,
     let st' := state_of (Telegram.settings_callback round2_add w chat_id
                            action param st) in
     violations (Telegram.db st') = violations (Telegram.db st)
     ∧ (∀ c, c ≠ chat_id →
             settings_rows (Telegram.db st') !! c
             = settings_rows (Telegram.db st) !! c)
     ∧ (action ≠ "cattoggle" →
        Telegram.default_settings st' = Telegram.default_settings st
        ∧ ∀ c k, c ≠ chat_id →
                 Telegram_setting c k st' = Telegram_setting c k st))
  ∧ (let stays_in (g : Z) (edit : M store unit) : Prop :=
       ∀ db,
         violations (state_of (edit db)) = violations db
         ∧ ∀ g' k, g' ≠ g →
                   Discord_setting g' k (state_of (edit db))
                   = Discord_setting g' k db in
     (∀ g key, stays_in g (Discord.toggle_flag g key))
     ∧ (∀ g key value, stays_in g (Discord.select_callback g key value))
     ∧ (∀ g key values,
          stays_in g (Discord.CategorySelect_callback g key values))).
Proof.
  split.
  - intros round2_add w chat_id action param st st'.
    pose proof (Telegram_callback_cases round2_add w chat_id action param st)
      as H.
    cbv zeta in H. fold st' in H.
    destruct H as [->|[(s' & -> & Hd)|(Hact & key & l' & Hk & ->)]].
    + done.
    + simpl. split; [done|]. split.
      * intros c Hc. by rewrite lookup_insert_ne.
      * intros _. split; [done|]. intros c k Hc.
        rewrite Telegram_saved_other by done.
        by rewrite Telegram_setting_lookup.
    + simpl. split; [done|]. split; [|done].
      intros c Hc. by rewrite lookup_insert_ne.
  - assert (Hsaved : ∀ g (edit : M store unit) db,
      state_of (edit db) = db
      ∨ (∃ s', state_of (edit db) = Db.save_settings g s' db) →
      violations (state_of (edit db)) = violations db
      ∧ ∀ g' k, g' ≠ g →
                Discord_setting g' k (state_of (edit db))
                = Discord_setting g' k db).
    { intros g edit db [->|[s' ->]]; [done|]. split; [done|].
      intros g' k Hg. rewrite !Discord_setting_lookup.
      by rewrite overrides_save_ne. }
    cbv zeta. split; [|split].
    + intros g key db. apply Hsaved. unfold Discord.toggle_flag.
      rewrite (bind_silent _ _ _ _ (Discord_get_settings_run _ db)).
      unfold bind, subscript.
      destruct (_ !! key); [right; by eexists|by left].
    + intros g key value db. apply Hsaved. right.
      unfold Discord.select_callback.
      rewrite (bind_silent _ _ _ _ (Discord_get_settings_run _ db)).
      by eexists.
    + intros g key values db. apply Hsaved. right.
      unfold Discord.CategorySelect_callback.
      rewrite (bind_silent _ _ _ _ (Discord_get_settings_run _ db)).
      by eexists.
Qed.

Lemma X13_witness :
  Telegram_setting 11 "auto_warn"
    (state_of (Telegram.settings_callback (λ a b, (a + b)%Qc)
                 Sample.telegram_ok 10 "toggle" "auto_warn" Telegram.init))
  = Telegram_setting 11 "auto_warn" Telegram.init.
Proof.
  apply (proj2 (proj2 (proj2 (proj1 X13_settings_edits_stay_in_their_scope
           (λ a b, (a + b)%Qc) Sample.telegram_ok 10 "toggle" "auto_warn"
           Telegram.init))
           ltac:(vm_compute; discriminate)) 11 "auto_warn").
  vm_compute. discriminate.
Defined.

(** ** Callback data of the menus *)

Lemma app_cons c s1 s2 : String c s1 +:+ s2 = String c (s1 +:+ s2).
Proof. done. Qed.

Lemma split_once_app sep a b :
  free_of sep a = true →
  split_once sep (a +:+ String sep b) = Some (a, b).
Proof.
  induction a as [|c a IH]; simpl.
  - intros _. by rewrite bool_decide_eq_true_2.
  - intros H. apply andb_prop in H as [Hc Ha].
    apply negb_true_iff in Hc. rewrite Hc. by rewrite (IH Ha).
Qed.

Lemma split_colon_app colon a b :
  String colon "" = ":" →
  free_of colon a = true →
  Telegram.split_colon (a +:+ String colon b) = Some (a, b).
Proof.
  intros Hcolon. induction a as [|c a IH]; simpl.
  - intros _. by rewrite bool_decide_eq_true_2.
  - intros H. apply andb_prop in H as [Hc Ha].
    apply negb_true_iff, bool_decide_eq_false in Hc.
    rewrite bool_decide_eq_false_2
      by (rewrite <- Hcolon; intros [= E]; by apply Hc).
    by rewrite (IH Ha).
Qed.

Lemma pretty_N_go_free c x s :
  (∀ d, pretty_N_char d ≠ c) →
  free_of c s = true → free_of c (pretty_N_go x s) = true.
Proof.
  intros Hc. revert s. induction (N.lt_wf_0 x) as [x _ IH]. intros s Hs.
  assert (x = 0 ∨ 0 < x)%N as [->|Hx] by lia.
  - by rewrite pretty_N_go_0.
  - rewrite pretty_N_go_step by done. apply IH; [by apply N.div_lt|].
    simpl. rewrite Hs, bool_decide_eq_false_2 by apply Hc. done.
Qed.

Lemma pretty_Z_free c (z : Z) :
  (∀ d, pretty_N_char d ≠ c) → c ≠ Ascii.ascii_of_N 45 →
  free_of c (pretty z) = true.
Proof.
  intros Hc Hdash.
  assert (Hpos : ∀ p : positive, free_of c (pretty (N.pos p)) = true).
  { intros p. unfold pretty, pretty_N. rewrite decide_False by done.
    by apply pretty_N_go_free. }
  destruct z as [|p|p]; unfold pretty, pretty_Z.
  - simpl. rewrite bool_decide_eq_false_2; [done|].
    apply (Hc 0%N).
  - apply Hpos.
  - change ("-" +:+ pretty p) with (String (Ascii.ascii_of_N 45) (pretty p)).
    simpl. rewrite bool_decide_eq_false_2 by done. apply Hpos.
Qed.

Lemma pretty_Z_free_of_bar (z : Z) :
  free_of (Ascii.ascii_of_N 124) (pretty z) = true.
Proof.
  apply pretty_Z_free; [|done].
  intros d. unfold pretty_N_char. by repeat case_match.
Qed.

Lemma stg_unfold chat_id action param :
  Telegram.stg chat_id action param
  = "stg" +:+ String (Ascii.ascii_of_N 124)
      (pretty chat_id +:+ String (Ascii.ascii_of_N 124)
         (action +:+ String (Ascii.ascii_of_N 124) param)).
Proof. done. Qed.

(** The data [stg|<chat>|<action>|<param>] is taken apart as it was put
    together. *)
Lemma route_stg chat_id action param :
  free_of (Ascii.ascii_of_N 124) action = true →
  Telegram.route_callback (Telegram.stg chat_id action param)
  = inr (Telegram.RouteSettings (pretty chat_id) action param).
Proof.
  intros Haction. unfold Telegram.route_callback. rewrite stg_unfold.
  simpl. unfold startswith. cbn [String.prefix negb].
  change (Ascii.ascii_of_pos 124) with (Ascii.ascii_of_N 124).
  rewrite (split_once_app _ _ _ (pretty_Z_free_of_bar chat_id)).
  rewrite (split_once_app _ _ _ Haction).
  assert (Hp : ∀ x, String.prefix "" x = true) by (by intros [|? ?]).
  by rewrite Hp.
Qed.

Lemma category_rows_ok chat_id cat_type current cats st rows :
  result_of (Telegram.category_rows chat_id cat_type current cats st)
  = inr rows →
  rows = (λ c, [Telegram.Button (Some (mark_of c current))
                  (Telegram.stg chat_id "cattoggle" (cat_type +:+ ":" +:+ c))])
         <$> cats.
Proof.
  revert rows. induction cats as [|c cats IH]; intros rows.
  - by intros [= <-].
  - cbn [Telegram.category_rows]. unfold bind at 1, lift.
    destruct (py_in c current) as [e|mark] eqn:Hpy; [done|]. simpl.
    unfold bind at 1.
    destruct (Telegram.category_rows chat_id cat_type current cats st)
      as [[[e|rows'] st'] t']; [done|].
    simpl. intros [= <-]. rewrite (IH rows' eq_refl).
    unfold mark_of. by rewrite Hpy.
Qed.

Lemma category_menu_ok chat_id cat_type st rows :
  result_of (Telegram.category_menu chat_id cat_type st) = inr rows →
  ∃ current,
    Telegram_setting chat_id (category_key cat_type) st = Some current
    ∧ rows
      = (((λ c, [Telegram.Button (Some (mark_of c current))
                   (Telegram.stg chat_id "cattoggle"
                      (cat_type +:+ ":" +:+ c))])
          <$> ALL_CATEGORIES)
         ++ [[Telegram.Button None (Telegram.stg chat_id "back" "")]])%list.
Proof.
  unfold Telegram.category_menu.
  rewrite (bind_silent _ _ _ _ (Telegram_get_settings_run _ st)).
  fold (category_key cat_type). rewrite Telegram_setting_lookup.
  destruct (_ !! category_key cat_type) as [current|] eqn:Hk.
  2:{ unfold bind, subscript. by rewrite Hk. }
  assert (Hsub : subscript (S:=Telegram.state) (category_key cat_type)
                   (overrides chat_id (Telegram.db st)
                    ∪ Telegram.default_settings st) st
                 = (inr current, st, [])).
  { unfold subscript. by rewrite Hk. }
  rewrite (bind_silent _ _ _ _ Hsub). unfold bind at 1.
  destruct (Telegram.category_rows chat_id cat_type current ALL_CATEGORIES st)
    as [[[e|rows'] st'] t'] eqn:E; [done|].
  unfold result_of, ret. cbn [fst]. intros [= <-].
  exists current. split; [done|].
  f_equal. apply (category_rows_ok chat_id cat_type current ALL_CATEGORIES st).
  by rewrite E.
Qed.

Lemma settings_menu_ok chat_id st rows :
  result_of (Telegram.settings_menu chat_id st) = inr rows →
  ∃ aw am ab,
    Telegram_setting chat_id "auto_warn" st = Some aw
    ∧ Telegram_setting chat_id "auto_mute" st = Some am
    ∧ Telegram_setting chat_id "auto_block" st = Some ab
    ∧ rows
      = [ [ Telegram.Button (Some (truthy aw))
              (Telegram.stg chat_id "toggle" "auto_warn");
            Telegram.Button (Some (truthy am))
              (Telegram.stg chat_id "toggle" "auto_mute");
            Telegram.Button (Some (truthy ab))
              (Telegram.stg chat_id "toggle" "auto_block") ];
          [ Telegram.Button None (Telegram.stg chat_id "conf" "-");
            Telegram.Button None "noop";
            Telegram.Button None (Telegram.stg chat_id "conf" "+") ];
          [ Telegram.Button None (Telegram.stg chat_id "mute" "-");
            Telegram.Button None "noop";
            Telegram.Button None (Telegram.stg chat_id "mute" "+") ];
          [ Telegram.Button None (Telegram.stg chat_id "muteth" "-");
            Telegram.Button None "noop";
            Telegram.Button None (Telegram.stg chat_id "muteth" "+") ];
          [ Telegram.Button None (Telegram.stg chat_id "banth" "-");
            Telegram.Button None "noop";
            Telegram.Button None (Telegram.stg chat_id "banth" "+") ];
          [ Telegram.Button None (Telegram.stg chat_id "cats" "mute");
            Telegram.Button None (Telegram.stg chat_id "cats" "block") ];
          [ Telegram.Button None (Telegram.stg chat_id "close" "") ] ].
Proof.
  unfold Telegram.settings_menu.
  rewrite (bind_silent _ _ _ _ (Telegram_get_settings_run _ st)).
  rewrite !Telegram_setting_lookup.
  set (s := overrides chat_id (Telegram.db st) ∪ Telegram.default_settings st).
  unfold bind, subscript, lift.
  destruct (s !! "auto_warn") as [aw|]; [|done]. simpl.
  destruct (s !! "auto_mute") as [am|]; [|done]. simpl.
  destruct (s !! "auto_block") as [ab|]; [|done]. simpl.
  destruct (s !! "instant_mute_categories") as [imute|]; [|done]. simpl.
  destruct (join_check imute); [done|]. simpl.
  destruct (s !! "instant_block_categories") as [iblock|]; [|done]. simpl.
  destruct (join_check iblock); [done|]. simpl.
  destruct (s !! "min_confidence_for_action"); [|done]. simpl.
  destruct (s !! "mute_minutes"); [|done]. simpl.
  destruct (s !! "mute_threshold_violations"); [|done]. simpl.
  destruct (s !! "block_threshold_violations"); [|done]. simpl.
  intros [= <-]. by exists aw, am, ab.
Qed.

(** X14. Every button of the settings menus leads back to the action it
    stands for.  Callback data built as [stg|<chat>|<action>|<param>] are
    split by [settings_callback] into the decimal chat id, the action and
    the parameter they were built from (negative chat ids and parameters
    holding further bars included), and different chats, actions or
    parameters never give the same data.  Every button of the main menu
    is the inert [noop] button or routes to one of the seven actions the
    callback handles, for the chat the menu was built for; the button of
    the i-th category in a category menu routes to [cattoggle] with a
    parameter that splits into the menu's kind and that category, and the
    last button routes to [back]. *)
Theorem X14_menu_buttons_route_to_their_action :
  (∀ chat_id action param,
     free_of (Ascii.ascii_of_N 124) action = true →
     Telegram.route_callback (Telegram.stg chat_id action param)
     = inr (Telegram.RouteSettings (pretty chat_id) action param))
  ∧ (∀ chat_id action param chat_id' action' param',
       free_of (Ascii.ascii_of_N 124) action = true →
       free_of (Ascii.ascii_of_N 124) action' = true →
       Telegram.stg chat_id action param = Telegram.stg chat_id' action' param' →
       chat_id = chat_id' ∧ action = action' ∧ param = param')
  ∧ (∀ chat_id st rows b,
       result_of (Telegram.settings_menu chat_id st) = inr rows →
       b ∈ concat rows →
       Telegram.route_callback (Telegram.callback_data b)
       = inr Telegram.RouteNoop
       ∨ ∃ action param,
           action ∈ menu_actions
           ∧ Telegram.route_callback (Telegram.callback_data b)
             = inr (Telegram.RouteSettings (pretty chat_id) action param))
  ∧ (∀ chat_id cat_type st rows,
       free_of (Ascii.ascii_of_N 58) cat_type = true →
       result_of (Telegram.category_menu chat_id cat_type st) = inr rows →
       length rows = S (length ALL_CATEGORIES)
       ∧ (∀ i c,
            ALL_CATEGORIES !! i = Some c →
            ∃ b param,
              rows !! i = Some [b]
              ∧ Telegram.route_callback (Telegram.callback_data b)
                = inr (Telegram.RouteSettings (pretty chat_id) "cattoggle"
                         param)
              ∧ Telegram.split_colon param = Some (cat_type, c))
       ∧ ∃ b, rows !! length ALL_CATEGORIES = Some [b]
              ∧ Telegram.route_callback (Telegram.callback_data b)
                = inr (Telegram.RouteSettings (pretty chat_id) "back" "")).
Proof.
  split; [exact route_stg|]. split; [|split].
  - intros chat_id action param chat_id' action' param' Ha Ha' E.
    pose proof (route_stg chat_id action param Ha) as H.
    rewrite E, (route_stg chat_id' action' param' Ha') in H.
    injection H as Hc -> ->. by apply (inj pretty) in Hc.
  - intros chat_id st rows b Hrows Hb.
    destruct (settings_menu_ok chat_id st rows Hrows)
      as (aw & am & ab & _ & _ & _ & ->).
    simpl in Hb.
    repeat (apply elem_of_cons in Hb as [->|Hb]);
      [..|by apply elem_of_nil in Hb];
      first [ by left
            | right; do 2 eexists; split; cycle 1;
              [apply route_stg; reflexivity
              |unfold menu_actions; set_solver] ].
  - intros chat_id cat_type st rows Hcolon Hrows.
    destruct (category_menu_ok chat_id cat_type st rows Hrows)
      as (current & _ & ->).
    split; [by rewrite length_app, length_fmap, Nat.add_1_r|]. split.
    + intros i c Hi. eexists _, _. split; [|split].
      * rewrite lookup_app_l
          by (rewrite length_fmap; by eapply lookup_lt_Some).
        by rewrite list_lookup_fmap, Hi.
      * by apply route_stg.
      * by apply (split_colon_app (Ascii.ascii_of_N 58)).
    + eexists. split.
      * rewrite lookup_app_r by (by rewrite length_fmap).
        by rewrite length_fmap, Nat.sub_diag.
      * by apply route_stg.
Qed.

Lemma X14_witness :
  Telegram.route_callback (Telegram.stg (-1001234) "cattoggle" "block:other")
  = inr (Telegram.RouteSettings (pretty (-1001234)) "cattoggle" "block:other").
Proof.
  apply (proj1 X14_menu_buttons_route_to_their_action (-1001234) "cattoggle"
           "block:other").
  vm_compute. reflexivity.
Defined.

Lemma elem_of_toggled_ne x l v :
  NoDup l → v ≠ JStr x → v ∈ toggled x l ↔ v ∈ l.
Proof.
  intros Hnd Hv. unfold toggled. destruct (Telegram.contains x l).
  - rewrite elem_of_remove_first by done. naive_solver.
  - unfold Telegram.append. rewrite elem_of_app, list_elem_of_singleton.
    naive_solver.
Qed.

Lemma contains_toggled c c' l :
  NoDup l →
  Telegram.contains c' (toggled c l)
  = if bool_decide (c' = c) then negb (Telegram.contains c' l)
    else Telegram.contains c' l.
Proof.
  intros Hnd. case_bool_decide as E.
  - subst c'. destruct (Telegram.contains c l) eqn:Hc; simpl.
    + apply contains_not_elem_of. apply contains_elem_of in Hc.
      intros Hin. by apply toggled_flips in Hin.
    + apply contains_elem_of. apply toggled_flips; [done|].
      by apply contains_not_elem_of.
  - assert (Hne : JStr c' ≠ JStr c) by congruence.
    destruct (Telegram.contains c' l) eqn:Hc.
    + apply contains_elem_of. apply elem_of_toggled_ne; [done..|].
      by apply contains_elem_of.
    + apply contains_not_elem_of. rewrite elem_of_toggled_ne by done.
      by apply contains_not_elem_of.
Qed.

Lemma category_menu_list chat_id cat_type st l :
  Telegram_setting chat_id (category_key cat_type) st = Some (JArr l) →
  result_of (Telegram.category_menu chat_id cat_type st)
  = inr (((λ c, [Telegram.Button (Some (Telegram.contains c l))
                   (Telegram.stg chat_id "cattoggle"
                      (cat_type +:+ ":" +:+ c))])
          <$> ALL_CATEGORIES)
         ++ [[Telegram.Button None (Telegram.stg chat_id "back" "")]])%list.
Proof.
  intros Hl.
  assert (Hrows : ∀ cats,
    Telegram.category_rows chat_id cat_type (JArr l) cats st
    = (inr ((λ c, [Telegram.Button (Some (Telegram.contains c l))
                     (Telegram.stg chat_id "cattoggle"
                        (cat_type +:+ ":" +:+ c))]) <$> cats), st, [])).
  { induction cats as [|c cats IH]; [done|].
    cbn [Telegram.category_rows].
    rewrite (bind_silent _ _ (Telegram.contains c l) st eq_refl).
    by rewrite (bind_silent _ _ _ _ IH). }
  unfold Telegram.category_menu.
  rewrite (bind_silent _ _ _ _ (Telegram_get_settings_run _ st)).
  fold (category_key cat_type). rewrite Telegram_setting_lookup in Hl.
  assert (Hsub : subscript (S:=Telegram.state) (category_key cat_type)
                   (overrides chat_id (Telegram.db st)
                    ∪ Telegram.default_settings st) st
                 = (inr (JArr l), st, [])).
  { unfold subscript. by rewrite Hl. }
  rewrite (bind_silent _ _ _ _ Hsub).
  by rewrite (bind_silent _ _ _ _ (Hrows ALL_CATEGORIES)).
Qed.

(** X15. The check marks of a category menu show the stored set, and a
    press moves one mark.  When the category list of the menu's kind
    holds no tag twice, the button of each category is checked exactly
    when the list holds the category; after an administrator presses the
    button of category [c] (the callback the button carries), the menu
    rebuilt for the chat has the mark of [c] flipped and every other
    mark as before, with the same callback data on every button. *)
Theorem X15_pressing_a_category_button_flips_its_mark
    (round2_add : Qc → Qc → Qc) (w : Telegram.world) (chat_id : Z)
    (cat_type c : string) (st : Telegram.state) (l : list json) :
  is_admin w = true →
  free_of (Ascii.ascii_of_N 58) cat_type = true →
  Telegram_setting chat_id (category_key cat_type) st = Some (JArr l) →
  NoDup l →
  let st1 := state_of (Telegram.settings_callback round2_add w chat_id
                         "cattoggle" (cat_type +:+ ":" +:+ c) st) in
  ∃ rows rows1,
    result_of (Telegram.category_menu chat_id cat_type st) = inr rows
    ∧ result_of (Telegram.category_menu chat_id cat_type st1) = inr rows1
    ∧ ∀ i c',
        ALL_CATEGORIES !! i = Some c' →
        ∃ b b1,
          rows !! i = Some [b] ∧ rows1 !! i = Some [b1]
          ∧ Telegram.callback_data b1 = Telegram.callback_data b
          ∧ Telegram.checked b = Some (Telegram.contains c' l)
          ∧ Telegram.checked b1
            = Some (if bool_decide (c' = c)
                    then negb (Telegram.contains c' l)
                    else Telegram.contains c' l).
Proof.
  intros Hadmin Hcolon Hl Hnd st1.
  destruct (is_admin_status_of w Hadmin) as (status & Hs & Ha).
  assert (Hsplit : Telegram.split_colon (cat_type +:+ ":" +:+ c)
                   = Some (cat_type, c))
    by (by apply (split_colon_app (Ascii.ascii_of_N 58))).
  pose proof (Telegram_cattoggle_state round2_add w chat_id _ cat_type c
                status l st Hs Ha Hsplit Hl) as H1.
  fold st1 in H1.
  assert (Hl1 : Telegram_setting chat_id (category_key cat_type) st1
                = Some (JArr (toggled c l))).
  { rewrite Telegram_setting_lookup, H1. simpl.
    rewrite overrides_save, lookup_union, lookup_insert_eq.
    match goal with |- Some _ ∪ ?o = _ => by destruct o end. }
  eexists _, _. split; [by apply category_menu_list|].
  split; [by apply category_menu_list|].
  intros i c' Hi. eexists _, _.
  rewrite !lookup_app_l by (rewrite length_fmap; by eapply lookup_lt_Some).
  rewrite !list_lookup_fmap, Hi. simpl.
  split; [done|]. split; [done|]. split; [done|]. split; [done|].
  by rewrite contains_toggled.
Qed.

Lemma X15_witness :
  let st1 := state_of (Telegram.settings_callback (λ a b, (a + b)%Qc)
                         Sample.telegram_ok 10 "cattoggle"
                         ("block" +:+ ":" +:+ "other") Telegram.init) in
  let l := [JStr "threat"; JStr "stalking"] in
  ∃ rows rows1,
    result_of (Telegram.category_menu 10 "block" Telegram.init) = inr rows
    ∧ result_of (Telegram.category_menu 10 "block" st1) = inr rows1
    ∧ ∀ i c',
        ALL_CATEGORIES !! i = Some c' →
        ∃ b b1,
          rows !! i = Some [b] ∧ rows1 !! i = Some [b1]
          ∧ Telegram.callback_data b1 = Telegram.callback_data b
          ∧ Telegram.checked b = Some (Telegram.contains c' l)
          ∧ Telegram.checked b1
            = Some (if bool_decide (c' = "other")
                    then negb (Telegram.contains c' l)
                    else Telegram.contains c' l).
Proof.
  apply (X15_pressing_a_category_button_flips_its_mark (λ a b, (a + b)%Qc)
           Sample.telegram_ok 10 "block" "other" Telegram.init
           [JStr "threat"; JStr "stalking"]);
    try (vm_compute; reflexivity).
  repeat constructor; rewrite ?elem_of_cons, ?elem_of_nil; naive_solver.
Defined.

(** ** Enforcement on Telegram, for every handler and every verdict *)

Lemma bind_quiet {S A B} (m : M S A) (k : A → M S B) r s :
  m s = (r, s, []) →
  bind m k s = match r with inl e => (inl e, s, []) | inr a => k a s end.
Proof.
  unfold bind. intros ->. destruct r as [e|a]; [done|].
  by destruct (k a s) as [[? ?] ?].
Qed.

Lemma bind_modify {S B} (f : S → S) (k : unit → M S B) s :
  bind (modify f) k s = k tt (f s).
Proof. unfold bind, modify. by destruct (k tt (f s)) as [[? ?] ?]. Qed.

Lemma bind_trace {S A B} (m : M S A) (k : A → M S B) a s t :
  m s = (inr a, s, t) →
  bind m k s
  = (result_of (k a s), state_of (k a s), (t ++ trace_of (k a s))%list).
Proof. unfold bind. intros ->. by destruct (k a s) as [[? ?] ?]. Qed.

Lemma Telegram_apply_verdict_shape w u result chat_id sender_id label st :
  Telegram_enforcement_shape
    (trace_of (Telegram.apply_verdict w u result chat_id sender_id label st))
  = true.
Proof.
  unfold Telegram.apply_verdict.
  destruct (silent_joined_categories (S:=Telegram.state) result st) as [r1 H1].
  rewrite (bind_quiet _ _ _ _ H1). destruct r1 as [e|cs]; [done|].
  rewrite (bind_silent (Telegram.get_violations _ _) _ _ st eq_refl).
  unfold Telegram.set_violations. rewrite bind_modify.
  set (st' := Telegram.on_db _ st).
  set (n := Db.get_violations chat_id sender_id (Telegram.db st) + 1).
  set (v := get_default "confidence" (JNum 0%Qc) result).
  destruct (silent_should_ban_of (S:=Telegram.state) n v st') as [r2 H2].
  rewrite (bind_quiet _ _ _ _ H2). destruct r2 as [e|b]; [done|].
  assert (Hnote : silent
    (if b then format_percent (S:=Telegram.state) v ;; ret tt
     else if truthy (api_verdict_of result)
          then Telegram.esc (api_verdict_of result) else ret tt)).
  { destruct b.
    - apply silent_bind; [apply silent_format_percent|].
      intros _. apply silent_ret.
    - destruct (truthy _); [apply silent_esc|apply silent_ret]. }
  destruct (Hnote st') as [r3 H3].
  rewrite (bind_quiet _ _ _ _ H3). destruct r3 as [e|[]]; [done|].
  destruct (silent_format_percent (S:=Telegram.state) v st') as [r4 H4].
  rewrite (bind_quiet _ _ _ _ H4). destruct r4 as [e|pct]; [done|].
  rewrite (bind_request (emit _) _ tt _ st' eq_refl).
  destruct (Telegram_reply_run w cs (chosen_action b) st') as (ok & Hrun & Hok).
  rewrite (bind_trace _ _ _ _ _ Hrun). unfold trace_of. cbn [snd].
  destruct (is_str cs); simpl in Hok; subst ok;
    destruct (Telegram.reply_ok w), b; simpl; try done.
  unfold bind. by rewrite !attempt_call.
Qed.

Lemma api_requests_app t1 t2 :
  api_requests (t1 ++ t2) = (api_requests t1 + api_requests t2)%nat.
Proof. unfold api_requests. by rewrite List.filter_app, length_app. Qed.

Lemma api_requests_le_length t : (api_requests t ≤ length t)%nat.
Proof. unfold api_requests. apply List.filter_length_le. Qed.

Ltac counts_done :=
  unfold api_requests, detections, warnings, bans, deletions;
  repeat split; simpl; try lia; try done.

Lemma Telegram_shape_counts t :
  Telegram_enforcement_shape t = true →
  api_requests t = 0%nat
  ∧ (detections t ≤ 1)%nat ∧ (warnings t ≤ 1)%nat ∧ (bans t ≤ 1)%nat
  ∧ deletions t = bans t
  ∧ (bans t = 1%nat → ChannelWarning ban true ∈ t).
Proof.
  intros H.
  destruct t as [|e1 t]; [counts_done|].
  destruct e1; try (simpl in H; done).
  destruct t as [|e2 t]; [counts_done|].
  destruct e2; try (simpl in H; repeat case_match; done).
  destruct t as [|e3 t]; [counts_done|].
  destruct e3; try (simpl in H; repeat case_match; done).
  destruct t as [|e4 t]; [simpl in H; repeat case_match; done|].
  destruct e4; try (simpl in H; repeat case_match; done).
  destruct t; [|simpl in H; repeat case_match; done].
  simpl in H. repeat case_match; try done. subst.
  counts_done. intros _.
  apply elem_of_cons. right. apply elem_of_cons. by left.
Qed.

(** X16. One enforcement per Telegram update, and no ban without a
    delivered notice.  Every message handler (text, voice, photo, video),
    for every update, every API answer and every outcome of the platform
    calls, sends at most one request to the classification API, before
    anything else, and then logs at most one moderation line, sends at
    most one warning and attempts at most one ban; the message is deleted
    exactly when a ban is attempted, and a ban is attempted only after
    the ban notice was delivered to the chat. *)
Theorem X16_telegram_one_enforcement_per_update
    (h : telegram_handler) (w : Telegram.world) (u : Telegram.update)
    (st : Telegram.state) :
  let t := trace_of (run_handler h w u st) in
  (api_requests t ≤ 1)%nat
  ∧ (∀ i e, t !! i = Some e → is_api e = true → i = 0%nat)
  ∧ (detections t ≤ 1)%nat ∧ (warnings t ≤ 1)%nat ∧ (bans t ≤ 1)%nat
  ∧ deletions t = bans t
  ∧ (bans t = 1%nat → ChannelWarning ban true ∈ t).
Proof.
  intros t. pose proof (Telegram_event_cases h w u st) as H. cbv zeta in H.
  fold t in H. destruct H as (t0 & tv & Ht & Hapi & Hlen & Hcases).
  assert (Hshape : Telegram_enforcement_shape tv = true).
  { destruct Hcases as [[_ ->]|(d & label & _ & _ & ->)]; [done|].
    apply Telegram_apply_verdict_shape. }
  destruct (Telegram_shape_counts tv Hshape) as (Ha & Hd & Hw & Hb & Hdb & Hn).
  destruct (api_only_counts t0 Hapi) as (E1 & E2 & E3 & E4).
  rewrite Ht, api_requests_app, detections_app, warnings_app, bans_app,
    deletions_app, Ha, E1, E2, E3, E4.
  pose proof (api_requests_le_length t0).
  split; [lia|]. split; [|split; [lia|split; [lia|split; [lia|split; [done|]]]]].
  - intros i e Hi He.
    destruct (decide (i < length t0)%nat) as [Hlt|Hge]; [lia|].
    rewrite lookup_app_r in Hi by lia.
    assert (Hin : e ∈ tv) by (by eapply list_elem_of_lookup_2).
    assert (Hnone : ∀ t', api_requests t' = 0%nat → ∀ e', e' ∈ t' →
                          is_api e' = false).
    { clear. induction t' as [|x t' IH]; intros H0 e' He'.
      - by apply elem_of_nil in He'.
      - unfold api_requests in H0. simpl in H0.
        destruct (is_api x) eqn:Hx; [done|].
        apply elem_of_cons in He' as [->|He']; [done|]. by apply IH. }
    rewrite (Hnone tv Ha e Hin) in He. done.
  - intros Hban. apply elem_of_app. right. apply Hn. lia.
Qed.

(** ** The steps of the enforcement on Discord *)



(** ** Media that is not fetched *)

(** X18. Telegram media that cannot be fetched is skipped in silence.
    In a group, a voice or audio message, a photo, and a video or
    animation whose download fails, and a video or animation larger than
    20 MiB (which is not even downloaded), are not sent to the
    classification API: the handler returns with the state as it was and
    without any effect.  The same holds for an update that carries no
    such medium. *)
Theorem X18_unfetched_telegram_media_is_skipped :
  (∀ w u st,
     match Telegram.first_of (Telegram.voice u) (Telegram.audio u) with
     | Some v => Telegram.download v = None
     | None => True
     end →
     Telegram.handle_voice w u st = (inr tt, st, []))
  ∧ (∀ w u st,
       match last (Telegram.photo u) with
       | Some ph => Telegram.download ph = None
       | None => True
       end →
       Telegram.handle_photo w u st = (inr tt, st, []))
  ∧ (∀ w u st,
       match Telegram.first_of (Telegram.video u) (Telegram.animation u) with
       | Some v => 20 * 1024 * 1024 < default 0 (Telegram.file_size v)
                   ∨ Telegram.download v = None
       | None => True
       end →
       Telegram.handle_video w u st = (inr tt, st, [])).
Proof.
  split; [|split].
  - intros w u st H. unfold Telegram.handle_voice.
    destruct (Telegram.has_message u); [|done].
    destruct (Telegram.in_group u); [|done]. cbn [negb].
    destruct (Telegram.first_of _ _) as [v|]; [|done].
    rewrite (bind_silent (Telegram.get_violations _ _) _ _ st eq_refl).
    by rewrite H.
  - intros w u st H. unfold Telegram.handle_photo.
    destruct (Telegram.has_message u); [|done].
    destruct (Telegram.in_group u); [|done]. cbn [negb].
    destruct (last _) as [ph|]; [|done].
    rewrite (bind_silent (Telegram.get_violations _ _) _ _ st eq_refl).
    by rewrite H.
  - intros w u st H. unfold Telegram.handle_video.
    destruct (Telegram.has_message u); [|done].
    destruct (Telegram.in_group u); [|done]. cbn [negb].
    destruct (Telegram.first_of _ _) as [v|]; [|done].
    rewrite (bind_silent (Telegram.get_violations _ _) _ _ st eq_refl).
    case_bool_decide as Hsize; [done|].
    destruct H as [H|H]; [done|]. by rewrite H.
Qed.

Lemma X18_witness :
  Telegram.handle_video Sample.telegram_ok Sample.oversized_video_update
    Telegram.init
  = (inr tt, Telegram.init, []).
Proof.
  apply (proj2 (proj2 X18_unfetched_telegram_media_is_skipped)).
  left. vm_compute. reflexivity.
Defined.

(** ** Uploads of Discord attachments *)

Lemma Discord_trace_no_api w n c e :
  e ∈ Discord_trace w n c → is_api e = false.
Proof.
  unfold Discord_trace.
  destruct (ban_rule n c), (Discord.log_channel_exists w),
    (Discord.create_channel_ok w); simpl; intros H;
    repeat (apply elem_of_cons in H as [->|H]; [done|]);
    by apply elem_of_nil in H.
Qed.

Lemma Discord_apply_verdict_no_api w m d label db e :
  e ∈ trace_of (Discord.apply_verdict w m d label db) → is_api e = false.
Proof.
  destruct (Discord.guild m) as [g|] eqn:Hg.
  2:{ unfold Discord.apply_verdict. rewrite Hg. intros H.
      by apply elem_of_nil in H. }
  destruct (Discord.author_is_member m) eqn:Hm.
  2:{ unfold Discord.apply_verdict. rewrite Hg, Hm. intros H.
      by apply elem_of_nil in H. }
  pose proof (Discord_apply_verdict_any w m d label db g Hg Hm) as H.
  cbv zeta in H. destruct H as [(_ & -> & _)|(_ & Hpre & _)].
  - intros H. by apply elem_of_nil in H.
  - intros He. destruct Hpre as [k Hk].
    apply (Discord_trace_no_api w
             (Db.get_violations g (Discord.author_id m) db + 1)
             (confidence_of d)).
    rewrite Hk. apply elem_of_app. by left.
Qed.

Lemma no_api_requests t :
  (∀ e, e ∈ t → is_api e = false) → api_requests t = 0%nat.
Proof.
  induction t as [|x t IH]; intros H; [done|].
  unfold api_requests in *. simpl. rewrite (H x) by (by left).
  apply IH. intros e He. apply H. by right.
Qed.

(** The guarded call after an upload: it goes on with the loop, or ends
    without a further request. *)
Lemma Discord_check_trace w m label result (continue : M store unit) db :
  let c := (verdict <- harmful_verdict result ;;
            match verdict with
            | Some d => Discord.apply_verdict w m d label
            | None => continue
            end) in
  c db = continue db ∨ (∀ e, e ∈ trace_of (c db) → is_api e = false).
Proof.
  intros c. unfold c.
  destruct (silent_harmful_verdict (S:=store) result db) as [r Hr].
  rewrite (bind_quiet _ _ _ _ Hr). destruct r as [e|[d|]].
  - right. intros e' He'. by apply elem_of_nil in He'.
  - right. apply Discord_apply_verdict_no_api.
  - by left.
Qed.

Lemma Discord_attachments_loop_uploads w m prior sender_display atts db :
  let t := trace_of (Discord.attachments_loop w m prior sender_display atts db) in
  (∀ e, e ∈ t → is_api e = true → ∃ a, a ∈ atts ∧ upload_of a e)
  ∧ (api_requests t ≤ length (List.filter uploadable atts))%nat.
Proof.
  cbv zeta. induction atts as [|a rest IH].
  { split; [|done]. intros e He. by apply elem_of_nil in He. }
  destruct IH as [IH1 IH2].
  assert (Hskip :
    (∀ e, e ∈ trace_of (Discord.attachments_loop w m prior sender_display
                          rest db) →
          is_api e = true → ∃ a0, a0 ∈ a :: rest ∧ upload_of a0 e)
    ∧ (api_requests (trace_of (Discord.attachments_loop w m prior
                                 sender_display rest db))
       ≤ length (List.filter uploadable (a :: rest)))%nat).
  { split.
    - intros e He Hapi. destruct (IH1 e He Hapi) as (a0 & Ha0 & Hup).
      exists a0. split; [by right|done].
    - simpl. destruct (uploadable a); simpl; lia. }
  assert (Hupload : ∀ (call : M store json) v endpoint ctype fields label,
    call db = (inr v, db, [ApiUpload endpoint fields (Discord.filename a) ctype]) →
    is_Some (Discord.read a) →
    upload_target a = Some (endpoint, ctype) →
    let t := trace_of (bind call (λ result,
               verdict <- harmful_verdict result ;;
               match verdict with
               | Some d => Discord.apply_verdict w m d label
               | None => Discord.attachments_loop w m prior sender_display rest
               end) db) in
    (∀ e, e ∈ t → is_api e = true → ∃ a0, a0 ∈ a :: rest ∧ upload_of a0 e)
    ∧ (api_requests t ≤ length (List.filter uploadable (a :: rest)))%nat).
  { intros call v endpoint ctype fields label Hcall Hread Htarget t.
    unfold t. rewrite (bind_request _ _ _ _ _ Hcall).
    unfold trace_of at 1 3. cbn [snd].
    assert (Hup : uploadable a = true).
    { unfold uploadable. rewrite !bool_decide_eq_true_2; [done| |done].
      by rewrite Htarget. }
    assert (Hthis : upload_of a
              (ApiUpload endpoint fields (Discord.filename a) ctype)).
    { split; [done|]. by exists endpoint, ctype, fields. }
    pose proof (Discord_check_trace w m label v
      (Discord.attachments_loop w m prior sender_display rest) db) as Hc.
    cbv zeta in Hc. destruct Hc as [->|Hnone].
    - split.
      + intros e He Hapi. apply elem_of_cons in He as [->|He].
        * exists a. split; [by left|done].
        * destruct (IH1 e He Hapi) as (a0 & Ha0 & Hup0).
          exists a0. split; [by right|done].
      + change (api_requests (?x :: ?t')) with (api_requests ([x] ++ t')).
        rewrite api_requests_app. simpl. rewrite Hup. simpl.
        unfold api_requests in *. simpl. lia.
    - split.
      + intros e He Hapi. apply elem_of_cons in He as [->|He].
        * exists a. split; [by left|done].
        * by rewrite (Hnone e He) in Hapi.
      + change (api_requests (?x :: ?t')) with (api_requests ([x] ++ t')).
        rewrite api_requests_app, (no_api_requests _ Hnone).
        simpl. rewrite Hup. unfold api_requests in *. simpl. lia. }
  cbn [Discord.attachments_loop]. cbv zeta.
  destruct (Discord.read a) as [bytes|] eqn:Hread; [|exact Hskip].
  unfold upload_target in Hupload.
  destruct (Discord.is_image _ _).
  { eapply (Hupload _ (decoded (Discord.response a))); [|done|done].
    unfold api_image, or_none, post_json, bind, emit, decoded.
    by destruct (Discord.response a). }
  destruct (Discord.is_audio _ _).
  { eapply (Hupload _ (decoded (Discord.response a))); [|done|done].
    unfold api_audio, or_none, post_json, bind, emit, decoded.
    by destruct (Discord.response a). }
  destruct (Discord.is_video _ _); [|exact Hskip].
  case_bool_decide; [exact Hskip|].
  eapply (Hupload _ (decoded (Discord.response a))); [|done|done].
  unfold api_video, or_none, post_json, bind, emit, decoded.
  by destruct (Discord.response a).
Qed.

Lemma bind_assoc {S A B C} (m : M S A) (f : A → M S B) (g : B → M S C) s :
  bind (bind m f) g s = bind m (λ a, bind (f a) g) s.
Proof.
  unfold bind. destruct (m s) as [[[e|a] s1] t1]; [done|].
  destruct (f a s1) as [[[e|b] s2] t2]; [done|].
  destruct (g b s2) as [[r s3] t3]. by rewrite app_assoc.
Qed.

(** X19. Every request a Discord message causes is accounted for.  The
    requests [on_message] sends to the classification API are: at most
    one text request, only for a text that is not blank, carrying the
    author's id and display name, the stored violation count of the
    author and the settings of the guild; and uploads of attachments of
    the message, each to the endpoint and with the content type of the
    kind the attachment is recognised as (image before audio before
    video, by content type or file extension), and only for attachments
    that can be read and are not videos above 20 MiB.  Their number is at
    most one plus the number of such attachments, so unreadable,
    unrecognised and oversized files are never uploaded. *)
Theorem X19_discord_requests_are_accounted_for
    (w : Discord.world) (m : Discord.message) (db : store) :
  let t := trace_of (Discord.on_message w m db) in
  (∀ e, e ∈ t → is_api e = true →
     (nonblank (Discord.content m) = true
      ∧ ∃ g, Discord.guild m = Some g
             ∧ e = ApiPost "/analyze/messages"
                     (text_body (JStr (Discord.content m))
                        (JStr (pretty (Discord.author_id m)))
                        (JStr (Discord.author_display_name m))
                        (Db.get_violations g (Discord.author_id m) db)
                        (overrides g db ∪ Discord.DEFAULT_SETTINGS)))
     ∨ ∃ a, a ∈ Discord.attachments m ∧ upload_of a e)
  ∧ (api_requests t
     ≤ (if nonblank (Discord.content m) then 1 else 0)
       + length (List.filter uploadable (Discord.attachments m)))%nat.
Proof.
  intros t. unfold t, Discord.on_message.
  destruct (Discord.guild m) as [g|] eqn:Hg.
  2:{ split; [|unfold api_requests in *; simpl; lia]. intros e He. by apply elem_of_nil in He. }
  destruct (Discord.author_bot m).
  { split; [|unfold api_requests in *; simpl; lia]. intros e He. by apply elem_of_nil in He. }
  rewrite (bind_silent (Discord.get_violations _ _) _ _ db eq_refl).
  rewrite (bind_silent _ _ _ _ (Discord_get_settings_run _ db)).
  pose proof (Discord_attachments_loop_uploads w m
    (Db.get_violations g (Discord.author_id m) db)
    (Discord.author_display_name m) (Discord.attachments m) db) as Hloop.
  cbv zeta in Hloop. destruct Hloop as [L1 L2].
  destruct (nonblank (Discord.content m)).
  - rewrite bind_assoc.
    rewrite (bind_request _ _ _ _ _ (api_text_run _ _ _ _ _ _ db)).
    unfold trace_of at 1 3. cbn [snd].
    pose proof (Discord_check_trace w m ""
      (normalize (Discord.text_response m))
      (Discord.attachments_loop w m
         (Db.get_violations g (Discord.author_id m) db)
         (Discord.author_display_name m) (Discord.attachments m)) db) as Hc.
    cbv zeta in Hc. destruct Hc as [->|Hnone].
    + split.
      * intros e He Hapi. apply elem_of_cons in He as [->|He].
        -- left. split; [done|]. by exists g.
        -- right. by apply L1.
      * change (api_requests (?x :: ?t')) with (api_requests ([x] ++ t')).
        rewrite api_requests_app. unfold api_requests in *. simpl. lia.
    + split.
      * intros e He Hapi. apply elem_of_cons in He as [->|He].
        -- left. split; [done|]. by exists g.
        -- by rewrite (Hnone e He) in Hapi.
      * change (api_requests (?x :: ?t')) with (api_requests ([x] ++ t')).
        rewrite api_requests_app, (no_api_requests _ Hnone).
        unfold api_requests. simpl. lia.
  - rewrite (bind_silent (ret None) _ None db eq_refl).
    split; [|unfold api_requests in *; simpl; lia]. intros e He Hapi. right. by apply L1.
Qed.

(** ** Enforcement and the record *)

Lemma trace_of_run {S A} (r : pyexn + A) (s : S) (t : list effect) :
  trace_of (r, s, t) = t.
Proof. done. Qed.

Lemma state_of_run {S A} (r : pyexn + A) (s : S) (t : list effect) :
  state_of (r, s, t) = s.
Proof. done. Qed.

Lemma api_only_no_enforcement t :
  forallb is_api t = true →
  (detections t + warnings t + deletions t + bans t)%nat = 0%nat.
Proof. intros H. destruct (api_only_counts t H) as (-> & -> & -> & ->). done. Qed.

(** X20. Nobody is warned, deleted or banned without a recorded
    violation.  Whenever a message handler of either bot logs a
    moderation line, sends a warning, deletes the message or attempts a
    ban, the stored count of the author in that chat or guild has grown
    by exactly one in the same run, for every API answer and every
    outcome of the platform calls. *)
Theorem X20_no_enforcement_without_a_recorded_violation :
  (∀ h w u st,
     let r := run_handler h w u st in
     let t := trace_of r in
     (0 < detections t + warnings t + deletions t + bans t)%nat →
     Db.get_violations (Telegram.chat_id u) (Telegram.from_user_id u)
       (Telegram.db (state_of r))
     = Db.get_violations (Telegram.chat_id u) (Telegram.from_user_id u)
         (Telegram.db st) + 1)
  ∧ (∀ w m db,
       let r := Discord.on_message w m db in
       let t := trace_of r in
       (0 < detections t + warnings t + deletions t + bans t)%nat →
       ∃ g, Discord.guild m = Some g
            ∧ Db.get_violations g (Discord.author_id m) (state_of r)
              = Db.get_violations g (Discord.author_id m) db + 1).
Proof.
  split.
  - intros h w u st r t Hpos.
    pose proof (Telegram_event_cases h w u st) as H. cbv zeta in H.
    fold r t in H. destruct H as (t0 & tv & Ht & Hapi & _ & Hcases).
    pose proof (api_only_no_enforcement t0 Hapi) as H0.
    rewrite Ht, detections_app, warnings_app, deletions_app, bans_app in Hpos.
    destruct Hcases as [[_ ->]|(d & label & _ & Hst & ->)].
    { unfold detections, warnings, deletions, bans in *. simpl in *. lia. }
    rewrite Hst.
    pose proof (Telegram_apply_verdict_any w u d (Telegram.chat_id u)
                  (Telegram.from_user_id u) label st) as Hany.
    cbv zeta in Hany. destruct Hany as [(_ & Hnil & _)|(-> & _ & _)].
    + rewrite Hnil in Hpos.
      unfold detections, warnings, deletions, bans in *. simpl in *. lia.
    + simpl. apply get_record_violation.
  - intros w m db r t Hpos.
    pose proof (Discord_on_message_run w m db) as Hrun.
    unfold t, r in Hpos |- *. clear t r.
    destruct (Discord_detection m) as [d label| |]; simpl in Hrun.
    + destruct Hrun as (t0 & Hapi & Hr).
      pose proof (api_only_no_enforcement t0 Hapi) as H0.
      rewrite Hr in Hpos |- *. rewrite !trace_of_run in Hpos.
      rewrite detections_app, warnings_app, deletions_app, bans_app in Hpos.
      rewrite state_of_run.
      destruct (Discord.guild m) as [g|] eqn:Hg.
      2:{ unfold Discord.apply_verdict in Hpos. rewrite Hg in Hpos.
          unfold detections, warnings, deletions, bans in *. simpl in *. lia. }
      destruct (Discord.author_is_member m) eqn:Hm.
      2:{ unfold Discord.apply_verdict in Hpos. rewrite Hg, Hm in Hpos.
          unfold detections, warnings, deletions, bans in *. simpl in *. lia. }
      exists g. split; [done|].
      pose proof (Discord_apply_verdict_any w m d label db g Hg Hm) as Hany.
      cbv zeta in Hany. destruct Hany as [(_ & Hnil & _)|(-> & _ & _)].
      * rewrite Hnil in Hpos.
        unfold detections, warnings, deletions, bans in *. simpl in *. lia.
      * apply get_record_violation.
    + destruct Hrun as (t0 & Hr & Hapi).
      pose proof (api_only_no_enforcement t0 Hapi) as H0.
      rewrite Hr in Hpos. unfold trace_of in Hpos.
      simpl in Hpos. lia.
    + destruct Hrun as (t0 & Hr & Hapi).
      pose proof (api_only_no_enforcement t0 Hapi) as H0.
      rewrite Hr in Hpos. unfold trace_of in Hpos.
      simpl in Hpos. lia.
Qed.

Lemma X20_witness :
  Db.get_violations 10 7
    (Telegram.db (state_of (run_handler OnText Sample.telegram_ok Sample.update
                              Telegram.init)))
  = Db.get_violations 10 7 (Telegram.db Telegram.init) + 1.
Proof.
  apply (proj1 X20_no_enforcement_without_a_recorded_violation OnText
           Sample.telegram_ok Sample.update Telegram.init).
  vm_compute. lia.
Defined.

Lemma format_percent_raises {S} v (s : S) :
  num_of v = None → ∃ e, format_percent v s = (inl e, s, []).
Proof.
  intros H. unfold format_percent. rewrite H. destruct v; by eexists.
Qed.


